(** * Verification of the review orchestration pipeline

    A shallow embedding of the configuration resolver
    ([buildConfig], [mergeRules], [validateConfig]), the prompt assembler
    ([buildPrompt], [loadReviewPrompt]), the result normalizer
    ([parseResults], [mapSeverity], [mapCategory]) and the aggregator
    ([determineStatus], [filterIssuesBySeverity], [countBySeverity],
    [countByCategory], [review]) of the code review agent, with the
    properties its specification states about them. *)

From Stdlib Require Import ZArith NArith QArith List String Ascii DecimalString Lia.
From stdpp Require Import base option list gmap strings.

Set Default Proof Using "Type".
Local Open Scope N_scope.

(** ** JavaScript strings

    A string is the sequence of its UTF-16 code units, so that [length],
    [firstn] and list equality are [.length], [.substring(0, n)] and
    [===].  String literals of the source are written with [js]; the few
    non-ASCII code units are given by number. *)

Definition jsstring := list N.

Definition js (s : string) : jsstring :=
  map N_of_ascii (list_ascii_of_string s).

Definition is_ascii_lower (c : N) : bool := (97 <=? c) && (c <=? 122).
Definition is_ascii_upper (c : N) : bool := (65 <=? c) && (c <=? 90).

(** [a === b] on two strings. *)
Definition str_eqb (a b : jsstring) : bool := bool_decide (a = b).

(** [s.includes(t)]: [t] occurs in [s] as a contiguous block. *)
Fixpoint starts_with (t s : jsstring) : bool :=
  match t, s with
  | [], _ => true
  | _ :: _, [] => false
  | x :: t', y :: s' => (x =? y) && starts_with t' s'
  end.

Fixpoint includes (s t : jsstring) : bool :=
  starts_with t s ||
  match s with
  | [] => false
  | _ :: s' => includes s' t
  end.

(** [parts.join(sep)] *)
Fixpoint join (sep : jsstring) (parts : list jsstring) : jsstring :=
  match parts with
  | [] => []
  | [p] => p
  | p :: rest => p ++ sep ++ join sep rest
  end.

(** Changing the case of ASCII letters: [recase mask s] swaps the case of
    the letters of [s] at the positions where [mask] is [true].  Every
    string that differs from [s] only in the case of ASCII letters is
    [recase mask s] for some [mask]. *)
Definition swap_ascii_case (c : N) : N :=
  if is_ascii_lower c then c - 32
  else if is_ascii_upper c then c + 32
  else c.

Fixpoint recase (mask : list bool) (s : jsstring) : jsstring :=
  match mask, s with
  | b :: mask', c :: s' => (if b then swap_ascii_case c else c) :: recase mask' s'
  | _, _ => s
  end.

(** ** JavaScript numbers

    A number is a double; the code only compares numbers with zero, tests
    their truthiness, takes lengths and prints them, so a number is
    modelled by the extended rational it denotes ([-0] and [0] are both
    [Finite 0]). *)

Inductive number :=
  | NaN
  | Infinity (negative : bool)
  | Finite (q : Q).

Definition number_truthy (n : number) : bool :=
  match n with
  | NaN => false
  | Infinity _ => true
  | Finite q => negb (Qeq_bool q 0)
  end.

(** [n <= 0] *)
Definition number_le_zero (n : number) : bool :=
  match n with
  | NaN => false
  | Infinity negative => negative
  | Finite q => Qle_bool q 0
  end.

Definition of_nat (n : nat) : number := Finite (inject_Z (Z.of_nat n)).

(** ** Values produced by [JSON.parse] *)

#[warnings="-register-all"]
Inductive JSON :=
  | JNull
  | JBool (b : bool)
  | JNumber (n : number)
  | JString (s : jsstring)
  | JArray (l : list JSON)
  | JObject (o : gmap jsstring JSON).

(** A value read from a property is a JSON value or [undefined] ([None]). *)
Definition value := option JSON.

Definition json_truthy (j : JSON) : bool :=
  match j with
  | JNull => false
  | JBool b => b
  | JNumber n => number_truthy n
  | JString s => negb (str_eqb s [])
  | JArray _ => true
  | JObject _ => true
  end.

Definition truthy (v : value) : bool :=
  match v with
  | None => false
  | Some j => json_truthy j
  end.

(** [a || b] *)
Definition js_or (a b : value) : value := if truthy a then a else b.

(** [a || b] where [b] is never [undefined] *)
Definition js_or_default (a : value) (b : JSON) : JSON :=
  match a with
  | Some j => if json_truthy j then j else b
  | None => b
  end.

(** ** Exceptions and the error monad *)

Inductive exn :=
  | SyntaxError
  | TypeError
  | Error (message : jsstring).

Definition result (A : Type) := sum exn A.

Definition ret {A} (a : A) : result A := inr a.
Definition throw {A} (e : exn) : result A := inl e.
Definition bind {A B} (m : result A) (k : A -> result B) : result B :=
  match m with
  | inl e => inl e
  | inr a => k a
  end.

Notation "'let*' x ':=' m 'in' k" := (bind m (fun x => k))
  (at level 10, x pattern, m at level 100, k at level 200).

Fixpoint mapM {A B} (f : A -> result B) (l : list A) : result (list B) :=
  match l with
  | [] => ret []
  | a :: l' =>
      let* b := f a in
      let* bs := mapM f l' in
      ret (b :: bs)
  end.

(** ** Types of the review ([types/index.ts]) *)

Inductive IssueSeverity := critical | error | warning | info.

Inductive ReviewCategory :=
  | security | performance | maintainability | best_practices
  | bugs | style | documentation.

#[export] Instance IssueSeverity_eq_dec : EqDecision IssueSeverity.
Proof. solve_decision. Defined.

#[export] Instance ReviewCategory_eq_dec : EqDecision ReviewCategory.
Proof. solve_decision. Defined.

(** The string a severity or a category is at run time. *)
Definition severity_name (s : IssueSeverity) : jsstring :=
  match s with
  | critical => js "critical"
  | error => js "error"
  | warning => js "warning"
  | info => js "info"
  end.

Definition category_name (c : ReviewCategory) : jsstring :=
  match c with
  | security => js "security"
  | performance => js "performance"
  | maintainability => js "maintainability"
  | best_practices => js "best-practices"
  | bugs => js "bugs"
  | style => js "style"
  | documentation => js "documentation"
  end.

Record ReviewRule := {
  rule_id : jsstring;
  rule_name : jsstring;
  rule_description : jsstring;
  rule_severity : IssueSeverity;
  rule_category : ReviewCategory;
  rule_enabled : bool;
}.

Record FileDiff := {
  filename : jsstring;
  status : jsstring;
  additions : number;
  deletions : number;
  patch : option jsstring;
}.

(** Every field of a pull-request context is optional; [None] is an absent
    (or [undefined]) field.  [number] is declared [string | number]. *)
Record PRContext := {
  title : option jsstring;
  description : option jsstring;
  number_ : option (jsstring + number);
  branch : option jsstring;
  author : option jsstring;
  changedFiles : option (list jsstring);
  baseBranch : option jsstring;
  fileDiffs : option (list FileDiff);
}.

Record ReviewConfig := {
  maxFiles : option number;
  maxBudgetUsd : option number;
  model : option jsstring;
  excludePatterns : option (list jsstring);
  includePatterns : option (list jsstring);
  cwd : option jsstring;
  verbose : option bool;
  rules : option (list ReviewRule);
  severityThreshold : option IssueSeverity;
  prContext : option PRContext;
}.

(** [Partial<ReviewConfig>] as the caller passes it.  The object spread in
    [buildConfig] copies every own property, also one whose value is
    [undefined]: a field is absent ([None]), present and [undefined]
    ([Some None]) or present with a value. *)
Record PartialConfig := {
  user_maxFiles : option (option number);
  user_maxBudgetUsd : option (option number);
  user_model : option (option jsstring);
  user_excludePatterns : option (option (list jsstring));
  user_includePatterns : option (option (list jsstring));
  user_cwd : option (option jsstring);
  user_verbose : option (option bool);
  user_rules : option (option (list ReviewRule));
  user_severityThreshold : option (option IssueSeverity);
  user_prContext : option (option PRContext);
}.

(** [{}], the default argument of [buildConfig] and of the constructor. *)
Definition empty_config : PartialConfig :=
  {| user_maxFiles := None; user_maxBudgetUsd := None; user_model := None;
     user_excludePatterns := None; user_includePatterns := None;
     user_cwd := None; user_verbose := None; user_rules := None;
     user_severityThreshold := None; user_prContext := None |}.

(** A normalized issue.  The casts of [parseResults] are unchecked, so the
    fields copied from the parsed object hold whatever JSON value was there. *)
Record ReviewIssue := {
  ruleId : JSON;
  severity : IssueSeverity;
  category : ReviewCategory;
  filePath : JSON;
  line : value;
  message : value;
  suggestion : value;
  impact : value;
}.

Inductive ReviewStatus := success | failure | partial.

Record ReviewStats := {
  totalFiles : value;
  totalIssues : nat;
  issuesBySeverity : IssueSeverity -> nat;
  issuesByCategory : ReviewCategory -> nat;
  totalCostUsd : number;
  durationMs : number;
}.

Record ReviewMetadata := {
  startTime : jsstring;
  endTime : jsstring;
  meta_model : jsstring;
  meta_sessionId : jsstring;
  meta_config : ReviewConfig;
}.

Record ReviewResult := {
  res_status : ReviewStatus;
  res_summary : jsstring;
  res_prIntent : value;
  res_impactAnalysis : value;
  res_issues : list ReviewIssue;
  res_edgeCases : value;
  res_missingTests : value;
  res_missingDocumentation : value;
  res_positives : value;
  res_recommendations : value;
  res_filesReviewed : JSON;
  res_filesSkipped : list jsstring;
  res_stats : ReviewStats;
  res_metadata : ReviewMetadata;
}.

(** What [parseResults] returns. *)
Record ParsedResults := {
  parsed_summary : value;
  parsed_prIntent : value;
  parsed_impactAnalysis : value;
  parsed_issues : list ReviewIssue;
  parsed_filesReviewed : JSON;
  parsed_edgeCases : value;
  parsed_missingTests : value;
  parsed_missingDocumentation : value;
  parsed_positives : value;
  parsed_recommendations : value;
}.

(** ** The agent SDK as the review sees it *)

Inductive MessageType :=
  | msg_system | msg_assistant | msg_user | msg_result | msg_other.

(** A message of the stream; an optional field is [None] when the key is
    not [in] the message. *)
Record SDKMessage := {
  msg_type : MessageType;
  msg_session_id : option jsstring;
  msg_result_text : option jsstring;
  msg_total_cost_usd : option number;
  msg_duration_ms : option number;
}.

Record Options := {
  allowedTools : list jsstring;
  permissionMode : jsstring;
  allowDangerouslySkipPermissions : bool;
  opt_model : option jsstring;
  opt_maxBudgetUsd : option number;
  opt_cwd : option jsstring;
}.

(** What iterating [query({ prompt, options })] delivers: the messages, and
    the exception the iteration ends with if it fails. *)
Record Stream := {
  messages : list SDKMessage;
  stream_failure : option exn;
}.

(** The environment variables the configuration module reads (after
    [dotenv.config()]), and [process.cwd()]. *)
Record ProcessEnv := {
  MAX_FILES_PER_REVIEW : option jsstring;
  MAX_BUDGET_USD : option jsstring;
  MODEL : option jsstring;
  LOG_LEVEL : option jsstring;
  ANTHROPIC_API_KEY : option jsstring;
  process_cwd : jsstring;
}.

(** ** Default rules ([config/default-rules.ts]) *)

Definition mk_rule (i n d : string) (s : IssueSeverity) (c : ReviewCategory)
    (e : bool) : ReviewRule :=
  {| rule_id := js i; rule_name := js n; rule_description := js d;
     rule_severity := s; rule_category := c; rule_enabled := e |}.

Definition DEFAULT_RULES : list ReviewRule := [
  mk_rule "security-no-hardcoded-secrets" "No Hardcoded Secrets"
    "Detect hardcoded API keys, passwords, tokens, or secrets"
    critical security true;
  mk_rule "security-sql-injection" "SQL Injection Prevention"
    "Check for potential SQL injection vulnerabilities"
    critical security true;
  mk_rule "security-xss" "XSS Prevention"
    "Check for potential Cross-Site Scripting vulnerabilities"
    critical security true;
  mk_rule "security-command-injection" "Command Injection Prevention"
    "Check for potential command injection vulnerabilities"
    critical security true;
  mk_rule "performance-inefficient-loops" "Inefficient Loops"
    "Detect inefficient loop patterns and nested iterations"
    warning performance true;
  mk_rule "performance-memory-leaks" "Potential Memory Leaks"
    "Identify patterns that could lead to memory leaks"
    error performance true;
  mk_rule "performance-unnecessary-computations" "Unnecessary Computations"
    "Flag redundant or repeated computations that can be optimized"
    info performance true;
  mk_rule "bugs-null-reference" "Null Reference Errors"
    "Detect potential null or undefined reference errors"
    error bugs true;
  mk_rule "bugs-type-errors" "Type Errors"
    "Identify potential type mismatches and coercion issues"
    error bugs true;
  mk_rule "bugs-logic-errors" "Logic Errors"
    "Detect logical errors and incorrect conditional statements"
    error bugs true;
  mk_rule "best-practices-error-handling" "Proper Error Handling"
    "Ensure proper error handling and exception management"
    warning best_practices true;
  mk_rule "best-practices-async-await" "Async/Await Usage"
    "Check for proper async/await patterns and promise handling"
    warning best_practices true;
  mk_rule "best-practices-immutability" "Immutability"
    "Prefer immutable patterns and avoid direct state mutations"
    info best_practices true;
  mk_rule "maintainability-complexity" "Code Complexity"
    "Flag functions with high cyclomatic complexity"
    warning maintainability true;
  mk_rule "maintainability-function-length" "Function Length"
    "Identify excessively long functions that should be refactored"
    info maintainability true;
  mk_rule "maintainability-duplication" "Code Duplication"
    "Detect duplicated code that should be extracted"
    warning maintainability true;
  mk_rule "documentation-missing-comments" "Missing Documentation"
    "Flag complex functions lacking documentation"
    info documentation true;
  mk_rule "documentation-outdated-comments" "Outdated Comments"
    "Identify comments that may be outdated or misleading"
    info documentation true;
  mk_rule "style-naming-conventions" "Naming Conventions"
    "Ensure consistent naming conventions"
    info style false;
  mk_rule "style-code-formatting" "Code Formatting"
    "Check for consistent code formatting"
    info style false
].

Definition getEnabledRules : list ReviewRule :=
  filter (fun r => rule_enabled r = true) DEFAULT_RULES.

(** ** Rule merging ([config/index.ts])

    A JavaScript [Map] keeps its entries in insertion order; [set] on a key
    that is there replaces the value in place. *)

Definition Map (K V : Type) := list (K * V).

Fixpoint Map_set {V} (k : jsstring) (v : V) (m : Map jsstring V) : Map jsstring V :=
  match m with
  | [] => [(k, v)]
  | (k', v') :: m' =>
      if str_eqb k k' then (k, v) :: m' else (k', v') :: Map_set k v m'
  end.

(** [new Map(entries)] *)
Definition Map_new {V} (entries : list (jsstring * V)) : Map jsstring V :=
  fold_left (fun m e => Map_set (fst e) (snd e) m) entries [].

(** [Array.from(m.values())] *)
Definition Map_values {K V} (m : Map K V) : list V := map snd m.

Definition mergeRules (defaultRules userRules : list ReviewRule) : list ReviewRule :=
  let rulesMap := Map_new (map (fun rule => (rule_id rule, rule)) defaultRules) in
  let rulesMap := fold_left (fun m rule => Map_set (rule_id rule) rule m) userRules rulesMap in
  filter (fun rule => rule_enabled rule = true) (Map_values rulesMap).

(** The same resolution in the specification's words: a finite map keyed by
    rule id, seeded with the default rules, over which the user rules are
    applied; the resolved set is its enabled values. *)
Definition rules_by_id (rs : list ReviewRule) (seed : gmap jsstring ReviewRule)
    : gmap jsstring ReviewRule :=
  fold_left (fun m rule => <[rule_id rule := rule]> m) rs seed.

Definition resolved_rule (defaultRules userRules : list ReviewRule)
    (r : ReviewRule) : Prop :=
  rules_by_id userRules (rules_by_id defaultRules ∅) !! rule_id r = Some r
  ∧ rule_enabled r = true.

(** ** The platform

    What the code takes from the JavaScript runtime and cannot be read off
    the repository: the Unicode case tables outside ASCII, [JSON.parse],
    number printing and parsing, and [String.prototype.replace]. *)

Class Platform := {
  (** upper-case mapping of a code point above 127 *)
  unicode_upper : N -> jsstring;
  (** lower-case mapping of a code point above 127, given the code units
      before and after it (the final-sigma rule looks at both) *)
  unicode_lower : jsstring -> N -> jsstring -> jsstring;
  (** [JSON.parse(text)]; [None] when it throws a [SyntaxError] *)
  JSON_parse : jsstring -> option JSON;
  (** [String(v)] for a value that has a primitive form; the pipeline asks
      it for the digits of a number only (see [template]) *)
  ToString : value -> jsstring;
  (** [Number.parseInt(s, 10)] *)
  Number_parseInt : jsstring -> number;
  (** [Number.parseFloat(s)] *)
  Number_parseFloat : jsstring -> number;
  (** [s.replace(pattern, replacement)] with a string pattern *)
  String_replace : jsstring -> jsstring -> jsstring -> jsstring;
}.

Section Pipeline.
Context {platform : Platform}.

Definition is_high_surrogate (c : N) : bool := (55296 <=? c) && (c <=? 56319).
Definition is_low_surrogate (c : N) : bool := (56320 <=? c) && (c <=? 57343).

(** The code point a surrogate pair encodes. *)
Definition code_point (hi lo : N) : N :=
  65536 + (hi - 55296) * 1024 + (lo - 56320).

(** [s.toUpperCase()]: code point by code point, without context. *)
Fixpoint toUpperCase (s : jsstring) : jsstring :=
  match s with
  | [] => []
  | c :: rest =>
      if is_ascii_lower c then (c - 32) :: toUpperCase rest
      else if c <? 128 then c :: toUpperCase rest
      else
        match rest with
        | d :: rest' =>
            if is_high_surrogate c && is_low_surrogate d
            then unicode_upper (code_point c d) ++ toUpperCase rest'
            else unicode_upper c ++ toUpperCase rest
        | [] => unicode_upper c
        end
  end.

(** [s.toLowerCase()]: [before] is what has been consumed so far. *)
Fixpoint toLowerCase_from (before s : jsstring) : jsstring :=
  match s with
  | [] => []
  | c :: rest =>
      if is_ascii_upper c then (c + 32) :: toLowerCase_from (before ++ [c]) rest
      else if c <? 128 then c :: toLowerCase_from (before ++ [c]) rest
      else
        match rest with
        | d :: rest' =>
            if is_high_surrogate c && is_low_surrogate d
            then unicode_lower before (code_point c d) rest'
                 ++ toLowerCase_from (before ++ [c; d]) rest'
            else unicode_lower before c rest
                 ++ toLowerCase_from (before ++ [c]) rest
        | [] => unicode_lower before c []
        end
  end.

Definition toLowerCase (s : jsstring) : jsstring := toLowerCase_from [] s.

(** [String(n)] for a number. *)
Definition Number_toString (n : number) : jsstring := ToString (Some (JNumber n)).

(** ** Configuration resolver ([config/index.ts]) *)

(** [process.env.X || fallback] *)
Definition env_or (v : option jsstring) (fallback : jsstring) : jsstring :=
  match v with
  | Some s => if str_eqb s [] then fallback else s
  | None => fallback
  end.

Definition default_excludePatterns : list jsstring := [
  js "node_modules/**"; js "dist/**"; js "build/**"; js "*.min.js";
  js "*.bundle.js"; js "coverage/**"; js ".git/**"; js "*.log"
].

Definition DEFAULT_CONFIG (env : ProcessEnv) : ReviewConfig :=
  {| maxFiles := Some (Number_parseInt (env_or (MAX_FILES_PER_REVIEW env) (js "50")));
     maxBudgetUsd := Some (Number_parseFloat (env_or (MAX_BUDGET_USD env) (js "5.0")));
     model := Some (env_or (MODEL env) (js "claude-sonnet-4.5-20250929"));
     excludePatterns := Some default_excludePatterns;
     includePatterns := Some [js "**/*.ts"; js "**/*.js"; js "**/*.tsx"; js "**/*.jsx"];
     cwd := Some (process_cwd env);
     verbose := Some (bool_decide (LOG_LEVEL env = Some (js "debug")));
     rules := None;
     severityThreshold := Some info;
     prContext := None |}.

(** One field of [{ ...defaults, ...user }]. *)
Definition spread {A} (default : option A) (user : option (option A)) : option A :=
  match user with
  | Some v => v
  | None => default
  end.

Definition buildConfig (env : ProcessEnv) (userConfig : PartialConfig) : ReviewConfig :=
  let d := DEFAULT_CONFIG env in
  {| maxFiles := spread (maxFiles d) (user_maxFiles userConfig);
     maxBudgetUsd := spread (maxBudgetUsd d) (user_maxBudgetUsd userConfig);
     model := spread (model d) (user_model userConfig);
     excludePatterns :=
       match user_excludePatterns userConfig with
       | Some (Some patterns) => Some (default_excludePatterns ++ patterns)
       | other => spread (excludePatterns d) other
       end;
     includePatterns := spread (includePatterns d) (user_includePatterns userConfig);
     cwd := spread (cwd d) (user_cwd userConfig);
     verbose := spread (verbose d) (user_verbose userConfig);
     rules :=
       match user_rules userConfig with
       | Some (Some userRules) => Some (mergeRules DEFAULT_RULES userRules)
       | _ => Some getEnabledRules
       end;
     severityThreshold := spread (severityThreshold d) (user_severityThreshold userConfig);
     prContext := spread (prContext d) (user_prContext userConfig) |}.

(** [config.x && config.x <= 0] as a condition. *)
Definition set_and_le_zero (x : option number) : bool :=
  match x with
  | Some n => number_truthy n && number_le_zero n
  | None => false
  end.

Definition str_truthy (s : option jsstring) : bool :=
  match s with
  | Some t => negb (str_eqb t [])
  | None => false
  end.

Definition validateConfig (env : ProcessEnv) (config : ReviewConfig) : result unit :=
  if set_and_le_zero (maxFiles config) then
    throw (Error (js "maxFiles must be greater than 0"))
  else if set_and_le_zero (maxBudgetUsd config) then
    throw (Error (js "maxBudgetUsd must be greater than 0"))
  else if negb (str_truthy (ANTHROPIC_API_KEY env)) then
    throw (Error (js "ANTHROPIC_API_KEY environment variable is required"))
  else ret ().

(** ** The agent ([agents/code-reviewer.ts]) *)

Record CodeReviewAgent := {
  config : ReviewConfig;
  sessionId : option jsstring;
}.

(** [new CodeReviewAgent(config)] *)
Definition new_CodeReviewAgent (env : ProcessEnv) (userConfig : PartialConfig)
    : result CodeReviewAgent :=
  let c := buildConfig env userConfig in
  let* _ := validateConfig env c in
  ret {| config := c; sessionId := None |}.

(** ** Prompt assembler *)

Definition nl : jsstring := [10].

(** A literal of the source that holds double quotes, written with [~] in
    their place. *)
Definition jsq (s : string) : jsstring :=
  map (fun c => if c =? 126 then 34 else c) (js s).

(** [`${n}`] for [n : string | number] *)
Definition render_pr_number (n : jsstring + number) : jsstring :=
  match n with
  | inl s => s
  | inr k => Number_toString k
  end.

Definition pr_number_truthy (n : option (jsstring + number)) : bool :=
  match n with
  | Some (inl s) => negb (str_eqb s [])
  | Some (inr k) => number_truthy k
  | None => false
  end.

Definition text_of (s : option jsstring) : jsstring := default [] s.

(** The five labelled lines appended after the section heading. *)
Definition title_line (pr : PRContext) : jsstring :=
  if str_truthy (title pr) then js "**Title**: " ++ text_of (title pr) ++ nl else [].

Definition description_line (pr : PRContext) : jsstring :=
  if str_truthy (description pr)
  then js "**Description**: " ++ text_of (description pr) ++ nl else [].

Definition number_line (pr : PRContext) : jsstring :=
  if pr_number_truthy (number_ pr)
  then js "**PR #**: " ++ from_option render_pr_number [] (number_ pr) ++ nl else [].

Definition author_line (pr : PRContext) : jsstring :=
  if str_truthy (author pr) then js "**Author**: " ++ text_of (author pr) ++ nl else [].

Definition branch_line (pr : PRContext) : jsstring :=
  if str_truthy (branch pr) && str_truthy (baseBranch pr)
  then js "**Branch**: " ++ text_of (branch pr) ++ js " " ++ [8594] ++ js " "
       ++ text_of (baseBranch pr) ++ nl
  else [].

Definition render_diff (diff : FileDiff) : jsstring :=
  nl ++ js "### " ++ filename diff ++ js " (" ++ status diff ++ js ")" ++ nl
  ++ js "+" ++ Number_toString (additions diff) ++ js " -"
  ++ Number_toString (deletions diff) ++ js " lines" ++ nl
  ++ (if str_truthy (patch diff) then
        js "```diff" ++ nl
        ++ firstn 2000 (text_of (patch diff))
        ++ (if (2000 <? length (text_of (patch diff)))%nat
            then nl ++ js "... (diff truncated, use Read tool to see full file)"
            else [])
        ++ nl ++ js "```" ++ nl
      else []).

Definition changes_section (pr : PRContext) : jsstring :=
  match fileDiffs pr with
  | Some (d :: ds) =>
      let diffs := d :: ds in
      nl ++ js "**Changes Made** (" ++ Number_toString (of_nat (length diffs))
      ++ js " files):" ++ nl
      ++ flat_map render_diff (firstn 15 diffs)
      ++ (if (15 <? length diffs)%nat
          then nl ++ js "... and " ++ Number_toString (of_nat (length diffs - 15))
               ++ js " more files (use Glob/Read to explore)" ++ nl
          else [])
  | _ =>
      match changedFiles pr with
      | Some files => nl ++ js "**Changed Files**: " ++ join (js ", ") files ++ nl
      | None => []
      end
  end.

Definition task_instructions : jsstring :=
  nl ++ js "**Your Task**: Review the diffs above. Understand what this PR is trying to achieve, verify it works correctly, and check for:" ++ nl
  ++ js "- Security vulnerabilities in the changed lines" ++ nl
  ++ js "- Bugs or logic errors in the modifications" ++ nl
  ++ js "- Impact on files that import/use the changed code" ++ nl
  ++ js "- Missing tests for the new/changed functionality" ++ nl
  ++ js "- Edge cases not handled by the changes" ++ nl ++ nl.

(** The pull-request part of [buildPrompt]: nothing without a context. *)
Definition pr_context_section (prContext : option PRContext) : jsstring :=
  match prContext with
  | Some pr =>
      nl ++ nl ++ js "## Pull Request Context" ++ nl
      ++ title_line pr ++ description_line pr ++ number_line pr
      ++ author_line pr ++ branch_line pr
      ++ changes_section pr
      ++ task_instructions
  | None => []
  end.

Definition render_rule (r : ReviewRule) : jsstring :=
  js "- [" ++ toUpperCase (severity_name (rule_severity r)) ++ js "] "
  ++ rule_name r ++ js ": " ++ rule_description r.

(** [config.maxFiles || fallback] *)
Definition number_or (x : option number) (fallback : number) : number :=
  match x with
  | Some n => if number_truthy n then n else fallback
  | None => fallback
  end.

Definition review_task (c : ReviewConfig) (target : jsstring) : jsstring :=
  let enabledRules := filter (fun r => rule_enabled r = true) (default [] (rules c)) in
  nl ++ js "## Review Task

Perform a comprehensive code review of: " ++ target
  ++ js "

Focus on:
1. Security vulnerabilities (SQL injection, XSS, SSRF, authorization bypasses, hardcoded secrets)
2. Potential bugs (null references, type errors, logic errors, race conditions)
3. Performance issues (inefficient loops, memory leaks, N+1 queries)
4. Missing error handling and edge cases
5. Code quality and best practices

"
  ++ (if (0 <? length enabledRules)%nat
      then nl ++ js "Apply these rules:" ++ nl ++ join nl (map render_rule enabledRules)
      else [])
  ++ js "

"
  ++ match prContext c with
     | Some pr =>
         match changedFiles pr with
         | Some files =>
             nl ++ js "**Priority**: Focus on changed files: " ++ join (js ", ") files
             ++ js ", but also analyze their impact on the project."
         | None => []
         end
     | None => []
     end
  ++ js "

Use Glob and Read tools to explore the codebase. Review up to "
  ++ Number_toString (number_or (maxFiles c) (of_nat 30))
  ++ jsq " files.

Provide findings in JSON format:
```json
{
  ~prIntent~: ~What this PR aims to achieve (if applicable)~,
  ~summary~: ~Overall assessment~,
  ~impactAnalysis~: {
    ~breakingChanges~: [],
    ~affectedFiles~: [],
    ~integrationImpact~: ~description~,
    ~performanceImpact~: ~description~,
    ~securityImpact~: ~description~
  },
  ~issues~: [
    {
      ~severity~: ~HIGH|MEDIUM|LOW|INFO~,
      ~category~: ~Security|Performance|Bug|Code Quality~,
      ~file~: ~path/to/file.ts~,
      ~line~: 42,
      ~description~: ~Issue description~,
      ~recommendation~: ~How to fix~
    }
  ],
  ~edgeCases~: [{~scenario~: ~edge case~, ~handled~: false, ~recommendation~: ~fix~}],
  ~missingTests~: [~test scenarios needed~],
  ~missingDocumentation~: [~docs to add~],
  ~positives~: [~good practices found~],
  ~recommendations~: [~prioritized improvements~],
  ~filesReviewed~: [~files~, ~reviewed~]
}
```

Begin the review now.".

Definition buildPrompt (c : ReviewConfig) (target : jsstring) : jsstring :=
  js "You are an expert code reviewer. "
  ++ pr_context_section (prContext c)
  ++ review_task c target.

Definition buildOptions (c : ReviewConfig) : Options :=
  {| allowedTools := [js "Read"; js "Glob"; js "Grep"];
     permissionMode := js "bypassPermissions";
     allowDangerouslySkipPermissions := true;
     opt_model := model c;
     opt_maxBudgetUsd := maxBudgetUsd c;
     opt_cwd := cwd c |}.

(** ** Result normalizer: severity and category ([code-reviewer.ts]) *)

Definition mapSeverity (severity : jsstring) : IssueSeverity :=
  let s := toUpperCase severity in
  if str_eqb s (js "HIGH") || str_eqb s (js "CRITICAL") then critical
  else if str_eqb s (js "MEDIUM") || str_eqb s (js "ERROR") then error
  else if str_eqb s (js "LOW") || str_eqb s (js "WARNING") then warning
  else info.

Definition mapCategory (category : jsstring) : ReviewCategory :=
  if str_eqb category [] then best_practices
  else
    let cat := toLowerCase category in
    if includes cat (js "security") then security
    else if includes cat (js "performance") then performance
    else if includes cat (js "bug") then bugs
    else if includes cat (js "maintain") then maintainability
    else if includes cat (js "doc") then documentation
    else if includes cat (js "style") then style
    else best_practices.

(** [JSON.parse] reads an object's own properties; of the property names
    the normalizer reads none is on a prototype, so a read from anything
    but an object gives [undefined], and from [null] throws. *)
Definition get (j : JSON) (k : string) : result value :=
  match j with
  | JNull => throw TypeError
  | JObject o => ret (o !! js k)
  | _ => ret None
  end.

(** Calling a string method on a value cast to [string]. *)
Definition call_mapSeverity (v : JSON) : result IssueSeverity :=
  match v with
  | JString s => ret (mapSeverity s)
  | _ => throw TypeError
  end.

Definition call_mapCategory (v : JSON) : result ReviewCategory :=
  if negb (json_truthy v) then ret best_practices
  else
    match v with
    | JString s => ret (mapCategory s)
    | _ => throw TypeError
    end.

(** The callback of [(parsed.issues || []).map(...)]. *)
Definition normalizeIssue (issue : JSON) : result ReviewIssue :=
  let* rule := get issue "ruleId" in
  let* sev := get issue "severity" in
  let* sev := call_mapSeverity (js_or_default sev (JString (js "INFO"))) in
  let* cat := get issue "category" in
  let* cat := call_mapCategory (js_or_default cat (JString [])) in
  let* file := get issue "file" in
  let* file_path := get issue "filePath" in
  let* ln := get issue "line" in
  let* desc := get issue "description" in
  let* msg := get issue "message" in
  let* recommendation := get issue "recommendation" in
  let* sugg := get issue "suggestion" in
  let* imp := get issue "impact" in
  ret {| ruleId := js_or_default rule (JString (js "general"));
         severity := sev;
         category := cat;
         filePath := js_or_default (js_or file file_path) (JString (js "unknown"));
         line := ln;
         message := js_or desc msg;
         suggestion := js_or recommendation sugg;
         impact := imp |}.

(** [v.map(f)]: only an array has a [map] to call. *)
Definition array_map {B} (f : JSON -> result B) (v : JSON) : result (list B) :=
  match v with
  | JArray l => mapM f l
  | _ => throw TypeError
  end.

(** [resultText.match(/\{[\s\S]*\}/)]: from the first opening brace to the
    last closing brace after it. *)
Fixpoint from_first_open (s : jsstring) : option jsstring :=
  match s with
  | [] => None
  | c :: rest => if c =? 123 then Some s else from_first_open rest
  end.

Fixpoint upto_last_close (s : jsstring) : option jsstring :=
  match s with
  | [] => None
  | c :: rest =>
      match upto_last_close rest with
      | Some t => Some (c :: t)
      | None => if c =? 125 then Some [c] else None
      end
  end.

Definition match_json (resultText : jsstring) : option jsstring :=
  match from_first_open resultText with
  | Some tail => upto_last_close tail
  | None => None
  end.

Definition empty_results : ParsedResults :=
  {| parsed_summary := None; parsed_prIntent := None; parsed_impactAnalysis := None;
     parsed_issues := []; parsed_filesReviewed := JArray [];
     parsed_edgeCases := None; parsed_missingTests := None;
     parsed_missingDocumentation := None; parsed_positives := None;
     parsed_recommendations := None |}.

(** The [try] block of [parseResults]; [ret None] when it falls through
    the [if (jsonMatch)]. *)
Definition parseResults_try (resultText : jsstring) : result (option ParsedResults) :=
  match match_json resultText with
  | Some span =>
      let* parsed := from_option ret (throw SyntaxError) (JSON_parse span) in
      let* parsed_issues := get parsed "issues" in
      let* issues := array_map normalizeIssue (js_or_default parsed_issues (JArray [])) in
      let* summary := get parsed "summary" in
      let* prIntent := get parsed "prIntent" in
      let* impactAnalysis := get parsed "impactAnalysis" in
      let* filesReviewed := get parsed "filesReviewed" in
      let* edgeCases := get parsed "edgeCases" in
      let* missingTests := get parsed "missingTests" in
      let* missingDocumentation := get parsed "missingDocumentation" in
      let* positiveFindings := get parsed "positiveFindings" in
      let* positives := get parsed "positives" in
      let* recommendations := get parsed "recommendations" in
      ret (Some
        {| parsed_summary := summary;
           parsed_prIntent := prIntent;
           parsed_impactAnalysis := impactAnalysis;
           parsed_issues := issues;
           parsed_filesReviewed := js_or_default filesReviewed (JArray []);
           parsed_edgeCases := edgeCases;
           parsed_missingTests := missingTests;
           parsed_missingDocumentation := missingDocumentation;
           parsed_positives := js_or positiveFindings positives;
           parsed_recommendations := recommendations |})
  | None => ret None
  end.

(** [parseResults]: an exception of the [try] block is caught (and logged),
    and control reaches the final [return] of the empty results. *)
Definition parseResults (resultText : jsstring) : ParsedResults :=
  match parseResults_try resultText with
  | inr (Some results) => results
  | inr None => empty_results
  | inl _ => empty_results
  end.

(** ** Aggregator and status engine *)

Definition severityLevels : list IssueSeverity := [info; warning; error; critical].

(** [levels.indexOf(x)] *)
Fixpoint indexOf {A} `{EqDecision A} (l : list A) (x : A) : Z :=
  match l with
  | [] => (-1)%Z
  | y :: l' =>
      if decide (y = x) then 0%Z
      else let i := indexOf l' x in if (i <? 0)%Z then (-1)%Z else (i + 1)%Z
  end.

Definition filterIssuesBySeverity (c : ReviewConfig) (issues : list ReviewIssue)
    : list ReviewIssue :=
  match severityThreshold c with
  | None => issues
  | Some threshold =>
      let thresholdIndex := indexOf severityLevels threshold in
      filter (fun issue =>
                (thresholdIndex <=? indexOf severityLevels (severity issue))%Z = true)
             issues
  end.

(** [issues.some((i) => i.severity === s)] *)
Definition some_severity (s : IssueSeverity) (issues : list ReviewIssue) : bool :=
  existsb (fun i => bool_decide (severity i = s)) issues.

Definition determineStatus (issues : list ReviewIssue) : ReviewStatus :=
  let hasCritical := some_severity critical issues in
  let hasErrors := some_severity error issues in
  if hasCritical then failure
  else if hasErrors then partial
  else success.

(** [issues.filter((i) => i.severity === s).length] *)
Definition count_severity (s : IssueSeverity) (issues : list ReviewIssue) : nat :=
  length (filter (fun i => severity i = s) issues).

Definition countBySeverity (issues : list ReviewIssue) : IssueSeverity -> nat :=
  fun s => count_severity s issues.

(** The seven counters start at zero; the loop adds one to the counter of
    each issue's category. *)
Definition countByCategory (issues : list ReviewIssue) : ReviewCategory -> nat :=
  fold_left
    (fun counts issue =>
       fun c => if decide (c = category issue) then (counts c + 1)%nat else counts c)
    issues (fun _ => 0%nat).

(** [v.length] *)
Definition js_length (v : JSON) : result value :=
  match v with
  | JNull => throw TypeError
  | JArray l => ret (Some (JNumber (of_nat (length l))))
  | JString s => ret (Some (JNumber (of_nat (length s))))
  | JObject o => ret (o !! js "length")
  | _ => ret None
  end.

(** [`${v}`] for a value of the agent's answer.  A primitive value always
    has a string.  An array is joined from the strings of its elements,
    [null] giving the empty string.  An object made by [JSON.parse] is
    printed by [Object.prototype.toString], unless it has an own property
    [toString]: that is no function, [valueOf] gives no primitive either,
    and the conversion throws a [TypeError]. *)
Definition array_strings (element : JSON -> result jsstring)
    : list JSON -> result (list jsstring) :=
  fix go (l : list JSON) : result (list jsstring) :=
    match l with
    | [] => ret []
    | e :: rest =>
        let* s := match e with JNull => ret [] | _ => element e end in
        let* ss := go rest in
        ret (s :: ss)
    end.

Fixpoint json_string (j : JSON) : result jsstring :=
  match j with
  | JNull => ret (js "null")
  | JBool b => ret (if b then js "true" else js "false")
  | JNumber n => ret (Number_toString n)
  | JString s => ret s
  | JArray l =>
      let* parts := array_strings json_string l in
      ret (join (js ",") parts)
  | JObject o =>
      match o !! js "toString" with
      | Some _ => throw TypeError
      | None => ret (js "[object Object]")
      end
  end.

Definition template (v : value) : result jsstring :=
  match v with
  | Some j => json_string j
  | None => ret (js "undefined")
  end.

Definition buildSummary (issues : list ReviewIssue) (filesReviewed : JSON)
    (prIntent : value) : result jsstring :=
  let criticalCount := count_severity critical issues in
  let errorCount := count_severity error issues in
  let warningCount := count_severity warning issues in
  let* intent :=
    if truthy prIntent
    then let* text := template prIntent in ret (js "PR Intent: " ++ text ++ nl ++ nl)
    else ret [] in
  let* files := js_length filesReviewed in
  let* files_text := template files in
  ret (intent
       ++ js "Reviewed " ++ files_text ++ js " file(s). "
       ++ js "Found " ++ Number_toString (of_nat (length issues)) ++ js " issue(s): "
       ++ Number_toString (of_nat criticalCount) ++ js " critical, "
       ++ Number_toString (of_nat errorCount) ++ js " errors, "
       ++ Number_toString (of_nat warningCount) ++ js " warnings.").

(** ** Session consumer and [review] *)

Record Session := {
  seen_sessionId : option jsstring;
  resultText : jsstring;
  cost : number;
  duration : number;
}.

(** The body of the [for await] loop. *)
Definition consume (st : Session) (m : SDKMessage) : Session :=
  let st :=
    match msg_type m, msg_session_id m with
    | msg_system, Some sid =>
        {| seen_sessionId := Some sid; resultText := resultText st;
           cost := cost st; duration := duration st |}
    | _, _ => st
    end in
  match msg_type m with
  | msg_result =>
      {| seen_sessionId := seen_sessionId st;
         resultText := default (resultText st) (msg_result_text m);
         cost := default (cost st) (msg_total_cost_usd m);
         duration := default (duration st) (msg_duration_ms m) |}
  | _ => st
  end.

(** The whole loop over the messages of a stream. *)
Definition run_session (agent : CodeReviewAgent) (stream : Stream) : Session :=
  fold_left consume (messages stream)
    {| seen_sessionId := sessionId agent; resultText := [];
       cost := Finite 0; duration := Finite 0 |}.

(** A call to the agent SDK. *)
Inductive Event := QueryCall (prompt : jsstring) (options : Options).

(** [agent.review(target)]: the result or the exception thrown, the agent
    afterwards, and the calls made to the SDK.  The [catch] block logs and
    throws the exception again; what the logger prints is not modelled. *)
Definition review (query : jsstring -> Options -> Stream)
    (start_time end_time : jsstring)
    (agent : CodeReviewAgent) (target : jsstring)
    : result ReviewResult * CodeReviewAgent * list Event :=
  let c := config agent in
  let prompt := buildPrompt c target in
  let options := buildOptions c in
  let stream := query prompt options in
  let st := run_session agent stream in
  let agent := {| config := c; sessionId := seen_sessionId st |} in
  let outcome :=
    match stream_failure stream with
    | Some e => throw e
    | None =>
        let parsed := parseResults (resultText st) in
        let* summary := buildSummary (parsed_issues parsed) (parsed_filesReviewed parsed)
                          (parsed_prIntent parsed) in
        let* files := js_length (parsed_filesReviewed parsed) in
        ret {| res_status := determineStatus (parsed_issues parsed);
               res_summary := summary;
               res_prIntent := parsed_prIntent parsed;
               res_impactAnalysis := parsed_impactAnalysis parsed;
               res_issues := filterIssuesBySeverity c (parsed_issues parsed);
               res_edgeCases := parsed_edgeCases parsed;
               res_missingTests := parsed_missingTests parsed;
               res_missingDocumentation := parsed_missingDocumentation parsed;
               res_positives := parsed_positives parsed;
               res_recommendations := parsed_recommendations parsed;
               res_filesReviewed := parsed_filesReviewed parsed;
               res_filesSkipped := [];
               res_stats :=
                 {| totalFiles := files;
                    totalIssues := length (parsed_issues parsed);
                    issuesBySeverity := countBySeverity (parsed_issues parsed);
                    issuesByCategory := countByCategory (parsed_issues parsed);
                    totalCostUsd := cost st;
                    durationMs := duration st |};
               res_metadata :=
                 {| startTime := start_time;
                    endTime := end_time;
                    meta_model :=
                      if str_truthy (model c) then text_of (model c)
                      else js "claude-sonnet-4.5-20250929";
                    meta_sessionId :=
                      if str_truthy (seen_sessionId st) then text_of (seen_sessionId st)
                      else js "unknown";
                    meta_config := c |} |}
    end in
  (outcome, agent, [QueryCall prompt options]).

(** The [review] command of the command line: construct the agent, then
    review. *)
Definition cli_review (env : ProcessEnv) (query : jsstring -> Options -> Stream)
    (start_time end_time : jsstring) (userConfig : PartialConfig) (target : jsstring)
    : result ReviewResult * list Event :=
  match new_CodeReviewAgent env userConfig with
  | inl e => (inl e, [])
  | inr agent =>
      let '(outcome, _, events) := review query start_time end_time agent target in
      (outcome, events)
  end.

(** ** The template-based prompt ([utils/prompt-loader.ts]) *)

Definition describe_rule (rule : ReviewRule) : jsstring :=
  js "- **[" ++ toUpperCase (severity_name (rule_severity rule)) ++ js "] "
  ++ rule_name rule ++ js "** (" ++ rule_id rule ++ js ")" ++ nl
  ++ js "  Category: " ++ category_name (rule_category rule) ++ nl
  ++ js "  " ++ rule_description rule.

Definition pr_title_line (pr : PRContext) : jsstring :=
  if str_truthy (title pr) then js "**PR Title**: " ++ text_of (title pr) ++ nl else [].

Definition pr_number_line (pr : PRContext) : jsstring :=
  if pr_number_truthy (number_ pr)
  then js "**PR Number**: #" ++ from_option render_pr_number [] (number_ pr) ++ nl
  else [].

Definition pr_description_line (pr : PRContext) : jsstring :=
  if str_truthy (description pr)
  then js "**PR Description**:" ++ nl ++ text_of (description pr) ++ nl else [].

Definition pr_author_line (pr : PRContext) : jsstring :=
  if str_truthy (author pr) then js "**Author**: " ++ text_of (author pr) ++ nl else [].

(** The arrow of this file is the three code units below. *)
Definition pr_branch_line (pr : PRContext) : jsstring :=
  if str_truthy (branch pr)
  then js "**Branch**: " ++ text_of (branch pr) ++ js " " ++ [226; 8224; 8217] ++ js " "
       ++ (if str_truthy (baseBranch pr) then text_of (baseBranch pr) else js "main")
       ++ nl
  else [].

Definition pr_changed_files (pr : PRContext) : jsstring :=
  match changedFiles pr with
  | Some (f :: fs) =>
      js "**Changed Files**:" ++ nl
      ++ join nl (map (fun f => js "- " ++ f) (f :: fs)) ++ nl
  | _ => []
  end.

Definition prContextSection (prContext : option PRContext) : jsstring :=
  match prContext with
  | Some pr =>
      nl ++ js "## Pull Request Context" ++ nl ++ nl
      ++ pr_title_line pr ++ nl
      ++ pr_number_line pr ++ nl
      ++ pr_description_line pr ++ nl
      ++ pr_author_line pr ++ nl
      ++ pr_branch_line pr ++ nl
      ++ pr_changed_files pr ++ nl ++ nl
      ++ js "**Important**: Use this context to understand the developer's intent and ensure your review addresses what they're trying to accomplish. Verify that the changes achieve the stated goals and handle all edge cases related to the PR's purpose." ++ nl
  | None => []
  end.

(** [patterns?.join(', ') || fallback] *)
Definition patterns_or (patterns : option (list jsstring)) (fallback : jsstring) : jsstring :=
  match patterns with
  | Some l => if str_eqb (join (js ", ") l) [] then fallback else join (js ", ") l
  | None => fallback
  end.

(** [template] is what [fs.readFileSync] gives for [prompts/review-prompt.md]. *)
Definition loadReviewPrompt (template : result jsstring) (target : jsstring)
    (rules : list ReviewRule) (prContext : option PRContext)
    (includePatterns excludePatterns : option (list jsstring))
    (maxFiles : option number) : result jsstring :=
  let* promptTemplate := template in
  let rulesDescription :=
    join (nl ++ nl) (map describe_rule (filter (fun r => rule_enabled r = true) rules)) in
  let section := prContextSection prContext in
  let t := String_replace promptTemplate (js "{{REVIEW_RULES}}") rulesDescription in
  let t := String_replace t (js "{{TARGET}}") target in
  let t := String_replace t (js "{{INCLUDE_PATTERNS}}")
             (patterns_or includePatterns (js "All TypeScript/JavaScript files")) in
  let t := String_replace t (js "{{EXCLUDE_PATTERNS}}")
             (patterns_or excludePatterns (js "Standard exclusions (node_modules, dist, etc.)")) in
  let t := String_replace t (js "{{MAX_FILES}}")
             (Number_toString (number_or maxFiles (of_nat 50))) in
  ret (if str_eqb section [] then t else section ++ nl ++ t).

End Pipeline.

(** ** A sample platform

    An instance of [Platform] to run the pipeline on concrete inputs.  It
    knows no case pairs outside ASCII, reads and prints numbers exactly
    (no rounding to a double; a number that is not an integer is printed as
    a fraction), and its [replace] expands [$$], [$&], [$`] and [$'] in the
    replacement.  The properties below hold for every platform; this one
    only supplies examples. *)

Module SamplePlatform.


Definition is_digit (c : N) : bool := (48 <=? c) && (c <=? 57).
Definition is_ws (c : N) : bool := (c =? 32) || (c =? 9) || (c =? 10) || (c =? 13).

Fixpoint skip_ws (s : jsstring) : jsstring :=
  match s with
  | c :: rest => if is_ws c then skip_ws rest else s
  | [] => []
  end.

(** The leading digits of [s] and what follows them. *)
Fixpoint span_digits (s : jsstring) : jsstring * jsstring :=
  match s with
  | c :: rest =>
      if is_digit c then let '(ds, r) := span_digits rest in (c :: ds, r) else ([], s)
  | [] => ([], [])
  end.

Definition digits_value (ds : jsstring) : Z :=
  fold_left (fun acc d => (acc * 10 + Z.of_N (d - 48))%Z) ds 0%Z.

(** [m * 10^e] *)
Definition scale (m e : Z) : Q :=
  if (0 <=? e)%Z then inject_Z (m * 10 ^ e)
  else Qmake m (Z.to_pos (10 ^ (- e))).

Definition signed (negative : bool) (m : Z) : Z := if negative then (- m)%Z else m.

(** An optional exponent part [e], [e+] or [e-] with digits. *)
Definition exponent (s : jsstring) : option (Z * jsstring) :=
  match s with
  | c :: rest =>
      if (c =? 101) || (c =? 69) then
        let '(negative, rest) :=
          match rest with
          | 45 :: r => (true, r)
          | 43 :: r => (false, r)
          | _ => (false, rest)
          end in
        match span_digits rest with
        | ([], _) => None
        | (ds, r) => Some (signed negative (digits_value ds), r)
        end
      else Some (0%Z, s)
  | [] => Some (0%Z, s)
  end.

(** A JSON number: [-? int frac? exp?], no leading zero before a digit. *)
Definition parse_number (s : jsstring) : option (JSON * jsstring) :=
  let '(negative, s) := match s with 45 :: r => (true, r) | _ => (false, s) end in
  match span_digits s with
  | ([], _) => None
  | (48 :: _ :: _, _) => None
  | (int, rest) =>
      let frac :=
        match rest with
        | 46 :: r =>
            match span_digits r with
            | ([], _) => None
            | (fs, r') => Some (fs, r')
            end
        | _ => Some ([], rest)
        end in
      match frac with
      | Some (fs, rest) =>
          match exponent rest with
          | Some (e, rest) =>
              let m := signed negative (digits_value (int ++ fs)) in
              Some (JNumber (Finite (Qred (scale m (e - Z.of_nat (length fs))))), rest)
          | None => None
          end
      | None => None
      end
  end.

Definition hex_value (c : N) : option N :=
  if is_digit c then Some (c - 48)
  else if (97 <=? c) && (c <=? 102) then Some (c - 87)
  else if (65 <=? c) && (c <=? 70) then Some (c - 55)
  else None.

Definition hex4 (a b c d : N) : option N :=
  match hex_value a, hex_value b, hex_value c, hex_value d with
  | Some a, Some b, Some c, Some d => Some (((a * 16 + b) * 16 + c) * 16 + d)
  | _, _, _, _ => None
  end.

Definition escape (c : N) : option N :=
  if c =? 34 then Some 34 else if c =? 92 then Some 92 else if c =? 47 then Some 47
  else if c =? 98 then Some 8 else if c =? 102 then Some 12 else if c =? 110 then Some 10
  else if c =? 114 then Some 13 else if c =? 116 then Some 9 else None.

(** The rest of a string literal after its opening quote. *)
Fixpoint parse_string (s : jsstring) : option (jsstring * jsstring) :=
  match s with
  | [] => None
  | c :: rest =>
      if c =? 34 then Some ([], rest)
      else if c =? 92 then
        match rest with
        | e :: rest' =>
            if e =? 117 then
              match rest' with
              | h1 :: h2 :: h3 :: h4 :: rest'' =>
                  match hex4 h1 h2 h3 h4, parse_string rest'' with
                  | Some u, Some (t, r) => Some (u :: t, r)
                  | _, _ => None
                  end
              | _ => None
              end
            else
              match escape e, parse_string rest' with
              | Some u, Some (t, r) => Some (u :: t, r)
              | _, _ => None
              end
        | [] => None
        end
      else if c <? 32 then None
      else
        match parse_string rest with
        | Some (t, r) => Some (c :: t, r)
        | None => None
        end
  end.

Fixpoint parse_value (fuel : nat) (s : jsstring) : option (JSON * jsstring) :=
  match fuel with
  | O => None
  | S fuel =>
      match skip_ws s with
      | [] => None
      | c :: rest =>
          if starts_with (js "null") (c :: rest) then Some (JNull, drop 4 (c :: rest))
          else if starts_with (js "true") (c :: rest) then Some (JBool true, drop 4 (c :: rest))
          else if starts_with (js "false") (c :: rest) then Some (JBool false, drop 5 (c :: rest))
          else if c =? 34 then
            match parse_string rest with
            | Some (t, r) => Some (JString t, r)
            | None => None
            end
          else if c =? 91 then
            match skip_ws rest with
            | 93 :: r => Some (JArray [], r)
            | _ =>
                match parse_elements fuel rest with
                | Some (vs, r) => Some (JArray vs, r)
                | None => None
                end
            end
          else if c =? 123 then
            match skip_ws rest with
            | 125 :: r => Some (JObject ∅, r)
            | _ =>
                match parse_members fuel rest ∅ with
                | Some (o, r) => Some (JObject o, r)
                | None => None
                end
            end
          else parse_number (c :: rest)
      end
  end
with parse_elements (fuel : nat) (s : jsstring) : option (list JSON * jsstring) :=
  match fuel with
  | O => None
  | S fuel =>
      match parse_value fuel s with
      | Some (v, rest) =>
          match skip_ws rest with
          | 44 :: r =>
              match parse_elements fuel r with
              | Some (vs, r') => Some (v :: vs, r')
              | None => None
              end
          | 93 :: r => Some ([v], r)
          | _ => None
          end
      | None => None
      end
  end
with parse_members (fuel : nat) (s : jsstring) (o : gmap jsstring JSON)
    : option (gmap jsstring JSON * jsstring) :=
  match fuel with
  | O => None
  | S fuel =>
      match skip_ws s with
      | 34 :: rest =>
          match parse_string rest with
          | Some (k, rest) =>
              match skip_ws rest with
              | 58 :: rest =>
                  match parse_value fuel rest with
                  | Some (v, rest) =>
                      match skip_ws rest with
                      | 44 :: r => parse_members fuel r (<[k := v]> o)
                      | 125 :: r => Some (<[k := v]> o, r)
                      | _ => None
                      end
                  | None => None
                  end
              | _ => None
              end
          | None => None
          end
      | _ => None
      end
  end.

Definition JSON_parse (text : jsstring) : option JSON :=
  match parse_value (2 * length text + 2) text with
  | Some (v, rest) =>
      match skip_ws rest with
      | [] => Some v
      | _ => None
      end
  | None => None
  end.


(** A code point as code units. *)
Definition encode (c : N) : jsstring :=
  if c <? 65536 then [c]
  else [55296 + (c - 65536) / 1024; 56320 + (c - 65536) mod 1024].

Definition decimal (z : Z) : jsstring :=
  js (DecimalString.NilZero.string_of_int (Z.to_int z)).

Definition number_to_string (n : number) : jsstring :=
  match n with
  | NaN => js "NaN"
  | Infinity negative => if negative then js "-Infinity" else js "Infinity"
  | Finite q =>
      let r := Qred q in
      if (Zpos (Qden r) =? 1)%Z then decimal (Qnum r)
      else decimal (Qnum r) ++ js "/" ++ decimal (Zpos (Qden r))
  end.

Fixpoint json_to_string (j : JSON) : jsstring :=
  match j with
  | JNull => js "null"
  | JBool b => if b then js "true" else js "false"
  | JNumber n => number_to_string n
  | JString s => s
  | JArray l =>
      join (js ",")
        (map (fun e => match e with JNull => [] | _ => json_to_string e end) l)
  | JObject _ => js "[object Object]"
  end.

Definition ToString (v : value) : jsstring :=
  match v with
  | Some j => json_to_string j
  | None => js "undefined"
  end.

Definition split_sign (s : jsstring) : bool * jsstring :=
  match s with
  | 45 :: r => (true, r)
  | 43 :: r => (false, r)
  | _ => (false, s)
  end.

Definition parseInt (s : jsstring) : number :=
  let '(negative, s) := split_sign (skip_ws s) in
  match span_digits s with
  | ([], _) => NaN
  | (ds, _) => Finite (inject_Z (signed negative (digits_value ds)))
  end.

Definition parseFloat (s : jsstring) : number :=
  let '(negative, s) := split_sign (skip_ws s) in
  if starts_with (js "Infinity") s then Infinity negative
  else
    let '(int, rest) := span_digits s in
    let '(fs, rest) :=
      match rest with
      | 46 :: r => span_digits r
      | _ => ([], rest)
      end in
    match int ++ fs with
    | [] => NaN
    | ds =>
        let e := match exponent rest with Some (e, _) => e | None => 0%Z end in
        Finite (Qred (scale (signed negative (digits_value ds)) (e - Z.of_nat (length fs))))
    end.

(** The replacement text for a match [m] between [before] and [after]. *)
Fixpoint expand (replacement before m after : jsstring) : jsstring :=
  match replacement with
  | 36 :: rest =>
      match rest with
      | 36 :: rest' => 36 :: expand rest' before m after
      | 38 :: rest' => m ++ expand rest' before m after
      | 96 :: rest' => before ++ expand rest' before m after
      | 39 :: rest' => after ++ expand rest' before m after
      | _ => 36 :: expand rest before m after
      end
  | c :: rest => c :: expand rest before m after
  | [] => []
  end.

Fixpoint replace_from (before s pattern replacement : jsstring) : jsstring :=
  if starts_with pattern s then
    before ++ expand replacement before pattern (drop (length pattern) s)
    ++ drop (length pattern) s
  else
    match s with
    | c :: rest => replace_from (before ++ [c]) rest pattern replacement
    | [] => before
    end.

Definition replace (s pattern replacement : jsstring) : jsstring :=
  replace_from [] s pattern replacement.

End SamplePlatform.

Definition sample_platform : Platform :=
  {| unicode_upper := SamplePlatform.encode;
     unicode_lower := fun _ c _ => SamplePlatform.encode c;
     JSON_parse := SamplePlatform.JSON_parse;
     ToString := SamplePlatform.ToString;
     Number_parseInt := SamplePlatform.parseInt;
     Number_parseFloat := SamplePlatform.parseFloat;
     String_replace := SamplePlatform.replace |}.

(** The process environment of the examples: only the API key is set. *)
Definition sample_env : ProcessEnv :=
  {| MAX_FILES_PER_REVIEW := None; MAX_BUDGET_USD := None; MODEL := None;
     LOG_LEVEL := None; ANTHROPIC_API_KEY := Some (js "sk-test");
     process_cwd := js "/repo" |}.

(** ** Notions the properties are stated with *)

(** The six words [mapSeverity] knows. *)
Definition severity_words : list jsstring :=
  [js "HIGH"; js "CRITICAL"; js "MEDIUM"; js "ERROR"; js "LOW"; js "WARNING"].

(** [r0] is a user rule and no user rule after it carries its id. *)
Definition last_user_rule (userRules : list ReviewRule) (r0 : ReviewRule) : Prop :=
  ∃ before after,
    userRules = before ++ r0 :: after
    ∧ ∀ r, r ∈ after → rule_id r ≠ rule_id r0.

(** Every entry of the rule map is filed under the id of its rule. *)
Definition keyed_by_id (m : Map jsstring ReviewRule) : Prop :=
  Forall (fun e => e.1 = rule_id e.2) m.

(** The loop [for (const rule of rs) m.set(rule.id, rule)]. *)
Definition set_rules (rs : list ReviewRule) (m : Map jsstring ReviewRule) :=
  fold_left (fun m rule => Map_set (rule_id rule) rule m) rs m.

(** The text the normalizer receives in [agent.review(target)]. *)
Definition reviewed_text `{Platform} (query : jsstring -> Options -> Stream)
    (agent : CodeReviewAgent) (target : jsstring) : jsstring :=
  resultText (run_session agent
    (query (buildPrompt (config agent) target) (buildOptions (config agent)))).

(** The configuration [c] with another severity threshold. *)
Definition with_threshold (t : option IssueSeverity) (c : ReviewConfig) : ReviewConfig :=
  {| maxFiles := maxFiles c; maxBudgetUsd := maxBudgetUsd c; model := model c;
     excludePatterns := excludePatterns c; includePatterns := includePatterns c;
     cwd := cwd c; verbose := verbose c; rules := rules c;
     severityThreshold := t; prContext := prContext c |}.

(** A pull-request context with one more field set. *)
Definition with_title (d : jsstring) (pr : PRContext) : PRContext :=
  {| title := Some d; description := description pr; number_ := number_ pr;
     branch := branch pr; author := author pr; changedFiles := changedFiles pr;
     baseBranch := baseBranch pr; fileDiffs := fileDiffs pr |}.

Definition with_description (d : jsstring) (pr : PRContext) : PRContext :=
  {| title := title pr; description := Some d; number_ := number_ pr;
     branch := branch pr; author := author pr; changedFiles := changedFiles pr;
     baseBranch := baseBranch pr; fileDiffs := fileDiffs pr |}.

Definition with_number (n : jsstring + number) (pr : PRContext) : PRContext :=
  {| title := title pr; description := description pr; number_ := Some n;
     branch := branch pr; author := author pr; changedFiles := changedFiles pr;
     baseBranch := baseBranch pr; fileDiffs := fileDiffs pr |}.

Definition with_author (d : jsstring) (pr : PRContext) : PRContext :=
  {| title := title pr; description := description pr; number_ := number_ pr;
     branch := branch pr; author := Some d; changedFiles := changedFiles pr;
     baseBranch := baseBranch pr; fileDiffs := fileDiffs pr |}.

Definition with_branch (d : jsstring) (pr : PRContext) : PRContext :=
  {| title := title pr; description := description pr; number_ := number_ pr;
     branch := Some d; author := author pr; changedFiles := changedFiles pr;
     baseBranch := baseBranch pr; fileDiffs := fileDiffs pr |}.

Definition with_baseBranch (d : jsstring) (pr : PRContext) : PRContext :=
  {| title := title pr; description := description pr; number_ := number_ pr;
     branch := branch pr; author := author pr; changedFiles := changedFiles pr;
     baseBranch := Some d; fileDiffs := fileDiffs pr |}.

(** A renderer does not put a default in the place of an absent field when
    the rendering of a context that lacks the field differs from every
    rendering of the context with the field set: no value of the field is
    shown for the absent one.  For the two branch fields, which share a
    line, the other one is taken to be there. *)
Definition title_not_defaulted (render : PRContext -> jsstring) : Prop :=
  ∀ pr d, title pr = None → d ≠ [] → render (with_title d pr) ≠ render pr.

Definition description_not_defaulted (render : PRContext -> jsstring) : Prop :=
  ∀ pr d, description pr = None → d ≠ [] → render (with_description d pr) ≠ render pr.

Definition number_not_defaulted (render : PRContext -> jsstring) : Prop :=
  ∀ pr n, number_ pr = None → pr_number_truthy (Some n) = true →
          render (with_number n pr) ≠ render pr.

Definition author_not_defaulted (render : PRContext -> jsstring) : Prop :=
  ∀ pr d, author pr = None → d ≠ [] → render (with_author d pr) ≠ render pr.

Definition branch_not_defaulted (render : PRContext -> jsstring) : Prop :=
  ∀ pr d, branch pr = None → str_truthy (baseBranch pr) = true → d ≠ [] →
          render (with_branch d pr) ≠ render pr.

Definition baseBranch_not_defaulted (render : PRContext -> jsstring) : Prop :=
  ∀ pr d, baseBranch pr = None → str_truthy (branch pr) = true → d ≠ [] →
          render (with_baseBranch d pr) ≠ render pr.

Definition absent_never_defaulted (render : PRContext -> jsstring) : Prop :=
  title_not_defaulted render ∧ description_not_defaulted render
  ∧ number_not_defaulted render ∧ author_not_defaulted render
  ∧ branch_not_defaulted render ∧ baseBranch_not_defaulted render.

(** A context with a branch and nothing else. *)
Definition branch_only : PRContext :=
  {| title := None; description := None; number_ := None;
     branch := Some (js "feature"); author := None; changedFiles := None;
     baseBranch := None; fileDiffs := None |}.

(** The agent with another severity threshold. *)
Definition agent_with_threshold (t : option IssueSeverity) (agent : CodeReviewAgent)
    : CodeReviewAgent :=
  {| config := with_threshold t (config agent); sessionId := sessionId agent |}.

(** [{ maxFiles: n }] and [{ maxBudgetUsd: n }] *)
Definition only_maxFiles (n : number) : PartialConfig :=
  {| user_maxFiles := Some (Some n); user_maxBudgetUsd := None; user_model := None;
     user_excludePatterns := None; user_includePatterns := None;
     user_cwd := None; user_verbose := None; user_rules := None;
     user_severityThreshold := None; user_prContext := None |}.

Definition only_maxBudgetUsd (n : number) : PartialConfig :=
  {| user_maxFiles := None; user_maxBudgetUsd := Some (Some n); user_model := None;
     user_excludePatterns := None; user_includePatterns := None;
     user_cwd := None; user_verbose := None; user_rules := None;
     user_severityThreshold := None; user_prContext := None |}.

(** A field of a parsed issue that is absent or the empty string. *)
Definition absent_or_empty (o : gmap jsstring JSON) (k : string) : Prop :=
  o !! js k = None ∨ o !! js k = Some (JString []).

(** A field of a parsed issue that is absent or some string. *)
Definition absent_or_string (o : gmap jsstring JSON) (k : string) : Prop :=
  o !! js k = None ∨ ∃ s, o !! js k = Some (JString s).

(** The reading of the rule-merge scenario for every list of user rules:
    any disabled user rule whose id is a default rule's id keeps that id
    out of the resolved rules. *)
Definition disabled_user_rule_hides_id : Prop :=
  ∀ defaultRules userRules r0,
    r0 ∈ userRules → rule_id r0 ∈ map rule_id defaultRules → rule_enabled r0 = false →
    ∀ r, r ∈ mergeRules defaultRules userRules → rule_id r ≠ rule_id r0.

(** ** Sample inputs *)

Definition xss_rule (on : bool) : ReviewRule :=
  mk_rule "security-xss" "XSS Prevention"
    "Check for potential Cross-Site Scripting vulnerabilities" critical security on.

Definition sample_issue (s : IssueSeverity) : ReviewIssue :=
  {| ruleId := JString (js "general"); severity := s; category := best_practices;
     filePath := JString (js "a.ts"); line := None; message := Some (JString (js "x"));
     suggestion := None; impact := None |}.

Definition threshold_config (t : option IssueSeverity) : ReviewConfig :=
  {| maxFiles := None; maxBudgetUsd := None; model := None; excludePatterns := None;
     includePatterns := None; cwd := None; verbose := None; rules := Some [];
     severityThreshold := t; prContext := None |}.

Definition generated_excluded : PartialConfig :=
  {| user_maxFiles := None; user_maxBudgetUsd := None; user_model := None;
     user_excludePatterns := Some (Some [js "*.generated.ts"]);
     user_includePatterns := None; user_cwd := None; user_verbose := None;
     user_rules := None; user_severityThreshold := None; user_prContext := None |}.

(** The terminal text of scenario A and a stream that ends with it. *)
Definition scenario_text : jsstring :=
  jsq "Some prose {~issues~:[{~severity~:~HIGH~,~file~:~a.ts~,~description~:~x~}],~filesReviewed~:[~a.ts~]} trailing".

Definition scenario_query (_ : jsstring) (_ : Options) : Stream :=
  {| messages :=
       [ {| msg_type := msg_system; msg_session_id := Some (js "s-1");
            msg_result_text := None; msg_total_cost_usd := None;
            msg_duration_ms := None |};
         {| msg_type := msg_result; msg_session_id := None;
            msg_result_text := Some scenario_text;
            msg_total_cost_usd := Some (Finite (1 # 4));
            msg_duration_ms := Some (Finite 1200) |} ];
     stream_failure := None |}.

Definition sample_agent : CodeReviewAgent :=
  {| config := threshold_config (Some error); sessionId := None |}.

(** A parsed issue without a file. *)
Definition issue_without_file : gmap jsstring JSON :=
  <[js "severity" := JString (js "low")]> (<[js "description" := JString (js "x")]> ∅).

(** A value that has a string: no object with an own [toString] in it, at
    any depth of arrays. *)
Fixpoint printable (j : JSON) : bool :=
  match j with
  | JArray l => forallb printable l
  | JObject o => bool_decide (o !! js "toString" = None)
  | _ => true
  end.

Definition value_printable (v : value) : bool :=
  match v with
  | Some j => printable j
  | None => true
  end.

(** The two values that the summary prints have strings: the intent of
    the pull request when it is truthy, and the length of the reviewed
    files. *)
Definition summary_prints (parsed : ParsedResults) : Prop :=
  (truthy (parsed_prIntent parsed) = true →
     value_printable (parsed_prIntent parsed) = true)
  ∧ (∀ files, js_length (parsed_filesReviewed parsed) = inr files →
       value_printable files = true).

(** An answer whose intent is an object with a [toString] of its own, and a
    stream that ends with it. *)
Definition unprintable_text : jsstring :=
  jsq "{~prIntent~:{~toString~:1},~issues~:[]}".

Definition unprintable_query (_ : jsstring) (_ : Options) : Stream :=
  {| messages :=
       [ {| msg_type := msg_result; msg_session_id := None;
            msg_result_text := Some unprintable_text;
            msg_total_cost_usd := None; msg_duration_ms := None |} ];
     stream_failure := None |}.

(** The order [info < warning < error < critical]. *)
Definition severity_rank (s : IssueSeverity) : nat :=
  match s with
  | info => 0
  | warning => 1
  | error => 2
  | critical => 3
  end.

(** The rank below which issues are dropped; nothing is dropped without a
    threshold. *)
Definition threshold_rank (t : option IssueSeverity) : nat :=
  from_option severity_rank 0%nat t.


(** * More of the code

    The functions around the ones above: the rest of the configuration
    module and of the default rules, the logger, the glob translation of
    the file utilities and the entry point of the GitHub action. *)

(** ** [config/index.ts] and [config/default-rules.ts] *)

Definition getApiKey (env : ProcessEnv) : result jsstring :=
  match ANTHROPIC_API_KEY env with
  | Some apiKey =>
      if str_eqb apiKey []
      then throw (Error (js "ANTHROPIC_API_KEY environment variable is required"))
      else ret apiKey
  | None => throw (Error (js "ANTHROPIC_API_KEY environment variable is required"))
  end.

(** [DEFAULT_RULES.find((rule) => rule.id === id)] *)
Definition getRuleById (id : jsstring) : option ReviewRule :=
  find (fun rule => str_eqb (rule_id rule) id) DEFAULT_RULES.

(** ** [agents/code-reviewer.ts] *)

Definition getSessionId (agent : CodeReviewAgent) : option jsstring := sessionId agent.

(** ** The logger ([utils/logger.ts])

    The level of the default logger is [process.env.LOG_LEVEL || 'info'],
    cast to a level without a check, so it is any string. *)

Definition levels : list jsstring := [js "debug"; js "info"; js "warn"; js "error"].

Definition shouldLog (logLevel level : jsstring) : bool :=
  (indexOf levels logLevel <=? indexOf levels level)%Z.

Definition default_logLevel (env : ProcessEnv) : jsstring :=
  env_or (LOG_LEVEL env) (js "info").

(** ** The file utilities: the source of the regular expression of a glob

    The four [replace] calls with a global pattern, one after the other:
    each rewrites every match, left to right, without overlap. *)

Definition escape_dots (s : jsstring) : jsstring :=
  flat_map (fun c => if c =? 46 then [92; 46] else [c]) s.

Fixpoint replace_double_stars (s : jsstring) : jsstring :=
  match s with
  | c :: rest =>
      match rest with
      | d :: rest' =>
          if (c =? 42) && (d =? 42) then [46; 42] ++ replace_double_stars rest'
          else c :: replace_double_stars rest
      | [] => [c]
      end
  | [] => []
  end.

Definition replace_stars (s : jsstring) : jsstring :=
  flat_map (fun c => if c =? 42 then js "[^/]*" else [c]) s.

Definition replace_question_marks (s : jsstring) : jsstring :=
  flat_map (fun c => if c =? 63 then [46] else [c]) s.

(** The string given to [new RegExp] in [globToRegex]. *)
Definition globToRegex (pattern : jsstring) : jsstring :=
  js "^"
  ++ replace_question_marks (replace_stars (replace_double_stars (escape_dots pattern)))
  ++ js "$".

(** ** The Markdown report ([utils/formatter.ts])

    A template literal converts the value it holds to a string.  For a
    string or a number it cannot fail; for a value that comes unchecked from
    the answer of the agent the conversion is [show], which throws when the
    value has no primitive form.  [toFixed] is [Number.prototype.toFixed].
    The issues that [review] returns have no [snippet], so the lines of a
    snippet are never pushed. *)

Section Formatter.
Context {platform : Platform}.
Variable show : value -> result jsstring.
Variable toFixed : number -> nat -> jsstring.

Definition status_name (s : ReviewStatus) : jsstring :=
  match s with
  | success => js "success"
  | failure => js "failure"
  | partial => js "partial"
  end.

(** [n / d] for a positive [d] *)
Definition number_div (n : number) (d : Q) : number :=
  match n with
  | Finite q => Finite (q / d)
  | other => other
  end.

(** The lines pushed for one issue in the [forEach]. *)
Definition markdown_issue (index : nat) (issue : ReviewIssue) : result (list jsstring) :=
  let* rule := show (Some (ruleId issue)) in
  let* file := show (Some (filePath issue)) in
  let* line_lines :=
    if truthy (line issue)
    then let* l := show (line issue) in ret [js "- **Line**: " ++ l]
    else ret [] in
  let* msg := show (message issue) in
  let* suggestion_lines :=
    if truthy (suggestion issue)
    then let* s := show (suggestion issue) in ret [js "- **Suggestion**: " ++ s]
    else ret [] in
  ret ([js "### Issue #" ++ Number_toString (of_nat (index + 1));
        [];
        js "- **Rule**: " ++ rule;
        js "- **Severity**: " ++ toUpperCase (severity_name (severity issue));
        js "- **Category**: " ++ category_name (category issue);
        js "- **File**: `" ++ file ++ js "`"]
       ++ line_lines
       ++ [js "- **Message**: " ++ msg]
       ++ suggestion_lines
       ++ [[]]).

Fixpoint markdown_issues (index : nat) (issues : list ReviewIssue)
    : result (list jsstring) :=
  match issues with
  | [] => ret []
  | issue :: rest =>
      let* ls := markdown_issue index issue in
      let* more := markdown_issues (S index) rest in
      ret (ls ++ more)
  end.

(** The array [lines] at the end of [formatReviewResultAsMarkdown]. *)
Definition markdown_lines (r : ReviewResult) : result (list jsstring) :=
  let stats := res_stats r in
  let* files := show (totalFiles stats) in
  let summary_lines :=
    [js "# Code Review Results";
     [];
     js "## Summary";
     [];
     js "- **Status**: " ++ toUpperCase (status_name (res_status r));
     js "- **Summary**: " ++ res_summary r;
     js "- **Files Reviewed**: " ++ files;
     js "- **Total Issues**: " ++ Number_toString (of_nat (totalIssues stats));
     js "- **Duration**: " ++ toFixed (number_div (durationMs stats) 1000) 2 ++ js "s";
     js "- **Cost**: $" ++ toFixed (totalCostUsd stats) 4;
     []] in
  let severity_lines :=
    if (0 <? totalIssues stats)%nat
    then [js "## Issues by Severity";
          [];
          js "- Critical: " ++ Number_toString (of_nat (issuesBySeverity stats critical));
          js "- Errors: " ++ Number_toString (of_nat (issuesBySeverity stats error));
          js "- Warnings: " ++ Number_toString (of_nat (issuesBySeverity stats warning));
          js "- Info: " ++ Number_toString (of_nat (issuesBySeverity stats info));
          []]
    else [] in
  let* issue_lines :=
    match res_issues r with
    | [] => ret [js "No issues found!"; []]
    | issues =>
        let* ls := markdown_issues 0 issues in
        ret ([js "## Detailed Issues"; []] ++ ls)
    end in
  ret (summary_lines ++ severity_lines ++ issue_lines).

Definition formatReviewResultAsMarkdown (r : ReviewResult) : result jsstring :=
  let* lines := markdown_lines r in
  ret (join nl lines).

End Formatter.

(** ** The entry point of the action ([action-entry.ts]) *)

(** [core.getInput('fail-on') || 'critical'] *)
Definition failOn_of (input : jsstring) : jsstring :=
  if str_eqb input [] then js "critical" else input.

Definition shouldFail (failOn : jsstring) (result : ReviewResult) : bool :=
  (str_eqb failOn (js "critical")
   && (0 <? issuesBySeverity (res_stats result) critical)%nat)
  || (str_eqb failOn (js "error")
      && ((0 <? issuesBySeverity (res_stats result) critical)%nat
          || (0 <? issuesBySeverity (res_stats result) error)%nat))
  || (str_eqb failOn (js "warning") && (0 <? totalIssues (res_stats result))%nat).

(** What [run] does with a returned result: the Markdown report of
    [exportResults(result, 'markdown')], the comment on the pull request,
    the outputs, and the check.  [createComment] is the call to the GitHub
    API, which fails or not; [core.info] and [core.setOutput] only print. *)

(** The body of the comment. *)
Definition comment_body `{Platform} (toFixed : number -> nat -> jsstring)
    (markdown : jsstring) (r : ReviewResult) : jsstring :=
  js "## " ++ [55358; 56598] ++ js " AI Code Review Results" ++ nl ++ nl
  ++ markdown ++ nl ++ nl ++ js "---" ++ nl
  ++ js "*Powered by [Code Review Agent](https://github.com/Hussain-7/github-code-review-action) "
  ++ [8226] ++ js " Found "
  ++ Number_toString (of_nat (totalIssues (res_stats r)))
  ++ js " issue(s) " ++ [8226] ++ js " Cost: $"
  ++ toFixed (totalCostUsd (res_stats r)) 4%nat ++ js "*".

(** Whether [core.setFailed] is called: by the [catch] when the report or
    the comment throws, and by the last [if] otherwise. *)
Definition check_fails `{Platform} (show : value -> result jsstring)
    (toFixed : number -> nat -> jsstring) (createComment : jsstring -> result unit)
    (failOn : jsstring) (r : ReviewResult) : bool :=
  match formatReviewResultAsMarkdown show toFixed r with
  | inl _ => true
  | inr markdown =>
      match createComment (comment_body toFixed markdown r) with
      | inl _ => true
      | inr _ => shouldFail failOn r
      end
  end.

(** ** Notions the further properties are stated with *)

(** [category] holds the word [w] somewhere, each ASCII letter of it in
    either case. *)
Definition mentions (category w : jsstring) : Prop :=
  ∃ pre mask post, category = pre ++ recase mask w ++ post.

Definition is_ascii (s : jsstring) : Prop := Forall (fun c => c < 128) s.

(** What [toLowerCase] does to a code unit below 128. *)
Definition ascii_lower (c : N) : N := if is_ascii_upper c then c + 32 else c.

(** A word of lower-case ASCII letters. *)
Definition lower_word (w : jsstring) : Prop := Forall (fun c => is_ascii_lower c = true) w.

(** A bound that validation rejects: a number below zero. *)
Definition below_zero (x : option number) : Prop :=
  x = Some (Infinity true) ∨ ∃ q, x = Some (Finite q) ∧ (q < 0)%Q.

(** A value on which a string method cannot be called: truthy and no string. *)
Definition truthy_non_string (v : value) : Prop :=
  ∃ j, v = Some j ∧ json_truthy j = true ∧ ∀ s, j ≠ JString s.

(** What an array element without any of the fields is normalized to. *)
Definition default_issue : ReviewIssue :=
  {| ruleId := JString (js "general"); severity := info; category := best_practices;
     filePath := JString (js "unknown"); line := None; message := None;
     suggestion := None; impact := None |}.

(** A field of a result message, and the session id of a system message. *)
Definition of_result {A} (f : SDKMessage -> option A) (m : SDKMessage) : option A :=
  match msg_type m with
  | msg_result => f m
  | _ => None
  end.

Definition of_system {A} (f : SDKMessage -> option A) (m : SDKMessage) : option A :=
  match msg_type m with
  | msg_system => f m
  | _ => None
  end.

(** The last message of the stream that carries the field. *)
Definition last_of {A} (f : SDKMessage -> option A) (msgs : list SDKMessage) : option A :=
  last (omap f msgs).

(** What the last two replacements of [globToRegex] make of a code unit. *)
Definition glob_piece (c : N) : jsstring :=
  if c =? 42 then js "[^/]*" else if c =? 63 then [46] else [c].

(** A text without dots, stars and question marks. *)
Definition plain_text (s : jsstring) : Prop :=
  Forall (fun c => c ≠ 46 ∧ c ≠ 42 ∧ c ≠ 63) s.

(** The entry of the rule map that a rule is filed under. *)
Definition rule_entry (rule : ReviewRule) : jsstring * ReviewRule := (rule_id rule, rule).

(** The configuration [c] with another pull-request context, and a context
    with other file diffs. *)
Definition with_prContext (pr : option PRContext) (c : ReviewConfig) : ReviewConfig :=
  {| maxFiles := maxFiles c; maxBudgetUsd := maxBudgetUsd c; model := model c;
     excludePatterns := excludePatterns c; includePatterns := includePatterns c;
     cwd := cwd c; verbose := verbose c; rules := rules c;
     severityThreshold := severityThreshold c; prContext := pr |}.

Definition with_fileDiffs (ds : list FileDiff) (pr : PRContext) : PRContext :=
  {| title := title pr; description := description pr; number_ := number_ pr;
     branch := branch pr; author := author pr; changedFiles := changedFiles pr;
     baseBranch := baseBranch pr; fileDiffs := Some ds |}.

(** Two diffs that differ at most in what follows the first 2000 code
    units of a patch longer than that. *)
Definition same_up_to_cut (d d' : FileDiff) : Prop :=
  filename d = filename d' ∧ status d = status d'
  ∧ additions d = additions d' ∧ deletions d = deletions d'
  ∧ str_truthy (patch d) = str_truthy (patch d')
  ∧ firstn 2000 (text_of (patch d)) = firstn 2000 (text_of (patch d'))
  ∧ (2000 <? length (text_of (patch d)))%nat = (2000 <? length (text_of (patch d')))%nat.

(** ** Further sample inputs *)

(** A text whose second issue has a number for a severity. *)
Definition mixed_issues_text : jsstring :=
  jsq "{~issues~:[{~severity~:~HIGH~,~file~:~a.ts~},{~severity~:5}],~filesReviewed~:[~a.ts~]}".

Definition mixed_issues : list JSON :=
  [ JObject (<[js "severity" := JString (js "HIGH")]> (<[js "file" := JString (js "a.ts")]> ∅));
    JObject (<[js "severity" := JNumber (Finite 5)]> ∅) ].

Definition mixed_object : gmap jsstring JSON :=
  <[js "issues" := JArray mixed_issues]>
    (<[js "filesReviewed" := JArray [JString (js "a.ts")]]> ∅).

Definition system_message (sid : string) : SDKMessage :=
  {| msg_type := msg_system; msg_session_id := Some (js sid);
     msg_result_text := None; msg_total_cost_usd := None; msg_duration_ms := None |}.

(** A stream that ends without a result message, and one that fails. *)
Definition quiet_query (_ : jsstring) (_ : Options) : Stream :=
  {| messages := [system_message "s-2"]; stream_failure := None |}.

Definition failing_query (_ : jsstring) (_ : Options) : Stream :=
  {| messages := [system_message "s-3"];
     stream_failure := Some (Error (js "aborted")) |}.

Definition long_patch (tail : string) : FileDiff :=
  {| filename := js "a.ts"; status := js "modified"; additions := Finite 1;
     deletions := Finite 0; patch := Some (repeat 43 2000 ++ js tail) |}.

Definition diffs_context (ds : list FileDiff) : PRContext :=
  {| title := None; description := None; number_ := None; branch := None;
     author := None; changedFiles := None; baseBranch := None; fileDiffs := Some ds |}.

Definition cut_config (ds : list FileDiff) : ReviewConfig :=
  with_prContext (Some (diffs_context ds)) (threshold_config None).

(** An answer with one issue of severity [MEDIUM], a stream that ends with
    it, and an agent whose threshold is [critical]. *)
Definition medium_text : jsstring :=
  jsq "{~issues~:[{~severity~:~MEDIUM~,~file~:~a.ts~,~description~:~x~}],~filesReviewed~:[~a.ts~]}".

Definition medium_query (_ : jsstring) (_ : Options) : Stream :=
  {| messages :=
       [ {| msg_type := msg_result; msg_session_id := None;
            msg_result_text := Some medium_text;
            msg_total_cost_usd := Some (Finite (1 # 4));
            msg_duration_ms := Some (Finite 1200) |} ];
     stream_failure := None |}.

Definition critical_agent : CodeReviewAgent :=
  {| config := threshold_config (Some critical); sessionId := None |}.

(** A call to the GitHub API that succeeds. *)
Definition comment_posted (_ : jsstring) : result unit := ret ().

(** Conversions for the examples: the sample platform's [String], and a
    stand-in for [toFixed] that prints the number without rounding it. *)
Definition sample_show (v : value) : result jsstring := ret (SamplePlatform.ToString v).

Definition sample_toFixed (n : number) (_ : nat) : jsstring :=
  SamplePlatform.number_to_string n.

(** * Properties *)

Section Properties.
Context {platform : Platform}.

(** ** Severity mapping *)

Lemma str_eqb_eq (a b : jsstring) : str_eqb a b = true ↔ a = b.
Proof. unfold str_eqb. apply bool_decide_eq_true. Qed.

Lemma swap_ascii_case_high c : 128 <= c → swap_ascii_case c = c.
Proof.
  intros Hc. unfold swap_ascii_case, is_ascii_lower, is_ascii_upper.
  destruct (97 <=? c) eqn:E1, (c <=? 122) eqn:E2,
           (65 <=? c) eqn:E3, (c <=? 90) eqn:E4; simpl; try reflexivity;
    apply N.leb_le in E2 || apply N.leb_le in E4; lia.
Qed.

Lemma swap_ascii_case_low c : c < 128 → swap_ascii_case c < 128.
Proof.
  intros Hc. unfold swap_ascii_case, is_ascii_lower, is_ascii_upper.
  destruct (97 <=? c) eqn:E1, (c <=? 122) eqn:E2,
           (65 <=? c) eqn:E3, (c <=? 90) eqn:E4; simpl; try lia;
    apply N.leb_le in E4; lia.
Qed.

Lemma is_low_surrogate_swap d : is_low_surrogate (swap_ascii_case d) = is_low_surrogate d.
Proof.
  destruct (N.lt_ge_cases d 128) as [Hd|Hd].
  - pose proof (swap_ascii_case_low d Hd) as Hs.
    unfold is_low_surrogate.
    replace (56320 <=? swap_ascii_case d) with false by (symmetry; apply N.leb_gt; lia).
    replace (56320 <=? d) with false by (symmetry; apply N.leb_gt; lia).
    reflexivity.
  - now rewrite swap_ascii_case_high.
Qed.

(** One step of [toUpperCase] on an ASCII code unit. *)
Lemma toUpperCase_ascii c rest :
  c < 128 →
  toUpperCase (c :: rest) = (if is_ascii_lower c then c - 32 else c) :: toUpperCase rest.
Proof.
  intros Hc. simpl. destruct (is_ascii_lower c); [reflexivity|].
  apply N.ltb_lt in Hc. now rewrite Hc.
Qed.

Lemma upper_of_swap c :
  c < 128 →
  (if is_ascii_lower (swap_ascii_case c) then swap_ascii_case c - 32 else swap_ascii_case c)
  = (if is_ascii_lower c then c - 32 else c).
Proof.
  intros Hc. unfold swap_ascii_case, is_ascii_lower, is_ascii_upper.
  destruct (97 <=? c) eqn:E1, (c <=? 122) eqn:E2; simpl.
  - apply N.leb_le in E1, E2.
    replace (97 <=? c - 32) with false by (symmetry; apply N.leb_gt; lia).
    reflexivity.
  - apply N.leb_le in E1. apply N.leb_gt in E2.
    replace (65 <=? c) with true by (symmetry; apply N.leb_le; lia).
    replace (c <=? 90) with false by (symmetry; apply N.leb_gt; lia).
    simpl. now rewrite (proj2 (N.leb_le 97 c) E1), (proj2 (N.leb_gt c 122) E2).
  - apply N.leb_gt in E1.
    destruct (65 <=? c) eqn:E3, (c <=? 90) eqn:E4; simpl;
      rewrite ?(proj2 (N.leb_gt 97 c) E1); simpl; try reflexivity.
    apply N.leb_le in E3, E4.
    replace (97 <=? c + 32) with true by (symmetry; apply N.leb_le; lia).
    replace (c + 32 <=? 122) with true by (symmetry; apply N.leb_le; lia).
    simpl. lia.
  - apply N.leb_gt in E1, E2. lia.
Qed.

(** [toUpperCase] does not see the case of ASCII letters. *)
Lemma toUpperCase_recase mask s : toUpperCase (recase mask s) = toUpperCase s.
Proof.
  remember (length s) as n eqn:Hn. revert mask s Hn.
  induction n as [n IH] using lt_wf_ind. intros mask s Hn.
  destruct s as [|c rest]; [now destruct mask|].
  destruct mask as [|b mask]; [reflexivity|].
  simpl recase.
  assert (Hrest : toUpperCase (recase mask rest) = toUpperCase rest)
    by (apply (IH (length rest)); [subst n; simpl; lia | reflexivity]).
  destruct (N.lt_ge_cases c 128) as [Hc|Hc].
  - assert (Hb : (if b then swap_ascii_case c else c) < 128)
      by (destruct b; [now apply swap_ascii_case_low | exact Hc]).
    rewrite !toUpperCase_ascii by assumption. rewrite Hrest.
    destruct b; [now rewrite upper_of_swap | reflexivity].
  - replace (if b then swap_ascii_case c else c) with c
      by (destruct b; [now rewrite swap_ascii_case_high | reflexivity]).
    assert (Hl : is_ascii_lower c = false).
    { unfold is_ascii_lower. apply andb_false_iff. right. apply N.leb_gt. lia. }
    assert (Hh : (c <? 128) = false) by (apply N.ltb_ge; exact Hc).
    destruct rest as [|d rest'].
    + destruct mask; simpl; now rewrite Hl, Hh.
    + destruct mask as [|b' mask']; [reflexivity|].
      simpl recase in *. cbn [toUpperCase]. rewrite Hl, Hh.
      replace (is_low_surrogate (if b' then swap_ascii_case d else d))
        with (is_low_surrogate d)
        by (destruct b'; [now rewrite is_low_surrogate_swap | reflexivity]).
      destruct (is_high_surrogate c && is_low_surrogate d) eqn:Hpair.
      * apply andb_true_iff in Hpair as [_ Hd].
        apply andb_true_iff in Hd as [Hd _]. apply N.leb_le in Hd.
        replace (if b' then swap_ascii_case d else d) with d
          by (destruct b'; [rewrite swap_ascii_case_high; [reflexivity | lia]
                           | reflexivity]).
        f_equal. apply (IH (length rest')); [subst n; simpl; lia | reflexivity].
      * f_equal. exact Hrest.
Qed.

Lemma mapSeverity_upper s u :
  toUpperCase s = u →
  mapSeverity s =
    if str_eqb u (js "HIGH") || str_eqb u (js "CRITICAL") then critical
    else if str_eqb u (js "MEDIUM") || str_eqb u (js "ERROR") then error
    else if str_eqb u (js "LOW") || str_eqb u (js "WARNING") then warning
    else info.
Proof. intros <-. reflexivity. Qed.

Ltac split_str_eqb u w :=
  let E := fresh "E" in
  destruct (str_eqb u (js w)) eqn:E;
  [apply str_eqb_eq in E | apply (not_true_iff_false (str_eqb u (js w))) in E;
                           rewrite str_eqb_eq in E].

Ltac severity_cases u :=
  split_str_eqb u "HIGH"; split_str_eqb u "CRITICAL";
  split_str_eqb u "MEDIUM"; split_str_eqb u "ERROR";
  split_str_eqb u "LOW"; split_str_eqb u "WARNING"; simpl.

Ltac clash :=
  match goal with
  | H : ?u = js _, H' : ?u = js _ |- _ => rewrite H in H'; vm_compute in H'; discriminate H'
  end.

Lemma mapSeverity_cases s :
  let u := toUpperCase s in
  (mapSeverity s = critical ∧ (u = js "HIGH" ∨ u = js "CRITICAL"))
  ∨ (mapSeverity s = error ∧ (u = js "MEDIUM" ∨ u = js "ERROR"))
  ∨ (mapSeverity s = warning ∧ (u = js "LOW" ∨ u = js "WARNING"))
  ∨ (mapSeverity s = info ∧ u ∉ severity_words).
Proof.
  intros u. rewrite (mapSeverity_upper s u eq_refl). clearbody u.
  severity_cases u; try clash;
    try (left; split; [reflexivity | tauto]);
    try (right; left; split; [reflexivity | tauto]);
    try (right; right; left; split; [reflexivity | tauto]).
  right; right; right. split; [reflexivity|].
  unfold severity_words. rewrite !not_elem_of_cons. repeat split; try assumption.
  apply not_elem_of_nil.
Qed.

Ltac other_word Hu Hu' :=
  destruct Hu as [Hu|Hu], Hu' as [Hu'|Hu']; clash.

Ltac listed Hu Hu' :=
  apply Hu'; destruct Hu as [Hu|Hu]; rewrite Hu; vm_compute; set_solver.

Lemma mapSeverity_critical_iff s :
  mapSeverity s = critical ↔ toUpperCase s = js "HIGH" ∨ toUpperCase s = js "CRITICAL".
Proof.
  split.
  - intros H. destruct (mapSeverity_cases s) as [[_ Hu]|[[E _]|[[E _]|[E _]]]];
      [exact Hu | congruence ..].
  - intros Hu. destruct (mapSeverity_cases s) as [[E _]|[[_ Hu']|[[_ Hu']|[_ Hu']]]];
      [exact E | exfalso ..]; [other_word Hu Hu' | other_word Hu Hu' | listed Hu Hu'].
Qed.

Lemma mapSeverity_error_iff s :
  mapSeverity s = error ↔ toUpperCase s = js "MEDIUM" ∨ toUpperCase s = js "ERROR".
Proof.
  split.
  - intros H. destruct (mapSeverity_cases s) as [[E _]|[[_ Hu]|[[E _]|[E _]]]];
      [congruence | exact Hu | congruence ..].
  - intros Hu. destruct (mapSeverity_cases s) as [[_ Hu']|[[E _]|[[_ Hu']|[_ Hu']]]];
      [exfalso | exact E | exfalso ..];
      [other_word Hu Hu' | other_word Hu Hu' | listed Hu Hu'].
Qed.

Lemma mapSeverity_warning_iff s :
  mapSeverity s = warning ↔ toUpperCase s = js "LOW" ∨ toUpperCase s = js "WARNING".
Proof.
  split.
  - intros H. destruct (mapSeverity_cases s) as [[E _]|[[E _]|[[_ Hu]|[E _]]]];
      [congruence .. | exact Hu | congruence].
  - intros Hu. destruct (mapSeverity_cases s) as [[_ Hu']|[[_ Hu']|[[E _]|[_ Hu']]]];
      [exfalso .. | exact E | exfalso];
      [other_word Hu Hu' | other_word Hu Hu' | listed Hu Hu'].
Qed.

Lemma mapSeverity_info_iff s :
  mapSeverity s = info ↔ toUpperCase s ∉ severity_words.
Proof.
  split.
  - intros H. destruct (mapSeverity_cases s) as [[E _]|[[E _]|[[E _]|[_ Hu]]]];
      [congruence .. | exact Hu].
  - intros Hu. destruct (mapSeverity_cases s) as [[_ Hu']|[[_ Hu']|[[_ Hu']|[E _]]]];
      [exfalso .. | exact E];
      apply Hu; destruct Hu' as [Hu'|Hu']; rewrite Hu'; vm_compute; set_solver.
Qed.

(** C1: [mapSeverity] is a total function into the four levels; which level
    it returns is decided by the upper-cased input alone: [critical] exactly
    for HIGH and CRITICAL, [error] exactly for MEDIUM and ERROR, [warning]
    exactly for LOW and WARNING, and [info] for everything else, the empty
    string and the default [INFO] included; changing the case of letters of
    the input never changes the result, so every casing of the six words is
    mapped like the word itself. *)
Theorem mapSeverity_total_case_insensitive :
  (∀ s, mapSeverity s ∈ [critical; error; warning; info])
  ∧ (∀ s, mapSeverity s = critical ↔
          toUpperCase s = js "HIGH" ∨ toUpperCase s = js "CRITICAL")
  ∧ (∀ s, mapSeverity s = error ↔
          toUpperCase s = js "MEDIUM" ∨ toUpperCase s = js "ERROR")
  ∧ (∀ s, mapSeverity s = warning ↔
          toUpperCase s = js "LOW" ∨ toUpperCase s = js "WARNING")
  ∧ (∀ s, mapSeverity s = info ↔ toUpperCase s ∉ severity_words)
  ∧ (∀ mask s, mapSeverity (recase mask s) = mapSeverity s)
  ∧ (∀ mask,
       mapSeverity (recase mask (js "HIGH")) = critical
       ∧ mapSeverity (recase mask (js "CRITICAL")) = critical
       ∧ mapSeverity (recase mask (js "MEDIUM")) = error
       ∧ mapSeverity (recase mask (js "ERROR")) = error
       ∧ mapSeverity (recase mask (js "LOW")) = warning
       ∧ mapSeverity (recase mask (js "WARNING")) = warning)
  ∧ mapSeverity [] = info
  ∧ mapSeverity (js "INFO") = info.
Proof.
  assert (Hcase : ∀ mask s, mapSeverity (recase mask s) = mapSeverity s).
  { intros mask s. unfold mapSeverity. now rewrite toUpperCase_recase. }
  split; [intros s; destruct (mapSeverity s); set_solver|].
  split; [exact mapSeverity_critical_iff|].
  split; [exact mapSeverity_error_iff|].
  split; [exact mapSeverity_warning_iff|].
  split; [exact mapSeverity_info_iff|].
  split; [exact Hcase|].
  split; [intros mask; rewrite !Hcase; repeat split; reflexivity|].
  split; reflexivity.
Qed.


(** ** Status and threshold *)

Lemma some_severity_spec s issues :
  some_severity s issues = true ↔ ∃ i, i ∈ issues ∧ severity i = s.
Proof.
  unfold some_severity. rewrite existsb_exists. split.
  - intros (i & Hin & Hs). exists i. split; [now apply list_elem_of_In|].
    now apply bool_decide_eq_true in Hs.
  - intros (i & Hin & Hs). exists i. split; [now apply list_elem_of_In|].
    now apply bool_decide_eq_true.
Qed.

Lemma some_severity_none s issues :
  some_severity s issues = false ↔ ∀ i, i ∈ issues → severity i ≠ s.
Proof.
  rewrite <- not_true_iff_false, some_severity_spec. split.
  - intros Hn i Hin Hs. apply Hn. eauto.
  - intros Hall (i & Hin & Hs). exact (Hall i Hin Hs).
Qed.

(** C2: the status is [failure] exactly when some issue is critical,
    [partial] exactly when none is critical and some issue is an error, and
    [success] exactly when every issue is a warning or an info; a list of
    warnings and infos only, and the empty list, give [success]. *)
Theorem determineStatus_precedence (issues : list ReviewIssue) :
  (determineStatus issues = failure ↔ ∃ i, i ∈ issues ∧ severity i = critical)
  ∧ (determineStatus issues = partial ↔
       (∀ i, i ∈ issues → severity i ≠ critical)
       ∧ ∃ i, i ∈ issues ∧ severity i = error)
  ∧ (determineStatus issues = success ↔
       ∀ i, i ∈ issues → severity i = warning ∨ severity i = info)
  ∧ determineStatus [] = success.
Proof.
  assert (Hlow : (∀ i, i ∈ issues → severity i = warning ∨ severity i = info) ↔
                 (∀ i, i ∈ issues → severity i ≠ critical)
                 ∧ (∀ i, i ∈ issues → severity i ≠ error)).
  { split.
    - intros H. split; intros i Hin; destruct (H i Hin); congruence.
    - intros [Hc He] i Hin. specialize (Hc i Hin). specialize (He i Hin).
      destruct (severity i); tauto. }
  rewrite Hlow. rewrite <- !some_severity_none, <- !some_severity_spec.
  unfold determineStatus.
  destruct (some_severity critical issues), (some_severity error issues);
    repeat split; try discriminate; try tauto; intros [? ?]; discriminate.
Qed.

Lemma indexOf_severityLevels s :
  indexOf severityLevels s = Z.of_nat (severity_rank s).
Proof. destruct s; reflexivity. Qed.

Lemma filterIssuesBySeverity_rank c t issues :
  severityThreshold c = Some t →
  filterIssuesBySeverity c issues
  = filter (fun i => (severity_rank t <= severity_rank (severity i))%nat) issues.
Proof.
  intros Ht. unfold filterIssuesBySeverity. rewrite Ht.
  apply list_filter_iff. intros i. rewrite !indexOf_severityLevels.
  rewrite Z.leb_le. lia.
Qed.

Lemma filter_rank_length (issues : list ReviewIssue) (m n : nat) :
  (m <= n)%nat →
  (length (filter (fun i => (n <= severity_rank (severity i))%nat) issues)
   <= length (filter (fun i => (m <= severity_rank (severity i))%nat) issues))%nat.
Proof.
  intros Hmn. induction issues as [|i issues IH]; [reflexivity|].
  rewrite !filter_cons.
  destruct (decide (n <= severity_rank (severity i))%nat),
           (decide (m <= severity_rank (severity i))%nat); simpl; lia.
Qed.

Lemma filterIssuesBySeverity_as_rank c issues :
  filterIssuesBySeverity c issues
  = filter (fun i => (threshold_rank (severityThreshold c)
                      <= severity_rank (severity i))%nat) issues.
Proof.
  destruct (severityThreshold c) as [t|] eqn:Ht.
  - now apply filterIssuesBySeverity_rank.
  - unfold filterIssuesBySeverity. rewrite Ht. simpl.
    induction issues as [|i issues IH]; [reflexivity|].
    rewrite filter_cons. destruct (decide _); [now rewrite <- IH | lia].
Qed.

(** C3: with a threshold [t] configured, the filtered list is the issue
    list restricted to the issues whose severity ranks at least as high as
    [t] in [info < warning < error < critical], so an issue is retained if
    and only if it does; without a threshold the list is returned as it is;
    and a configuration with a higher threshold never retains more issues. *)
Theorem filterIssuesBySeverity_threshold (c : ReviewConfig) (issues : list ReviewIssue) :
  (∀ t, severityThreshold c = Some t →
     filterIssuesBySeverity c issues
     = filter (fun i => (severity_rank t <= severity_rank (severity i))%nat) issues
     ∧ ∀ i, i ∈ filterIssuesBySeverity c issues ↔
            i ∈ issues ∧ (severity_rank t <= severity_rank (severity i))%nat)
  ∧ (severityThreshold c = None → filterIssuesBySeverity c issues = issues)
  ∧ (∀ c', (threshold_rank (severityThreshold c)
            <= threshold_rank (severityThreshold c'))%nat →
       (length (filterIssuesBySeverity c' issues)
        <= length (filterIssuesBySeverity c issues))%nat).
Proof.
  split; [|split].
  - intros t Ht. rewrite (filterIssuesBySeverity_rank c t issues Ht).
    split; [reflexivity|]. intros i. rewrite list_elem_of_filter. tauto.
  - intros Ht. unfold filterIssuesBySeverity. now rewrite Ht.
  - intros c' Hle. rewrite !filterIssuesBySeverity_as_rank.
    now apply filter_rank_length.
Qed.


(** ** Configuration resolver *)

(** C5: when the user supplies a list of exclude patterns, the resolved
    list is the baseline followed by the user's list: each of the eight
    baseline exclusions is in it, and so is every pattern of the user. *)
Theorem buildConfig_excludePatterns_additive
    (env : ProcessEnv) (userConfig : PartialConfig) (patterns : list jsstring) :
  user_excludePatterns userConfig = Some (Some patterns) →
  ∃ merged,
    excludePatterns (buildConfig env userConfig) = Some merged
    ∧ merged = default_excludePatterns ++ patterns
    ∧ (∀ p, p ∈ [js "node_modules/**"; js "dist/**"; js "build/**"; js "*.min.js";
                 js "*.bundle.js"; js "coverage/**"; js ".git/**"; js "*.log"] →
            p ∈ merged)
    ∧ (∀ p, p ∈ patterns → p ∈ merged).
Proof.
  intros Hu. exists (default_excludePatterns ++ patterns).
  split; [|split; [reflexivity|split]].
  - unfold buildConfig. cbn [excludePatterns]. now rewrite Hu.
  - intros p Hp. apply elem_of_app. left. exact Hp.
  - intros p Hp. apply elem_of_app. now right.
Qed.

(** *** The [Map] of [mergeRules] against the finite map of the specification *)

Lemma list_to_map_Map_set {V} k (v : V) (m : Map jsstring V) :
  (list_to_map (Map_set k v m) : gmap jsstring V) = <[k := v]> (list_to_map m).
Proof.
  induction m as [|[k' v'] m IH]; [reflexivity|]. simpl.
  unfold str_eqb. case_bool_decide as Hk.
  - subst k'. simpl. now rewrite insert_insert_eq.
  - simpl. rewrite IH. apply insert_insert_ne. congruence.
Qed.

Lemma Map_set_keys {V} k (v : V) (m : Map jsstring V) k' :
  k' ∈ (Map_set k v m).*1 ↔ k' = k ∨ k' ∈ m.*1.
Proof.
  induction m as [|[k0 v0] m IH]; simpl.
  - rewrite list_elem_of_singleton, elem_of_nil. tauto.
  - unfold str_eqb. case_bool_decide as Hk; simpl.
    + subst k0. rewrite !elem_of_cons. tauto.
    + rewrite !elem_of_cons, IH. tauto.
Qed.

Lemma Map_set_NoDup {V} k (v : V) (m : Map jsstring V) :
  NoDup m.*1 → NoDup (Map_set k v m).*1.
Proof.
  induction m as [|[k0 v0] m IH]; simpl; intros Hnd.
  - apply NoDup_singleton.
  - apply NoDup_cons in Hnd as [Hk0 Hnd].
    unfold str_eqb. case_bool_decide as Hk; simpl.
    + subst k0. now apply NoDup_cons.
    + apply NoDup_cons. split; [|now apply IH].
      rewrite Map_set_keys. intros [->|Hin]; [congruence | contradiction].
Qed.

Lemma Map_set_keyed (r : ReviewRule) m :
  keyed_by_id m → keyed_by_id (Map_set (rule_id r) r m).
Proof.
  unfold keyed_by_id. induction m as [|[k0 v0] m IH]; simpl; intros Hm.
  - now constructor.
  - apply Forall_cons in Hm as [H0 Hm].
    unfold str_eqb. case_bool_decide; constructor; auto.
Qed.

Lemma Map_new_rules (rs : list ReviewRule) :
  Map_new (map (fun rule => (rule_id rule, rule)) rs) = set_rules rs [].
Proof.
  unfold Map_new, set_rules. generalize (@nil (jsstring * ReviewRule)).
  induction rs as [|r rs IH]; intros m; [reflexivity|]. simpl. apply IH.
Qed.

Lemma set_rules_spec rs m :
  NoDup m.*1 → keyed_by_id m →
  NoDup (set_rules rs m).*1
  ∧ keyed_by_id (set_rules rs m)
  ∧ (list_to_map (set_rules rs m) : gmap jsstring ReviewRule)
    = rules_by_id rs (list_to_map m).
Proof.
  revert m. induction rs as [|r rs IH]; intros m Hnd Hk; [now repeat split|].
  change (set_rules (r :: rs) m) with (set_rules rs (Map_set (rule_id r) r m)).
  destruct (IH (Map_set (rule_id r) r m)) as (H1 & H2 & H3);
    [now apply Map_set_NoDup | now apply Map_set_keyed|].
  repeat split; [exact H1 | exact H2|].
  rewrite H3, list_to_map_Map_set. reflexivity.
Qed.

Lemma rulesMap_spec d u :
  let m := set_rules u (set_rules d []) in
  NoDup m.*1 ∧ keyed_by_id m
  ∧ (list_to_map m : gmap jsstring ReviewRule) = rules_by_id u (rules_by_id d ∅).
Proof.
  destruct (set_rules_spec d []) as (H1 & H2 & H3);
    [apply NoDup_nil_2 | constructor|].
  destruct (set_rules_spec u (set_rules d []) H1 H2) as (H4 & H5 & H6).
  simpl. repeat split; [exact H4 | exact H5|]. now rewrite H6, H3.
Qed.

Lemma mergeRules_unfold d u :
  mergeRules d u
  = filter (fun rule => rule_enabled rule = true)
           (Map_values (set_rules u (set_rules d []))).
Proof. unfold mergeRules. now rewrite Map_new_rules. Qed.

Lemma mergeRules_resolved d u r : r ∈ mergeRules d u ↔ resolved_rule d u r.
Proof.
  rewrite mergeRules_unfold. destruct (rulesMap_spec d u) as (Hnd & Hk & Hm).
  unfold resolved_rule. rewrite <- Hm, list_elem_of_filter.
  unfold Map_values. rewrite list_elem_of_fmap. split.
  - intros [He ([k r'] & -> & Hin)]. split; [|exact He]. simpl.
    unfold keyed_by_id in Hk. rewrite Forall_forall in Hk.
    pose proof (Hk _ Hin) as Hkey. simpl in Hkey. subst k.
    now apply elem_of_list_to_map.
  - intros [Hl He]. split; [exact He|].
    exists (rule_id r, r). split; [reflexivity|].
    now apply elem_of_list_to_map.
Qed.

Lemma rules_by_id_last (u : list ReviewRule) r0 seed :
  last_user_rule u r0 → rules_by_id u seed !! rule_id r0 = Some r0.
Proof.
  intros (before & after & -> & Hafter). unfold rules_by_id.
  rewrite fold_left_app. simpl.
  generalize (fold_left (fun m rule => <[rule_id rule := rule]> m) before seed).
  intros m. assert (Hm : <[rule_id r0 := r0]> m !! rule_id r0 = Some r0)
    by apply lookup_insert_eq.
  revert Hm. generalize (<[rule_id r0 := r0]> m). clear m.
  induction after as [|r after IH]; intros m Hm; [exact Hm|].
  simpl. apply IH.
  - intros r' Hr'. apply Hafter. now right.
  - rewrite lookup_insert_ne; [exact Hm|]. apply Hafter. now left.
Qed.

Lemma keyed_by_id_keys m : keyed_by_id m → map rule_id (Map_values m) = m.*1.
Proof.
  unfold Map_values. induction 1 as [|[k r] m Hkr Hk IH]; [reflexivity|].
  simpl in *. now rewrite Hkr, IH.
Qed.

Lemma mergeRules_ids_NoDup d u : NoDup (map rule_id (mergeRules d u)).
Proof.
  rewrite mergeRules_unfold. destruct (rulesMap_spec d u) as (Hnd & Hk & _).
  simpl in Hnd, Hk. rewrite <- (keyed_by_id_keys _ Hk) in Hnd.
  refine (sublist_NoDup _ _ Hnd _).
  apply (fmap_sublist rule_id), sublist_filter.
Qed.

(** C6 (amended): the resolved rules are exactly the enabled values of the
    finite map that is seeded with the default rules by id and over which
    the user rules are applied by id, whole rule for whole rule; no two
    resolved rules share an id; a user rule with [enabled: false] that is
    the last user rule with its id leaves that id without a resolved rule;
    and [buildConfig] resolves the rules of a user who supplies a list this
    way, from [DEFAULT_RULES]. *)
Theorem mergeRules_by_id (defaultRules userRules : list ReviewRule) :
  (∀ r, r ∈ mergeRules defaultRules userRules ↔ resolved_rule defaultRules userRules r)
  ∧ NoDup (map rule_id (mergeRules defaultRules userRules))
  ∧ (∀ r0, last_user_rule userRules r0 → rule_enabled r0 = false →
       ∀ r, r ∈ mergeRules defaultRules userRules → rule_id r ≠ rule_id r0)
  ∧ (∀ env userConfig, user_rules userConfig = Some (Some userRules) →
       rules (buildConfig env userConfig) = Some (mergeRules DEFAULT_RULES userRules)).
Proof.
  split; [exact (mergeRules_resolved defaultRules userRules)|].
  split; [exact (mergeRules_ids_NoDup defaultRules userRules)|].
  split.
  - intros r0 Hlast Hoff r Hr Hid.
    apply mergeRules_resolved in Hr as [Hlook Hon].
    rewrite Hid, (rules_by_id_last userRules r0 _ Hlast) in Hlook.
    congruence.
  - intros env userConfig Hu. unfold buildConfig. cbn [rules]. now rewrite Hu.
Qed.


(** ** Result normalizer *)

Lemma from_first_open_spec s tail :
  from_first_open s = Some tail ↔
  ∃ pre rest, s = pre ++ (123 :: rest) ∧ (123 ∉ pre) ∧ tail = (123 :: rest).
Proof.
  revert tail. induction s as [|c s IH]; intros tail; simpl.
  - split; [discriminate|]. intros (pre & rest & H & _). now destruct pre.
  - destruct (N.eqb_spec c 123) as [->|Hc].
    + split.
      * intros [= <-]. exists [], s. repeat split. apply not_elem_of_nil.
      * intros (pre & rest & H & Hpre & ->). destruct pre as [|p pre].
        -- simpl in H. now rewrite H.
        -- simpl in H. injection H as <- _. exfalso. apply Hpre. now left.
    + rewrite IH. split.
      * intros (pre & rest & -> & Hpre & ->). exists (c :: pre), rest.
        repeat split. rewrite not_elem_of_cons. split; congruence.
      * intros (pre & rest & H & Hpre & ->). destruct pre as [|p pre].
        -- simpl in H. congruence.
        -- simpl in H. injection H as <- ->. exists pre, rest.
           repeat split. rewrite not_elem_of_cons in Hpre. tauto.
Qed.

Lemma from_first_open_none s : from_first_open s = None ↔ 123 ∉ s.
Proof.
  induction s as [|c s IH]; simpl.
  - split; [intros _; apply not_elem_of_nil | reflexivity].
  - rewrite not_elem_of_cons. destruct (N.eqb_spec c 123) as [->|Hc].
    + split; [discriminate | tauto].
    + rewrite IH. split; [intros H; split; [intros E; now apply Hc | exact H] | tauto].
Qed.

Lemma upto_last_close_none s : upto_last_close s = None ↔ 125 ∉ s.
Proof.
  induction s as [|c s IH]; simpl.
  - split; [intros _; apply not_elem_of_nil | reflexivity].
  - rewrite not_elem_of_cons. destruct (upto_last_close s) as [t|].
    + split; [discriminate|]. intros [_ H]. apply IH in H. discriminate.
    + destruct (N.eqb_spec c 125) as [->|Hc].
      * split; [discriminate | tauto].
      * split; [intros _; split; [intros E; now apply Hc | now apply IH] | reflexivity].
Qed.

Lemma upto_last_close_app body post :
  125 ∉ post → upto_last_close (body ++ (125 :: post)) = Some (body ++ [125]).
Proof.
  intros Hpost. induction body as [|b body IH]; simpl.
  - apply upto_last_close_none in Hpost. now rewrite Hpost.
  - now rewrite IH.
Qed.

Lemma upto_last_close_spec s span :
  upto_last_close s = Some span ↔
  ∃ body post, s = body ++ (125 :: post) ∧ (125 ∉ post) ∧ span = (body ++ [125]).
Proof.
  split.
  - revert span. induction s as [|c s IH]; intros span; simpl; [discriminate|].
    destruct (upto_last_close s) as [t|] eqn:Ht.
    + destruct (IH t eq_refl) as (body & post & -> & Hpost & ->).
      intros [= <-]. now exists (c :: body), post.
    + apply upto_last_close_none in Ht.
      destruct (N.eqb_spec c 125) as [->|Hc]; [|discriminate].
      intros [= <-]. now exists [], s.
  - intros (body & post & -> & Hpost & ->). now apply upto_last_close_app.
Qed.

(** The match of the regular expression is the span from the first opening
    brace to the last closing brace after it. *)
Lemma match_json_spec text span :
  match_json text = Some span ↔
  ∃ pre body post,
    text = pre ++ (123 :: body) ++ (125 :: post)
    ∧ (123 ∉ pre) ∧ (125 ∉ post) ∧ span = (123 :: body) ++ [125].
Proof.
  unfold match_json. split.
  - destruct (from_first_open text) as [tail|] eqn:Ht; [|discriminate].
    apply from_first_open_spec in Ht as (pre & rest & -> & Hpre & ->).
    intros H. apply upto_last_close_spec in H as (body & post & H & Hpost & ->).
    destruct body as [|b body]; simpl in H.
    + discriminate H.
    + injection H as <- ->. now exists pre, body, post.
  - intros (pre & body & post & -> & Hpre & Hpost & ->).
    replace (from_first_open (pre ++ (123 :: body) ++ (125 :: post)))
      with (Some ((123 :: body) ++ (125 :: post))).
    + now apply upto_last_close_app.
    + symmetry. apply from_first_open_spec.
      now exists pre, (body ++ (125 :: post)).
Qed.

(** A text without a match: no opening brace, or no closing brace after
    the first opening one. *)
Lemma match_json_none text :
  match_json text = None ↔
  (123 ∉ text) ∨ ∃ pre rest, text = pre ++ (123 :: rest) ∧ (123 ∉ pre) ∧ (125 ∉ rest).
Proof.
  unfold match_json. destruct (from_first_open text) as [tail|] eqn:Ht.
  - apply from_first_open_spec in Ht as (pre & rest & -> & Hpre & ->).
    rewrite upto_last_close_none, not_elem_of_cons. split.
    + intros [_ Hrest]. right. now exists pre, rest.
    + intros [Hno|(pre' & rest' & Heq & Hpre' & Hrest')].
      * exfalso. apply Hno, elem_of_app. right. now left.
      * split; [discriminate|].
        assert (Hsame : from_first_open (pre ++ (123 :: rest)) = Some (123 :: rest'))
          by (apply from_first_open_spec; now exists pre', rest').
        assert (Hthis : from_first_open (pre ++ (123 :: rest)) = Some (123 :: rest))
          by (apply from_first_open_spec; now exists pre, rest).
        rewrite Hthis in Hsame. now injection Hsame as ->.
  - apply from_first_open_none in Ht. split; [now left | reflexivity].
Qed.

Lemma bind_inr {A B} (m : result A) (k : A → result B) b :
  bind m k = inr b → ∃ a, m = inr a ∧ k a = inr b.
Proof. destruct m as [e|a]; simpl; [discriminate | eauto]. Qed.

Lemma mapM_inr {A B} (f : A → result B) l rs :
  mapM f l = inr rs → Forall2 (fun a r => f a = inr r) l rs.
Proof.
  revert rs. induction l as [|a l IH]; intros rs; simpl.
  - intros [= <-]. constructor.
  - intros H. apply bind_inr in H as (b & Hb & H).
    apply bind_inr in H as (bs & Hbs & H). injection H as <-.
    constructor; auto.
Qed.

Lemma js_or_default_truthy a b :
  json_truthy b = true → json_truthy (js_or_default a b) = true.
Proof.
  intros Hb. unfold js_or_default. destruct a as [j|]; [|exact Hb].
  destruct (json_truthy j) eqn:Hj; [exact Hj | exact Hb].
Qed.

Lemma js_or_default_falsy a b : truthy a = false → js_or_default a b = b.
Proof. destruct a as [j|]; simpl; [intros ->|]; reflexivity. Qed.

Lemma truthy_not_empty j : json_truthy j = true → j ≠ JString [].
Proof. intros H ->. discriminate H. Qed.

Lemma get_object o k : get (JObject o) k = inr (o !! js k).
Proof. reflexivity. Qed.

(** What [normalizeIssue] puts into [filePath]. *)
Lemma normalizeIssue_filePath_eq issue ri :
  normalizeIssue issue = inr ri →
  ∃ file file_path,
    get issue "file" = inr file ∧ get issue "filePath" = inr file_path
    ∧ filePath ri = js_or_default (js_or file file_path) (JString (js "unknown")).
Proof.
  unfold normalizeIssue. intros H.
  repeat (apply bind_inr in H as (? & ? & H)).
  injection H as <-. simpl. eauto.
Qed.

Lemma normalizeIssue_filePath_truthy issue ri :
  normalizeIssue issue = inr ri → json_truthy (filePath ri) = true.
Proof.
  intros H. apply normalizeIssue_filePath_eq in H as (f & fp & _ & _ & ->).
  now apply js_or_default_truthy.
Qed.

(** An issue object whose severity and category are absent or strings is
    normalized: the callback returns. *)
Lemma normalizeIssue_returns o :
  absent_or_string o "severity" → absent_or_string o "category" →
  ∃ ri, normalizeIssue (JObject o) = inr ri.
Proof.
  intros Hs Hc. unfold normalizeIssue. rewrite !get_object. simpl.
  assert (Hsev : ∃ s, js_or_default (o !! js "severity") (JString (js "INFO")) = JString s).
  { destruct Hs as [->|[s ->]]; simpl; [eauto|].
    destruct (negb (str_eqb s [])); eauto. }
  assert (Hcat : ∃ s, js_or_default (o !! js "category") (JString []) = JString s).
  { destruct Hc as [->|[s ->]]; simpl; [eauto|].
    destruct (negb (str_eqb s [])); eauto. }
  destruct Hsev as [s ->], Hcat as [c ->]. simpl.
  unfold call_mapCategory. simpl. destruct (negb (str_eqb c [])); simpl; eauto.
Qed.

Lemma parseResults_issues_normalized text ri :
  ri ∈ parsed_issues (parseResults text) →
  ∃ issue, normalizeIssue issue = inr ri.
Proof.
  unfold parseResults. destruct (parseResults_try text) as [e|[results|]] eqn:Htry;
    simpl; try (intros H; now apply elem_of_nil in H).
  unfold parseResults_try in Htry.
  destruct (match_json text) as [span|]; [|discriminate].
  apply bind_inr in Htry as (parsed & _ & Htry).
  apply bind_inr in Htry as (pi & _ & Htry).
  apply bind_inr in Htry as (issues & Hissues & Htry).
  repeat (apply bind_inr in Htry as (? & _ & Htry)).
  injection Htry as <-. simpl. intros Hin.
  unfold array_map in Hissues.
  destruct (js_or_default pi (JArray [])) as [| | | |l|]; try discriminate.
  apply mapM_inr in Hissues.
  apply list_elem_of_lookup in Hin as [n Hn].
  destruct (Forall2_lookup_r _ _ _ _ _ Hissues Hn) as (issue & _ & Hissue).
  eauto.
Qed.

(** C8: [parseResults] returns for every text.  When the text has no span
    from a first opening brace to a last closing brace, when [JSON.parse]
    rejects that span, and whenever anything in the [try] block throws, it
    returns the empty results: no issues and no reviewed files; and the
    status of the empty results is [success]. *)
Theorem parseResults_never_raises (text : jsstring) :
  (match_json text = None → parseResults text = empty_results)
  ∧ (∀ span, match_json text = Some span → JSON_parse span = None →
       parseResults text = empty_results)
  ∧ (∀ e, parseResults_try text = inl e → parseResults text = empty_results)
  ∧ (parseResults text = empty_results →
       parsed_issues (parseResults text) = []
       ∧ parsed_filesReviewed (parseResults text) = JArray []
       ∧ determineStatus (parsed_issues (parseResults text)) = success)
  ∧ (∃ results, parseResults text = results
       ∧ (results = empty_results ∨ parseResults_try text = inr (Some results))).
Proof.
  unfold parseResults. split; [|split; [|split; [|split]]].
  - intros Hm. unfold parseResults_try. now rewrite Hm.
  - intros span Hm Hp. unfold parseResults_try. now rewrite Hm, Hp.
  - intros e He. now rewrite He.
  - intros ->. now repeat split.
  - destruct (parseResults_try text) as [e|[results|]]; eauto.
Qed.

(** C10: a normalized issue whose source object has neither a [file] nor a
    [filePath], or has them only as empty strings, gets the file path
    [unknown]; the file path of a normalized issue is never the empty
    string (it is a truthy value), also for every issue [parseResults]
    returns; and an issue object whose severity and category are absent or
    strings does get normalized. *)
Theorem normalizeIssue_filePath_unknown :
  (∀ o ri, normalizeIssue (JObject o) = inr ri →
     absent_or_empty o "file" → absent_or_empty o "filePath" →
     filePath ri = JString (js "unknown"))
  ∧ (∀ issue ri, normalizeIssue issue = inr ri →
       json_truthy (filePath ri) = true ∧ filePath ri ≠ JString [])
  ∧ (∀ text ri, ri ∈ parsed_issues (parseResults text) → filePath ri ≠ JString [])
  ∧ (∀ o, absent_or_string o "severity" → absent_or_string o "category" →
       ∃ ri, normalizeIssue (JObject o) = inr ri).
Proof.
  split; [|split; [|split]].
  - intros o ri H Hf Hp.
    apply normalizeIssue_filePath_eq in H as (f & fp & Hgf & Hgp & ->).
    rewrite get_object in Hgf, Hgp. injection Hgf as <-. injection Hgp as <-.
    apply js_or_default_falsy. unfold js_or.
    destruct Hf as [->| ->], Hp as [->| ->]; reflexivity.
  - intros issue ri H. apply normalizeIssue_filePath_truthy in H.
    split; [exact H | now apply truthy_not_empty].
  - intros text ri Hin. apply parseResults_issues_normalized in Hin as [issue H].
    apply truthy_not_empty. now apply normalizeIssue_filePath_truthy in H.
  - exact normalizeIssue_returns.
Qed.


(** ** Aggregation in [review] *)

Lemma countByCategory_spec issues c :
  countByCategory issues c = length (filter (fun i => category i = c) issues).
Proof.
  unfold countByCategory.
  assert (H : ∀ counts,
    fold_left (fun counts issue =>
                 fun c => if decide (c = category issue) then (counts c + 1)%nat
                          else counts c) issues counts c
    = (counts c + length (filter (fun i => category i = c) issues))%nat).
  { induction issues as [|i issues IH]; intros counts; simpl; [lia|].
    rewrite IH, filter_cons.
    destruct (decide (c = category i)), (decide (category i = c));
      simpl; try congruence; lia. }
  now rewrite H.
Qed.

Lemma count_severity_total issues :
  length issues
  = (count_severity critical issues + count_severity error issues
     + count_severity warning issues + count_severity info issues)%nat.
Proof.
  unfold count_severity. induction issues as [|i issues IH]; [reflexivity|].
  rewrite !filter_cons. simpl length. rewrite IH.
  destruct (severity i); simpl;
    repeat match goal with |- context [decide ?P] => destruct (decide P) end;
    simpl; try congruence; lia.
Qed.

Lemma parsed_filesReviewed_truthy text :
  json_truthy (parsed_filesReviewed (parseResults text)) = true.
Proof.
  unfold parseResults. destruct (parseResults_try text) as [e|[results|]] eqn:Htry;
    try reflexivity.
  unfold parseResults_try in Htry.
  destruct (match_json text) as [span|]; [|discriminate].
  repeat (apply bind_inr in Htry as (? & _ & Htry)).
  injection Htry as <-. simpl. now apply js_or_default_truthy.
Qed.

Lemma js_length_truthy v : json_truthy v = true → ∃ n, js_length v = inr n.
Proof. destruct v; simpl; try discriminate; eauto. Qed.

Lemma filter_length_le {A} (P : A → Prop) `{∀ x, Decision (P x)} (l : list A) :
  (length (filter P l) <= length l)%nat.
Proof.
  induction l as [|a l IH]; [reflexivity|].
  rewrite filter_cons. destruct (decide (P a)); simpl; lia.
Qed.

Lemma buildPrompt_threshold t c target :
  buildPrompt (with_threshold t c) target = buildPrompt c target.
Proof. reflexivity. Qed.

Lemma buildOptions_threshold t c : buildOptions (with_threshold t c) = buildOptions c.
Proof. reflexivity. Qed.

Lemma JSON_array_ind (P : JSON → Prop) :
  P JNull → (∀ b, P (JBool b)) → (∀ n, P (JNumber n)) → (∀ s, P (JString s)) →
  (∀ l, Forall P l → P (JArray l)) → (∀ o, P (JObject o)) →
  ∀ j, P j.
Proof.
  intros Hnull Hbool Hnum Hstr Harr Hobj. fix IH 1.
  intros [|b|n|s|l|o];
    [exact Hnull | apply Hbool | apply Hnum | apply Hstr | | apply Hobj].
  apply Harr. induction l as [|e l IHl]; constructor; [apply IH | exact IHl].
Qed.

(** The conversion returns for the printable values and throws a
    [TypeError] for the others. *)
Lemma json_string_cases j :
  (printable j = true ∧ ∃ s, json_string j = inr s)
  ∨ (printable j = false ∧ json_string j = inl TypeError).
Proof.
  induction j as [|b|n|s|l IHl|o] using JSON_array_ind;
    try (left; split; [reflexivity | simpl; eauto]).
  - assert (H : (forallb printable l = true
                 ∧ ∃ parts, array_strings json_string l = inr parts)
                ∨ (forallb printable l = false
                   ∧ array_strings json_string l = inl TypeError)).
    { induction IHl as [|e l He _ IH]; [left; split; [reflexivity | simpl; eauto]|].
      cbn [forallb array_strings].
      fold (array_strings json_string l).
      assert (Hel : (printable e = true
                     ∧ ∃ s, match e with JNull => ret [] | _ => json_string e end = inr s)
                    ∨ (printable e = false
                       ∧ match e with JNull => ret [] | _ => json_string e end
                         = inl TypeError)).
      { destruct e; try exact He. left. split; [reflexivity | eauto]. }
      destruct Hel as [[-> [s ->]]|[-> ->]]; [|right; split; reflexivity].
      destruct IH as [[-> [parts ->]]|[-> ->]]; simpl.
      - left. eauto.
      - right. split; reflexivity. }
    cbn [printable json_string].
    destruct H as [[-> [parts ->]]|[-> ->]]; simpl; [left; eauto | right; split; reflexivity].
  - cbn [printable json_string]. destruct (o !! js "toString").
    + right. split; reflexivity.
    + left. split; [reflexivity | eauto].
Qed.

Lemma template_cases v :
  (value_printable v = true ∧ ∃ s, template v = inr s)
  ∨ (value_printable v = false ∧ template v = inl TypeError).
Proof.
  destruct v as [j|]; [apply json_string_cases|].
  left. split; [reflexivity | simpl; eauto].
Qed.

Lemma buildSummary_cases issues filesReviewed prIntent files :
  js_length filesReviewed = inr files →
  (((truthy prIntent = true → value_printable prIntent = true)
    ∧ value_printable files = true)
   ∧ ∃ summary, buildSummary issues filesReviewed prIntent = inr summary)
  ∨ (¬ ((truthy prIntent = true → value_printable prIntent = true)
        ∧ value_printable files = true)
     ∧ buildSummary issues filesReviewed prIntent = inl TypeError).
Proof.
  intros Hn. unfold buildSummary. rewrite Hn. cbn [bind].
  destruct (template_cases files) as [[Hf [ft ->]]|[Hf ->]];
    destruct (truthy prIntent) eqn:Ht;
    try destruct (template_cases prIntent) as [[Hp [pt ->]]|[Hp ->]];
    cbn [bind ret];
    try (left; split; [split; [intros _; assumption || intros [=] | assumption] | eauto];
         fail);
    try (left; split; [split; [discriminate | assumption] | eauto]; fail);
    right; (split; [|reflexivity]); intros [H1 H2]; try specialize (H1 eq_refl);
    congruence.
Qed.

Lemma summary_prints_iff text files :
  js_length (parsed_filesReviewed (parseResults text)) = inr files →
  summary_prints (parseResults text) ↔
    (truthy (parsed_prIntent (parseResults text)) = true →
       value_printable (parsed_prIntent (parseResults text)) = true)
    ∧ value_printable files = true.
Proof.
  intros Hn. unfold summary_prints. split; intros [H1 H2]; (split; [exact H1|]).
  - now apply H2.
  - intros files' Hf. congruence.
Qed.

(** The outcome of [review] on a stream that does not fail. *)
Lemma review_outcome query start_time end_time agent target :
  stream_failure (query (buildPrompt (config agent) target)
                        (buildOptions (config agent))) = None →
  (summary_prints (parseResults (reviewed_text query agent target))
   ∧ ∃ r, (review query start_time end_time agent target).1.1 = inr r)
  ∨ (¬ summary_prints (parseResults (reviewed_text query agent target))
     ∧ (review query start_time end_time agent target).1.1 = inl TypeError).
Proof.
  intros Hs. unfold review, reviewed_text. cbn [fst snd].
  set (stream := query (buildPrompt (config agent) target) (buildOptions (config agent))) in *.
  set (text := resultText (run_session agent stream)).
  destruct (js_length_truthy _ (parsed_filesReviewed_truthy text)) as [n Hn].
  rewrite Hs, (summary_prints_iff text n Hn).
  destruct (buildSummary_cases (parsed_issues (parseResults text)) _
              (parsed_prIntent (parseResults text)) n Hn)
    as [[Hp [summary ->]]|[Hp ->]].
  - left. split; [exact Hp|]. rewrite Hn. cbn [bind ret]. eauto.
  - right. split; [exact Hp | reflexivity].
Qed.

(** What [review] returns when it returns. *)
Lemma review_returned query start_time end_time agent target r :
  (review query start_time end_time agent target).1.1 = inr r →
  let parsed := parseResults (reviewed_text query agent target) in
  res_status r = determineStatus (parsed_issues parsed)
  ∧ res_issues r = filterIssuesBySeverity (config agent) (parsed_issues parsed)
  ∧ totalIssues (res_stats r) = length (parsed_issues parsed)
  ∧ issuesBySeverity (res_stats r) = countBySeverity (parsed_issues parsed)
  ∧ issuesByCategory (res_stats r) = countByCategory (parsed_issues parsed)
  ∧ totalCostUsd (res_stats r)
    = cost (run_session agent (query (buildPrompt (config agent) target)
                                     (buildOptions (config agent))))
  ∧ durationMs (res_stats r)
    = duration (run_session agent (query (buildPrompt (config agent) target)
                                         (buildOptions (config agent))))
  ∧ js_length (parsed_filesReviewed parsed) = inr (totalFiles (res_stats r)).
Proof.
  intros H. cbv zeta. unfold reviewed_text. unfold review in H. cbn [fst snd] in H.
  set (stream := query (buildPrompt (config agent) target)
                       (buildOptions (config agent))) in *.
  set (st := run_session agent stream) in *.
  set (parsed := parseResults (resultText st)) in *.
  destruct (stream_failure stream); [discriminate|].
  apply bind_inr in H as (summary & Hs & H).
  apply bind_inr in H as (files & Hf & H).
  injection H as <-.
  cbn [res_status res_issues res_stats totalFiles totalIssues issuesBySeverity
       issuesByCategory totalCostUsd durationMs].
  repeat (split; [first [reflexivity | assumption]|]). assumption.
Qed.

(** C7: in the result that [review] returns, [totalIssues], the counts by
    severity and by category and the status are those of the whole
    normalized list, and only [issues] is the thresholded list; so
    [totalIssues] is the length of the whole list, it is the sum of the four
    severity counts, and the same agent under any other threshold reports
    the same statistics and status.  [review] does return a result exactly
    when the stream ends without an exception and the two values that the
    summary prints have strings; when the stream ends without an exception
    and one of them has none, it throws a [TypeError]. *)
Theorem review_counts_unfiltered
    (query : jsstring → Options → Stream) (start_time end_time : jsstring)
    (agent : CodeReviewAgent) (target : jsstring) :
  let stream := query (buildPrompt (config agent) target) (buildOptions (config agent)) in
  let parsed := parseResults (reviewed_text query agent target) in
  let issues := parsed_issues parsed in
  ((∃ r, (review query start_time end_time agent target).1.1 = inr r) ↔
     stream_failure stream = None ∧ summary_prints parsed)
  ∧ (stream_failure stream = None → ¬ summary_prints parsed →
       (review query start_time end_time agent target).1.1 = inl TypeError)
  ∧ (∀ r, (review query start_time end_time agent target).1.1 = inr r →
       totalIssues (res_stats r) = length issues
       ∧ (∀ s, issuesBySeverity (res_stats r) s
               = length (filter (fun i => severity i = s) issues))
       ∧ (∀ c, issuesByCategory (res_stats r) c
               = length (filter (fun i => category i = c) issues))
       ∧ res_status r = determineStatus issues
       ∧ res_issues r = filterIssuesBySeverity (config agent) issues
       ∧ (length (res_issues r) <= totalIssues (res_stats r))%nat
       ∧ totalIssues (res_stats r)
         = (issuesBySeverity (res_stats r) critical + issuesBySeverity (res_stats r) error
            + issuesBySeverity (res_stats r) warning
            + issuesBySeverity (res_stats r) info)%nat
       ∧ ∀ t r', (review query start_time end_time
                    (agent_with_threshold t agent) target).1.1 = inr r' →
                 res_stats r' = res_stats r ∧ res_status r' = res_status r).
Proof.
  intros stream parsed issues. split; [|split].
  - split.
    + intros [r Hr].
      assert (Hs : stream_failure stream = None).
      { unfold review in Hr. cbn [fst snd] in Hr. fold stream in Hr.
        destruct (stream_failure stream); [discriminate | reflexivity]. }
      split; [exact Hs|].
      destruct (review_outcome query start_time end_time agent target Hs)
        as [[Hp _]|[_ Hthrow]]; [exact Hp | congruence].
    + intros [Hs Hp].
      destruct (review_outcome query start_time end_time agent target Hs)
        as [[_ Hr]|[Hn _]]; [exact Hr | contradiction].
  - intros Hs Hn.
    destruct (review_outcome query start_time end_time agent target Hs)
      as [[Hp _]|[_ Hthrow]]; [contradiction | exact Hthrow].
  - intros r Hr.
    destruct (review_returned query start_time end_time agent target r Hr)
      as (Hst & Hi & Ht & Hsev & Hcat & Hcost & Hdur & Hfiles).
    fold parsed in Hst, Hi, Ht, Hsev, Hcat, Hfiles. fold issues in Hst, Hi, Ht, Hsev, Hcat.
    split; [exact Ht|]. split; [intros s; now rewrite Hsev|].
    split; [intros c; rewrite Hcat; apply countByCategory_spec|].
    split; [exact Hst|]. split; [exact Hi|].
    split; [rewrite Hi, Ht, filterIssuesBySeverity_as_rank; apply filter_length_le|].
    split; [rewrite Ht, Hsev; apply count_severity_total|].
    intros t r' Hr'.
    destruct (review_returned query start_time end_time
                (agent_with_threshold t agent) target r' Hr')
      as (Hst' & _ & Ht' & Hsev' & Hcat' & Hcost' & Hdur' & Hfiles').
    split; [|now rewrite Hst, Hst'].
    destruct (res_stats r) as [f1 n1 s1 c1 u1 d1], (res_stats r') as [f2 n2 s2 c2 u2 d2].
    cbn [totalFiles totalIssues issuesBySeverity issuesByCategory totalCostUsd
         durationMs] in *.
    change (reviewed_text query (agent_with_threshold t agent) target)
      with (reviewed_text query agent target) in *.
    fold parsed in Hfiles'. fold issues in Ht', Hsev', Hcat'.
    change (config (agent_with_threshold t agent))
      with (with_threshold t (config agent)) in *.
    rewrite !buildPrompt_threshold, !buildOptions_threshold in Hcost', Hdur'.
    change (run_session (agent_with_threshold t agent))
      with (run_session agent) in *.
    unfold issues, parsed in *. congruence.
Qed.

(** ** Validation *)

Lemma validateConfig_rejects_maxFiles env c n :
  maxFiles c = Some n → number_truthy n = true → number_le_zero n = true →
  validateConfig env c = inl (Error (js "maxFiles must be greater than 0")).
Proof. intros Hc Ht Hle. unfold validateConfig, set_and_le_zero. now rewrite Hc, Ht, Hle. Qed.

Lemma validateConfig_skips_zero env c :
  maxFiles c = Some (Finite 0) → maxBudgetUsd c = Some (Finite 0) →
  str_truthy (ANTHROPIC_API_KEY env) = true →
  validateConfig env c = inr ().
Proof. intros Hf Hb Hk. unfold validateConfig, set_and_le_zero. now rewrite Hf, Hb, Hk. Qed.

(** A configuration that validation rejects never reaches the agent SDK. *)
Lemma rejected_config_makes_no_call env query t0 t1 userConfig target e :
  validateConfig env (buildConfig env userConfig) = inl e →
  cli_review env query t0 t1 userConfig target = (inl e, []).
Proof. intros H. unfold cli_review, new_CodeReviewAgent. now rewrite H. Qed.


(** ** Absent fields of the pull-request context *)

Lemma str_truthy_Some d : d ≠ [] → str_truthy (Some d) = true.
Proof.
  intros Hd. simpl. apply negb_true_iff, not_true_iff_false.
  rewrite str_eqb_eq. exact Hd.
Qed.

Lemma str_truthy_length d : str_truthy (Some d) = true → (0 < length d)%nat.
Proof.
  simpl. rewrite negb_true_iff. intros H. apply not_true_iff_false in H.
  rewrite str_eqb_eq in H. destruct d; [congruence | simpl; lia].
Qed.

Lemma nl_length : length nl = 1%nat.
Proof. reflexivity. Qed.

(** Two renderings of different length differ. *)
Ltac by_length E :=
  apply (f_equal length) in E; rewrite ?length_app, ?nl_length in E;
  simpl length in E; lia.

(** The lines a setter leaves as they are. *)
Ltac keep_lines E :=
  repeat match type of E with
         | context [?f (?set ?d ?pr)] =>
             lazymatch type of pr with PRContext => idtac end;
             lazymatch type of (set d pr) with PRContext => idtac end;
             progress change (f (set d pr)) with (f pr) in E
         end.

Lemma pr_context_section_title : title_not_defaulted (fun pr => pr_context_section (Some pr)).
Proof.
  intros pr d Hnone Hd E. unfold pr_context_section in E. keep_lines E.
  unfold title_line in E. rewrite Hnone in E.
  change (title (with_title d pr)) with (Some d) in E.
  rewrite (str_truthy_Some d Hd) in E. simpl str_truthy in E. cbv iota in E.
  by_length E.
Qed.

Lemma pr_context_section_description : description_not_defaulted (fun pr => pr_context_section (Some pr)).
Proof.
  intros pr d Hnone Hd E. unfold pr_context_section in E. keep_lines E.
  unfold description_line in E. rewrite Hnone in E.
  change (description (with_description d pr)) with (Some d) in E.
  rewrite (str_truthy_Some d Hd) in E. simpl str_truthy in E. cbv iota in E.
  by_length E.
Qed.

Lemma pr_context_section_number : number_not_defaulted (fun pr => pr_context_section (Some pr)).
Proof.
  intros pr n Hnone Hn E. unfold pr_context_section in E. keep_lines E.
  unfold number_line in E. rewrite Hnone in E.
  change (number_ (with_number n pr)) with (Some n) in E.
  rewrite Hn in E. simpl pr_number_truthy in E. cbv iota in E.
  by_length E.
Qed.

Lemma pr_context_section_author : author_not_defaulted (fun pr => pr_context_section (Some pr)).
Proof.
  intros pr d Hnone Hd E. unfold pr_context_section in E. keep_lines E.
  unfold author_line in E. rewrite Hnone in E.
  change (author (with_author d pr)) with (Some d) in E.
  rewrite (str_truthy_Some d Hd) in E. simpl str_truthy in E. cbv iota in E.
  by_length E.
Qed.

Lemma pr_context_section_branch : branch_not_defaulted (fun pr => pr_context_section (Some pr)).
Proof.
  intros pr d Hnone Hbase Hd E. unfold pr_context_section in E. keep_lines E.
  unfold branch_line in E. rewrite Hnone in E.
  change (branch (with_branch d pr)) with (Some d) in E.
  change (baseBranch (with_branch d pr)) with (baseBranch pr) in E.
  rewrite (str_truthy_Some d Hd), Hbase in E. cbn [str_truthy andb] in E.
  by_length E.
Qed.

Lemma pr_context_section_baseBranch : baseBranch_not_defaulted (fun pr => pr_context_section (Some pr)).
Proof.
  intros pr d Hnone Hbranch Hd E. unfold pr_context_section in E. keep_lines E.
  unfold branch_line in E. rewrite Hnone in E.
  change (baseBranch (with_baseBranch d pr)) with (Some d) in E.
  change (branch (with_baseBranch d pr)) with (branch pr) in E.
  rewrite (str_truthy_Some d Hd), Hbranch in E. cbn [str_truthy andb] in E.
  by_length E.
Qed.

Lemma prContextSection_title : title_not_defaulted (fun pr => prContextSection (Some pr)).
Proof.
  intros pr d Hnone Hd E. unfold prContextSection in E. keep_lines E.
  unfold pr_title_line in E. rewrite Hnone in E.
  change (title (with_title d pr)) with (Some d) in E.
  rewrite (str_truthy_Some d Hd) in E. simpl str_truthy in E. cbv iota in E.
  by_length E.
Qed.

Lemma prContextSection_description : description_not_defaulted (fun pr => prContextSection (Some pr)).
Proof.
  intros pr d Hnone Hd E. unfold prContextSection in E. keep_lines E.
  unfold pr_description_line in E. rewrite Hnone in E.
  change (description (with_description d pr)) with (Some d) in E.
  rewrite (str_truthy_Some d Hd) in E. simpl str_truthy in E. cbv iota in E.
  by_length E.
Qed.

Lemma prContextSection_number : number_not_defaulted (fun pr => prContextSection (Some pr)).
Proof.
  intros pr n Hnone Hn E. unfold prContextSection in E. keep_lines E.
  unfold pr_number_line in E. rewrite Hnone in E.
  change (number_ (with_number n pr)) with (Some n) in E.
  rewrite Hn in E. simpl pr_number_truthy in E. cbv iota in E.
  by_length E.
Qed.

Lemma prContextSection_author : author_not_defaulted (fun pr => prContextSection (Some pr)).
Proof.
  intros pr d Hnone Hd E. unfold prContextSection in E. keep_lines E.
  unfold pr_author_line in E. rewrite Hnone in E.
  change (author (with_author d pr)) with (Some d) in E.
  rewrite (str_truthy_Some d Hd) in E. simpl str_truthy in E. cbv iota in E.
  by_length E.
Qed.

Lemma prContextSection_branch : branch_not_defaulted (fun pr => prContextSection (Some pr)).
Proof.
  intros pr d Hnone _ Hd E. unfold prContextSection in E. keep_lines E.
  unfold pr_branch_line in E. rewrite Hnone in E.
  change (branch (with_branch d pr)) with (Some d) in E.
  change (baseBranch (with_branch d pr)) with (baseBranch pr) in E.
  rewrite (str_truthy_Some d Hd) in E. simpl str_truthy in E. cbv iota in E.
  by_length E.
Qed.

(** In the template-based prompt an absent base branch reads [main]. *)
Lemma prContextSection_baseBranch_main pr :
  baseBranch pr = None →
  prContextSection (Some pr) = prContextSection (Some (with_baseBranch (js "main") pr)).
Proof.
  intros Hnone. unfold prContextSection.
  change (pr_title_line (with_baseBranch (js "main") pr)) with (pr_title_line pr).
  change (pr_number_line (with_baseBranch (js "main") pr)) with (pr_number_line pr).
  change (pr_description_line (with_baseBranch (js "main") pr))
    with (pr_description_line pr).
  change (pr_author_line (with_baseBranch (js "main") pr)) with (pr_author_line pr).
  change (pr_changed_files (with_baseBranch (js "main") pr)) with (pr_changed_files pr).
  unfold pr_branch_line.
  change (branch (with_baseBranch (js "main") pr)) with (branch pr).
  change (baseBranch (with_baseBranch (js "main") pr)) with (Some (js "main")).
  now rewrite Hnone.
Qed.

(** C9 (amended): in [buildPrompt] no value stands in for an absent field:
    the line of an absent title, description, number or author is empty,
    the branch line is empty when the branch or the base branch is absent,
    and the section of a context that lacks a field differs from the
    section of every context that has it.  The template-based prompt does
    the same for title, number, description, author and branch, but renders
    an absent base branch, next to a branch, as [main]: the section is that
    of the context with the base branch [main]. *)
Theorem absent_pr_fields_omitted :
  absent_never_defaulted (fun pr => pr_context_section (Some pr))
  ∧ (∀ pr,
       (title pr = None → title_line pr = [])
       ∧ (description pr = None → description_line pr = [])
       ∧ (number_ pr = None → number_line pr = [])
       ∧ (author pr = None → author_line pr = [])
       ∧ (branch pr = None → branch_line pr = [])
       ∧ (baseBranch pr = None → branch_line pr = []))
  ∧ (title_not_defaulted (fun pr => prContextSection (Some pr))
     ∧ description_not_defaulted (fun pr => prContextSection (Some pr))
     ∧ number_not_defaulted (fun pr => prContextSection (Some pr))
     ∧ author_not_defaulted (fun pr => prContextSection (Some pr))
     ∧ branch_not_defaulted (fun pr => prContextSection (Some pr)))
  ∧ (∀ pr,
       (title pr = None → pr_title_line pr = [])
       ∧ (description pr = None → pr_description_line pr = [])
       ∧ (number_ pr = None → pr_number_line pr = [])
       ∧ (author pr = None → pr_author_line pr = [])
       ∧ (branch pr = None → pr_branch_line pr = []))
  ∧ (∀ pr, baseBranch pr = None →
       prContextSection (Some pr)
       = prContextSection (Some (with_baseBranch (js "main") pr))).
Proof.
  split; [|split; [|split; [|split]]].
  - repeat split.
    + exact pr_context_section_title.
    + exact pr_context_section_description.
    + exact pr_context_section_number.
    + exact pr_context_section_author.
    + exact pr_context_section_branch.
    + exact pr_context_section_baseBranch.
  - intros pr. unfold title_line, description_line, number_line, author_line, branch_line.
    repeat split; intros ->; try reflexivity.
    now rewrite andb_false_r.
  - repeat split.
    + exact prContextSection_title.
    + exact prContextSection_description.
    + exact prContextSection_number.
    + exact prContextSection_author.
    + exact prContextSection_branch.
  - intros pr. unfold pr_title_line, pr_description_line, pr_number_line,
      pr_author_line, pr_branch_line.
    repeat split; intros ->; reflexivity.
  - exact prContextSection_baseBranch_main.
Qed.

End Properties.

(** * The properties on the sample inputs *)

(** Scenario A: one issue, critical, of the default category, with status
    [failure]; under the threshold [error] it stays in the returned list. *)
Example scenario_A_normalized :
  @parsed_issues (@parseResults sample_platform scenario_text) = [sample_issue critical]
  ∧ determineStatus [sample_issue critical] = failure
  ∧ filterIssuesBySeverity (threshold_config (Some error)) [sample_issue critical]
    = [sample_issue critical].
Proof. repeat split; vm_compute; reflexivity. Qed.

Example mapSeverity_examples :
  @mapSeverity sample_platform (js "High") = critical
  ∧ @mapSeverity sample_platform (js "medium") = error
  ∧ @mapSeverity sample_platform (js "wArNiNg") = warning
  ∧ @mapSeverity sample_platform (js "INFO") = info
  ∧ @mapSeverity sample_platform (js "blocker") = info
  ∧ @mapSeverity sample_platform (js " high") = info.
Proof. repeat split; vm_compute; reflexivity. Qed.

Example mergeRules_scenario_D :
  map rule_id (mergeRules DEFAULT_RULES [xss_rule false])
  = map rule_id (filter (fun r => rule_id r ≠ js "security-xss") getEnabledRules).
Proof. vm_compute. reflexivity. Qed.

(** C3 on a list with an info and a critical issue: under the threshold
    [error] the filter is the rank filter, and under [critical] it keeps no
    more than under [warning]. *)
Lemma filterIssuesBySeverity_threshold_example :
  filterIssuesBySeverity (threshold_config (Some error))
    [sample_issue info; sample_issue critical]
  = filter (fun i => (severity_rank error <= severity_rank (severity i))%nat)
      [sample_issue info; sample_issue critical]
  ∧ (length (filterIssuesBySeverity (threshold_config (Some critical))
               [sample_issue info; sample_issue critical])
     <= length (filterIssuesBySeverity (threshold_config (Some warning))
                  [sample_issue info; sample_issue critical]))%nat.
Proof.
  destruct (filterIssuesBySeverity_threshold (threshold_config (Some error))
              [sample_issue info; sample_issue critical]) as (Hsome & _ & _).
  destruct (filterIssuesBySeverity_threshold (threshold_config (Some warning))
              [sample_issue info; sample_issue critical]) as (_ & _ & Hmono).
  split.
  - exact (proj1 (Hsome error eq_refl)).
  - apply (Hmono (threshold_config (Some critical))). simpl. lia.
Defined.

(** C5 on scenario C: the user excludes [*.generated.ts]. *)
Lemma buildConfig_excludePatterns_example :
  ∃ merged,
    excludePatterns (@buildConfig sample_platform sample_env generated_excluded)
    = Some merged
    ∧ merged = default_excludePatterns ++ [js "*.generated.ts"]
    ∧ (∀ p, p ∈ [js "node_modules/**"; js "dist/**"; js "build/**"; js "*.min.js";
                 js "*.bundle.js"; js "coverage/**"; js ".git/**"; js "*.log"] →
            p ∈ merged)
    ∧ (∀ p, p ∈ [js "*.generated.ts"] → p ∈ merged).
Proof.
  exact (@buildConfig_excludePatterns_additive sample_platform sample_env
           generated_excluded [js "*.generated.ts"] eq_refl).
Defined.

(** C6 on scenario D: the user disables the default rule [security-xss]. *)
Lemma mergeRules_disabled_example :
  Forall (fun r => rule_id r ≠ js "security-xss")
         (mergeRules DEFAULT_RULES [xss_rule false]).
Proof.
  destruct (@mergeRules_by_id sample_platform DEFAULT_RULES [xss_rule false])
    as (_ & _ & Hlast & _).
  apply Forall_forall. apply (Hlast (xss_rule false)); [|reflexivity].
  exists [], []. split; [reflexivity|]. intros r Hr. now apply elem_of_nil in Hr.
Defined.

(** C6 as stated fails: a disabled user rule followed by an enabled user
    rule of the same id leaves the id among the resolved rules. *)
Lemma mergeRules_later_rule_wins : ¬ disabled_user_rule_hides_id.
Proof.
  intros H.
  apply (H DEFAULT_RULES [xss_rule false; xss_rule true] (xss_rule false))
    with (r := xss_rule true).
  - now left.
  - apply list_elem_of_In. vm_compute. tauto.
  - reflexivity.
  - apply list_elem_of_In. vm_compute. tauto.
  - reflexivity.
Qed.

(** C7 on an answer with one issue of severity [MEDIUM], reviewed under
    the threshold [critical]: the review returns, one issue is counted, as
    an error, and the status is [partial], while the list of issues is
    empty. *)
Lemma review_counts_example :
  ∃ r, (@review sample_platform medium_query (js "t0") (js "t1")
          critical_agent (js ".")).1.1 = inr r
       ∧ totalIssues (res_stats r) = 1%nat
       ∧ issuesBySeverity (res_stats r) error = 1%nat
       ∧ res_status r = partial
       ∧ res_issues r = [].
Proof.
  pose proof (@review_counts_unfiltered sample_platform medium_query (js "t0") (js "t1")
                critical_agent (js ".")) as H.
  cbv zeta in H. destruct H as (Hret & _ & Hcounts).
  destruct (proj2 Hret) as [r Hr].
  { split; [reflexivity|]. split.
    - intros _. vm_compute. reflexivity.
    - intros files Hf. vm_compute in Hf. injection Hf as <-. reflexivity. }
  exists r. destruct (Hcounts r Hr) as (Ht & Hs & _ & Hst & Hi & _).
  split; [exact Hr|]. rewrite Ht, Hs, Hst, Hi.
  repeat split; vm_compute; reflexivity.
Defined.

(** An answer whose [prIntent] is [{"toString": 1}] makes [review] throw
    the [TypeError] of the summary, though the stream did not fail. *)
Example review_unprintable_intent :
  (@review sample_platform unprintable_query (js "t0") (js "t1")
     sample_agent (js ".")).1.1 = inl TypeError.
Proof. vm_compute. reflexivity. Qed.

(** C8 on scenario B: a text without braces gives the empty results. *)
Lemma parseResults_no_braces_example :
  @parseResults sample_platform (js "The review found nothing to report.")
  = empty_results.
Proof.
  apply (proj1 (@parseResults_never_raises sample_platform
                  (js "The review found nothing to report."))).
  reflexivity.
Defined.

(** C10 on an issue that names no file. *)
Lemma normalizeIssue_filePath_example :
  filePath {| ruleId := JString (js "general"); severity := warning;
              category := best_practices; filePath := JString (js "unknown");
              line := None; message := Some (JString (js "x"));
              suggestion := None; impact := None |}
  = JString (js "unknown").
Proof.
  apply (proj1 (@normalizeIssue_filePath_unknown sample_platform) issue_without_file).
  - vm_compute. reflexivity.
  - left. vm_compute. reflexivity.
  - left. vm_compute. reflexivity.
Defined.

(** C9 on a context with a branch and no base branch: the template-based
    prompt reads as if the base branch were [main]. *)
Lemma prContextSection_main_example :
  @prContextSection sample_platform (Some branch_only)
  = @prContextSection sample_platform (Some (with_baseBranch (js "main") branch_only)).
Proof.
  destruct (@absent_pr_fields_omitted sample_platform) as (_ & _ & _ & _ & Hmain).
  apply Hmain. reflexivity.
Defined.

Lemma prContextSection_main_fact :
  @prContextSection sample_platform (Some branch_only)
  = @prContextSection sample_platform (Some (with_baseBranch (js "main") branch_only)).
Proof. reflexivity. Qed.

(** C9 as stated fails: the template-based prompt shows a value, [main],
    for the base branch that the context lacks. *)
Lemma prContextSection_defaults_baseBranch :
  ¬ (∀ platform : Platform,
       absent_never_defaulted (fun pr => @pr_context_section platform (Some pr))
       ∧ absent_never_defaulted (fun pr => @prContextSection platform (Some pr))).
Proof.
  intros H. destruct (H sample_platform) as (_ & _ & _ & _ & _ & _ & Hbase).
  apply (Hbase branch_only (js "main")); [reflexivity | reflexivity | discriminate|].
  symmetry. exact prContextSection_main_fact.
Qed.

(** C4 at zero: with the API key set, [{ maxFiles: 0 }] and
    [{ maxBudgetUsd: 0 }] pass validation, the agent is constructed, and the
    review goes on to call the agent SDK; [{ maxFiles: -1 }] is rejected
    with the message that the bound must be greater than 0, before any
    call. *)
Lemma validateConfig_accepts_zero :
  validateConfig sample_env (@buildConfig sample_platform sample_env (only_maxFiles (Finite 0)))
  = inr ()
  ∧ validateConfig sample_env
      (@buildConfig sample_platform sample_env (only_maxBudgetUsd (Finite 0)))
    = inr ()
  ∧ (∀ query t0 t1 target,
       ∃ outcome prompt options,
         @cli_review sample_platform sample_env query t0 t1 (only_maxFiles (Finite 0)) target
         = (outcome, [QueryCall prompt options]))
  ∧ (∀ query t0 t1 target,
       @cli_review sample_platform sample_env query t0 t1 (only_maxFiles (Finite (-1))) target
       = (inl (Error (js "maxFiles must be greater than 0")), [])).
Proof.
  split; [vm_compute; reflexivity|]. split; [vm_compute; reflexivity|]. split.
  - intros query t0 t1 target. unfold cli_review, new_CodeReviewAgent.
    replace (validateConfig sample_env
               (@buildConfig sample_platform sample_env (only_maxFiles (Finite 0))))
      with (@inr exn unit ()) by (vm_compute; reflexivity).
    simpl bind. unfold review. eauto.
  - intros query t0 t1 target.
    apply (@rejected_config_makes_no_call sample_platform).
    vm_compute. reflexivity.
Qed.

(** * Further properties *)

Section FurtherProperties.
Context {platform : Platform}.

(** ** The match of the regular expression *)

(** X1: [resultText.match(/\{[\s\S]*\}/)] finds exactly the span from the
    first opening brace to the last closing brace after it; it finds
    nothing exactly when the text has no opening brace or no closing brace
    after the first opening one; and matching the span again gives the
    span. *)
Theorem match_json_first_to_last (text : jsstring) :
  (∀ span, match_json text = Some span ↔
     ∃ pre body post,
       text = pre ++ (123 :: body) ++ (125 :: post)
       ∧ (123 ∉ pre) ∧ (125 ∉ post) ∧ span = (123 :: body) ++ [125])
  ∧ (match_json text = None ↔
       (123 ∉ text)
       ∨ ∃ pre rest, text = pre ++ (123 :: rest) ∧ (123 ∉ pre) ∧ (125 ∉ rest))
  ∧ (∀ span, match_json text = Some span → match_json span = Some span).
Proof.
  split; [exact (match_json_spec text)|]. split; [exact (match_json_none text)|].
  intros span H. apply match_json_spec in H as (pre & body & post & _ & _ & _ & ->).
  apply match_json_spec. exists [], body, []. repeat split.
  - apply not_elem_of_nil.
  - apply not_elem_of_nil.
Qed.

(** ** Category mapping *)

Lemma includes_unfold s t :
  includes s t = starts_with t s || match s with [] => false | _ :: s' => includes s' t end.
Proof. destruct s; reflexivity. Qed.

Lemma starts_with_spec t s : starts_with t s = true ↔ ∃ post, s = t ++ post.
Proof.
  revert s. induction t as [|x t IH]; intros s; simpl.
  - split; eauto.
  - destruct s as [|y s]; [split; [discriminate | intros [post [=]]]|].
    rewrite andb_true_iff, N.eqb_eq, IH. split.
    + intros [-> [post ->]]. eauto.
    + intros [post [= -> ->]]. eauto.
Qed.

Lemma includes_spec s t : includes s t = true ↔ ∃ pre post, s = pre ++ t ++ post.
Proof.
  induction s as [|c s IH]; rewrite includes_unfold, orb_true_iff, starts_with_spec.
  - split.
    + intros [[post H]|H]; [exists [], post; exact H | discriminate].
    + intros (pre & post & H). left. destruct pre as [|? ?]; [eauto | discriminate].
  - rewrite IH. split.
    + intros [[post H]|(pre & post & H)].
      * exists [], post. exact H.
      * exists (c :: pre), post. simpl. now rewrite H.
    + intros (pre & post & H). destruct pre as [|c' pre].
      * left. eauto.
      * right. injection H as -> ->. eauto.
Qed.

Lemma is_low_surrogate_ascii d : d < 128 → is_low_surrogate d = false.
Proof.
  intros Hd. unfold is_low_surrogate.
  replace (56320 <=? d) with false by (symmetry; apply N.leb_gt; lia). reflexivity.
Qed.

Lemma is_ascii_upper_low c : is_ascii_upper c = true → c < 128.
Proof.
  unfold is_ascii_upper. rewrite andb_true_iff, !N.leb_le. lia.
Qed.

(** Lower-casing goes through an ASCII stretch letter by letter. *)
Lemma toLowerCase_from_ascii before w post :
  is_ascii w →
  toLowerCase_from before (w ++ post)
  = map ascii_lower w ++ toLowerCase_from (before ++ w) post.
Proof.
  intros Hw. revert before. induction Hw as [|c w Hc Hw IH]; intros before.
  - simpl. now rewrite app_nil_r.
  - simpl. unfold ascii_lower at 1.
    replace (before ++ c :: w) with ((before ++ [c]) ++ w) by now rewrite <- app_assoc.
    destruct (is_ascii_upper c); [now rewrite IH|].
    replace (c <? 128) with true by (symmetry; now apply N.ltb_lt).
    now rewrite IH.
Qed.

(** What comes before a code unit below 128 is lower-cased on its own. *)
Lemma toLowerCase_from_prefix n : ∀ pre before s,
  (length pre <= n)%nat →
  match s with d :: _ => d < 128 | [] => True end →
  ∃ lowered, toLowerCase_from before (pre ++ s)
             = lowered ++ toLowerCase_from (before ++ pre) s.
Proof.
  induction n as [|n IH]; intros pre before s Hn Hs.
  - destruct pre; [|simpl in Hn; lia]. exists []. now rewrite app_nil_r.
  - destruct pre as [|c pre]; [exists []; now rewrite app_nil_r|].
    simpl in Hn.
    assert (Hone : ∃ lowered, toLowerCase_from (before ++ [c]) (pre ++ s)
                     = lowered ++ toLowerCase_from (before ++ c :: pre) s).
    { destruct (IH pre (before ++ [c]) s) as [l Hl]; [lia | exact Hs|].
      exists l. now rewrite Hl, <- app_assoc. }
    destruct Hone as [l1 H1]. simpl.
    destruct (is_ascii_upper c); [exists ((c + 32) :: l1); now rewrite H1|].
    destruct (c <? 128); [exists (c :: l1); now rewrite H1|].
    destruct pre as [|d pre]; simpl.
    + destruct s as [|d s].
      * exists (unicode_lower before c []). simpl. now rewrite app_nil_r.
      * rewrite (is_low_surrogate_ascii d Hs), andb_false_r.
        exists (unicode_lower before c (d :: s)). reflexivity.
    + destruct (is_high_surrogate c && is_low_surrogate d).
      * destruct (IH pre (before ++ [c; d]) s) as [l2 H2]; [simpl in Hn; lia | exact Hs|].
        exists (unicode_lower before (code_point c d) (pre ++ s) ++ l2).
        rewrite H2, <- !app_assoc. reflexivity.
      * exists (unicode_lower before c (d :: pre ++ s) ++ l1).
        simpl in H1. rewrite H1, <- app_assoc. reflexivity.
Qed.

Lemma swap_lower c :
  is_ascii_lower c = true →
  ascii_lower c = c ∧ ascii_lower (swap_ascii_case c) = c
  ∧ c < 128 ∧ swap_ascii_case c < 128.
Proof.
  unfold ascii_lower, swap_ascii_case, is_ascii_upper. intros H. rewrite H.
  unfold is_ascii_lower in H. apply andb_true_iff in H as [H1 H2].
  apply N.leb_le in H1, H2.
  replace (c <=? 90) with false by (symmetry; apply N.leb_gt; lia).
  rewrite andb_false_r.
  replace (65 <=? c - 32) with true by (symmetry; apply N.leb_le; lia).
  replace (c - 32 <=? 90) with true by (symmetry; apply N.leb_le; lia).
  simpl. repeat split; lia.
Qed.

Lemma recase_lower_word mask w :
  lower_word w → map ascii_lower (recase mask w) = w ∧ is_ascii (recase mask w).
Proof.
  intros Hw. revert mask. induction Hw as [|c w Hc Hw IH]; intros mask.
  - destruct mask; split; (reflexivity || constructor).
  - destruct (swap_lower c Hc) as (H1 & H2 & H3 & H4).
    destruct mask as [|b mask]; simpl.
    + destruct (IH []) as [IH1 IH2]. destruct w; simpl in *.
      * rewrite H1. split; [reflexivity | now repeat constructor].
      * rewrite H1, IH1. split; [reflexivity | now constructor].
    + destruct (IH mask) as [IH1 IH2]. rewrite IH1.
      destruct b; [rewrite H2 | rewrite H1]; split; try reflexivity; now constructor.
Qed.

Lemma lower_preimage w : ∀ m,
  lower_word w → map ascii_lower m = w → ∃ mask, m = recase mask w.
Proof.
  induction w as [|l w IH]; intros m Hw Hm.
  - destruct m; [|discriminate]. exists []. reflexivity.
  - destruct m as [|c m]; [discriminate|]. injection Hm as Hc Hm.
    apply Forall_cons in Hw as [Hl Hw]. destruct (IH m Hw Hm) as [mask ->].
    unfold ascii_lower in Hc. destruct (is_ascii_upper c) eqn:Hu.
    + exists (true :: mask). simpl. f_equal.
      unfold swap_ascii_case. rewrite Hl.
      unfold is_ascii_upper in Hu. apply andb_true_iff in Hu as [Hu1 Hu2].
      apply N.leb_le in Hu1, Hu2. lia.
    + exists (false :: mask). simpl. now rewrite Hc.
Qed.

(** A word of lower-case letters that the category holds in any case is
    found in the lower-cased category, wherever it stands. *)
Lemma includes_mentioned category w :
  lower_word w → w ≠ [] → mentions category w →
  includes (toLowerCase category) w = true.
Proof.
  intros Hw Hne (pre & mask & post & ->).
  destruct (recase_lower_word mask w Hw) as [Hlow Hascii].
  unfold toLowerCase.
  destruct (toLowerCase_from_prefix (length pre) pre [] (recase mask w ++ post))
    as [lowered H]; [lia| |].
  - destruct (recase mask w) as [|d m] eqn:Hm; [simpl in Hlow; congruence|].
    simpl. now apply Forall_cons in Hascii as [Hd _].
  - rewrite H, toLowerCase_from_ascii, Hlow by exact Hascii.
    apply includes_spec. eauto.
Qed.

Lemma includes_ascii_mentions category w :
  is_ascii category → lower_word w → w ≠ [] →
  includes (toLowerCase category) w = true ↔ mentions category w.
Proof.
  intros Hc Hw Hne. split; [|now apply includes_mentioned].
  unfold toLowerCase.
  rewrite <- (app_nil_r category) at 1. rewrite toLowerCase_from_ascii by exact Hc.
  simpl. rewrite app_nil_r. intros H.
  apply includes_spec in H as (lpre & lpost & H).
  apply map_eq_app in H as (pre & rest & -> & _ & H).
  apply map_eq_app in H as (m & post & -> & Hm & _).
  destruct (lower_preimage w m Hw Hm) as [mask ->].
  exists pre, mask, post. reflexivity.
Qed.

Lemma mapCategory_chain category :
  mapCategory category =
    let cat := toLowerCase category in
    if includes cat (js "security") then security
    else if includes cat (js "performance") then performance
    else if includes cat (js "bug") then bugs
    else if includes cat (js "maintain") then maintainability
    else if includes cat (js "doc") then documentation
    else if includes cat (js "style") then style
    else best_practices.
Proof.
  unfold mapCategory. destruct (str_eqb category []) eqn:E; [|reflexivity].
  apply str_eqb_eq in E. subst category. reflexivity.
Qed.

Lemma lower_word_js_dec (w : jsstring) :
  forallb is_ascii_lower w = true → lower_word w.
Proof. intros H. apply Forall_forall. intros c Hc. rewrite forallb_forall in H. apply H. now apply list_elem_of_In. Qed.

(** X2: a category text that holds the word [security], its letters in any
    case, is mapped to [security], whatever stands before and after it:
    other keywords, or text outside ASCII. *)
Theorem mapCategory_security_first (pre post : jsstring) (mask : list bool) :
  mapCategory (pre ++ recase mask (js "security") ++ post) = security.
Proof.
  rewrite mapCategory_chain. cbv zeta.
  rewrite includes_mentioned; [reflexivity | now apply lower_word_js_dec | discriminate|].
  exists pre, mask, post. reflexivity.
Qed.

(** X3: for a category text of ASCII characters, the category is decided by
    the first of the keywords [security], [performance], [bug],
    [maintain], [doc], [style], in this order, that the text holds
    somewhere with its letters in any case; a text that holds none of them
    is mapped to [best-practices]. *)
Theorem mapCategory_ascii_priority (category : jsstring) :
  is_ascii category →
  (mapCategory category = security ↔ mentions category (js "security"))
  ∧ (mapCategory category = performance ↔
       ¬ mentions category (js "security") ∧ mentions category (js "performance"))
  ∧ (mapCategory category = bugs ↔
       ¬ mentions category (js "security") ∧ ¬ mentions category (js "performance")
       ∧ mentions category (js "bug"))
  ∧ (mapCategory category = maintainability ↔
       ¬ mentions category (js "security") ∧ ¬ mentions category (js "performance")
       ∧ ¬ mentions category (js "bug") ∧ mentions category (js "maintain"))
  ∧ (mapCategory category = documentation ↔
       ¬ mentions category (js "security") ∧ ¬ mentions category (js "performance")
       ∧ ¬ mentions category (js "bug") ∧ ¬ mentions category (js "maintain")
       ∧ mentions category (js "doc"))
  ∧ (mapCategory category = style ↔
       ¬ mentions category (js "security") ∧ ¬ mentions category (js "performance")
       ∧ ¬ mentions category (js "bug") ∧ ¬ mentions category (js "maintain")
       ∧ ¬ mentions category (js "doc") ∧ mentions category (js "style"))
  ∧ (mapCategory category = best_practices ↔
       ¬ mentions category (js "security") ∧ ¬ mentions category (js "performance")
       ∧ ¬ mentions category (js "bug") ∧ ¬ mentions category (js "maintain")
       ∧ ¬ mentions category (js "doc") ∧ ¬ mentions category (js "style")).
Proof.
  intros Hc. rewrite mapCategory_chain. cbv zeta.
  rewrite <- (includes_ascii_mentions category (js "security") Hc)
    by (now apply lower_word_js_dec || discriminate).
  rewrite <- (includes_ascii_mentions category (js "performance") Hc)
    by (now apply lower_word_js_dec || discriminate).
  rewrite <- (includes_ascii_mentions category (js "bug") Hc)
    by (now apply lower_word_js_dec || discriminate).
  rewrite <- (includes_ascii_mentions category (js "maintain") Hc)
    by (now apply lower_word_js_dec || discriminate).
  rewrite <- (includes_ascii_mentions category (js "doc") Hc)
    by (now apply lower_word_js_dec || discriminate).
  rewrite <- (includes_ascii_mentions category (js "style") Hc)
    by (now apply lower_word_js_dec || discriminate).
  destruct (includes (toLowerCase category) (js "security")),
           (includes (toLowerCase category) (js "performance")),
           (includes (toLowerCase category) (js "bug")),
           (includes (toLowerCase category) (js "maintain")),
           (includes (toLowerCase category) (js "doc")),
           (includes (toLowerCase category) (js "style"));
    repeat split; try discriminate; try tauto; intros; intuition discriminate.
Qed.

(** ** Normalizing the issues *)

Lemma mapSeverity_INFO : mapSeverity (js "INFO") = info.
Proof. reflexivity. Qed.

Lemma truthy_non_string_intro j :
  json_truthy j = true → (∀ s, j ≠ JString s) → truthy_non_string (Some j).
Proof. intros Hj Hs. exists j. auto. Qed.

Lemma call_mapSeverity_cases v :
  (¬ truthy_non_string v
   ∧ ∃ s, call_mapSeverity (js_or_default v (JString (js "INFO"))) = inr s)
  ∨ (truthy_non_string v
     ∧ call_mapSeverity (js_or_default v (JString (js "INFO"))) = inl TypeError).
Proof.
  destruct v as [j|]; simpl.
  - destruct (json_truthy j) eqn:Hj.
    + destruct j as [|b|n|s|l|o];
        try (right; split; [apply truthy_non_string_intro; [exact Hj | congruence]
                           | reflexivity]).
      left. split; [intros (j & [= <-] & _ & Hs); now apply (Hs s) | eauto].
    + left. split; [intros (j' & [= <-] & Ht & _); congruence | eauto].
  - left. split; [intros (j & [=] & _) | eauto].
Qed.

Lemma call_mapCategory_cases v :
  (¬ truthy_non_string v
   ∧ ∃ c, call_mapCategory (js_or_default v (JString [])) = inr c)
  ∨ (truthy_non_string v
     ∧ call_mapCategory (js_or_default v (JString [])) = inl TypeError).
Proof.
  destruct v as [j|]; simpl.
  - destruct (json_truthy j) eqn:Hj.
    + unfold call_mapCategory. rewrite Hj. simpl.
      destruct j as [|b|n|s|l|o];
        try (right; split; [apply truthy_non_string_intro; [exact Hj | congruence]
                           | reflexivity]).
      left. split; [intros (j & [= <-] & _ & Hs); now apply (Hs s) | eauto].
    + left. split; [intros (j' & [= <-] & Ht & _); congruence | eauto].
  - left. split; [intros (j & [=] & _) | eauto].
Qed.

Lemma normalizeIssue_object o :
  normalizeIssue (JObject o)
  = let* sev := call_mapSeverity
                  (js_or_default (o !! js "severity") (JString (js "INFO"))) in
    let* cat := call_mapCategory (js_or_default (o !! js "category") (JString [])) in
    ret {| ruleId := js_or_default (o !! js "ruleId") (JString (js "general"));
           severity := sev;
           category := cat;
           filePath := js_or_default (js_or (o !! js "file") (o !! js "filePath"))
                         (JString (js "unknown"));
           line := o !! js "line";
           message := js_or (o !! js "description") (o !! js "message");
           suggestion := js_or (o !! js "recommendation") (o !! js "suggestion");
           impact := o !! js "impact" |}.
Proof.
  unfold normalizeIssue. rewrite !get_object. simpl.
  destruct (call_mapSeverity _); [reflexivity|]. simpl.
  destruct (call_mapCategory _); reflexivity.
Qed.

(** X4: normalizing an element of the issue array throws exactly when the
    element is [null], or is an object whose [severity] or [category] is a
    truthy value that is no string (a number, [true], an array, an object);
    what it throws is a [TypeError].  An element that is neither an object
    nor [null] is normalized to the issue of all defaults. *)
Theorem normalizeIssue_throws_iff (issue : JSON) :
  (∀ e, normalizeIssue issue = inl e ↔
     e = TypeError
     ∧ (issue = JNull
        ∨ ∃ o, issue = JObject o
               ∧ (truthy_non_string (o !! js "severity")
                  ∨ truthy_non_string (o !! js "category"))))
  ∧ match issue with
    | JNull | JObject _ => True
    | _ => normalizeIssue issue = inr default_issue
    end.
Proof.
  destruct issue as [|b|n|s|l|o].
  - split; [|exact I]. intros e. split.
    + intros [= <-]. split; [reflexivity | now left].
    + intros [-> _]. reflexivity.
  - split; [|reflexivity]. intros e. split; [discriminate|].
    intros [_ [|(o & ? & _)]]; discriminate.
  - split; [|reflexivity]. intros e. split; [discriminate|].
    intros [_ [|(o & ? & _)]]; discriminate.
  - split; [|reflexivity]. intros e. split; [discriminate|].
    intros [_ [|(o & ? & _)]]; discriminate.
  - split; [|reflexivity]. intros e. split; [discriminate|].
    intros [_ [|(o & ? & _)]]; discriminate.
  - split; [|exact I]. intros e. rewrite normalizeIssue_object.
    destruct (call_mapSeverity_cases (o !! js "severity")) as [[Hs [s ->]]|[Hs ->]];
      simpl.
    + destruct (call_mapCategory_cases (o !! js "category")) as [[Hc [c ->]]|[Hc ->]];
        simpl.
      * split; [discriminate|].
        intros [_ [|(o' & [= <-] & [?|?])]]; [discriminate | tauto | tauto].
      * split; [intros [= <-]|intros [-> _]; reflexivity].
        split; [reflexivity|]. right. exists o. tauto.
    + split; [intros [= <-]|intros [-> _]; reflexivity].
      split; [reflexivity|]. right. exists o. tauto.
Qed.

Lemma mapM_inl {A B} (f : A → result B) l a e :
  a ∈ l → f a = inl e → ∃ e', mapM f l = inl e'.
Proof.
  induction l as [|b l IH]; intros Hin Hf; [now apply elem_of_nil in Hin|].
  simpl. apply elem_of_cons in Hin as [<-|Hin].
  - rewrite Hf. simpl. eauto.
  - destruct (f b); simpl; [eauto|].
    destruct (IH Hin Hf) as [e' ->]. simpl. eauto.
Qed.

Lemma mapM_returns {A B} (f : A → result B) l :
  (∀ a, a ∈ l → ∃ b, f a = inr b) →
  ∃ bs, mapM f l = inr bs ∧ Forall2 (fun a b => f a = inr b) l bs.
Proof.
  induction l as [|a l IH]; intros H; simpl.
  - exists []. split; [reflexivity | constructor].
  - destruct (H a) as [b Hb]; [now left|].
    destruct IH as (bs & Hbs & Hall); [intros a' Ha'; apply H; now right|].
    rewrite Hb, Hbs. simpl. exists (b :: bs). split; [reflexivity | now constructor].
Qed.

(** X5: when the matched span parses to an object whose [issues] is an
    array, the issues are normalized all or none.  If normalizing one
    element throws, the empty results are returned: the other issues and
    the reviewed files are gone with it.  If every element is normalized,
    the issue list holds the normalized elements, one for one and in the
    order of the array, and the reviewed files are those of the object. *)
Theorem parseResults_all_or_nothing
    (text span : jsstring) (o : gmap jsstring JSON) (l : list JSON) :
  match_json text = Some span →
  JSON_parse span = Some (JObject o) →
  o !! js "issues" = Some (JArray l) →
  ((∃ issue e, issue ∈ l ∧ normalizeIssue issue = inl e) →
     parseResults text = empty_results)
  ∧ ((∀ issue, issue ∈ l → ∃ ri, normalizeIssue issue = inr ri) →
       Forall2 (fun issue ri => normalizeIssue issue = inr ri)
               l (parsed_issues (parseResults text))
       ∧ parsed_filesReviewed (parseResults text)
         = js_or_default (o !! js "filesReviewed") (JArray [])).
Proof.
  intros Hm Hp Hi. unfold parseResults, parseResults_try.
  rewrite Hm, Hp. simpl. rewrite Hi. simpl. split.
  - intros (issue & e & Hin & He).
    destruct (mapM_inl normalizeIssue l issue e Hin He) as [e' ->]. reflexivity.
  - intros Hall. destruct (mapM_returns normalizeIssue l Hall) as (bs & -> & HF).
    simpl. split; [exact HF | reflexivity].
Qed.

(** ** Counting *)

(** X6: the seven counters of [countByCategory] add up to the number of
    issues: every issue is counted once, under its category. *)
Theorem countByCategory_total (issues : list ReviewIssue) :
  (countByCategory issues security + countByCategory issues performance
   + countByCategory issues bugs + countByCategory issues best_practices
   + countByCategory issues maintainability + countByCategory issues documentation
   + countByCategory issues style)%nat
  = length issues.
Proof.
  rewrite !countByCategory_spec.
  induction issues as [|i issues IH]; [reflexivity|].
  rewrite !filter_cons. simpl length. rewrite <- IH.
  destruct (category i); simpl;
    repeat match goal with |- context [decide ?P] => destruct (decide P) end;
    simpl; try congruence; lia.
Qed.

(** ** Threshold and status *)

(** X7: filtering by severity composes: filtering twice is filtering once,
    two thresholds can be applied in either order, after the higher of two
    thresholds the lower one removes nothing more, and the filtered list is
    the issue list with some issues left out, the others in their order. *)
Theorem filterIssuesBySeverity_compose (c c' : ReviewConfig) (issues : list ReviewIssue) :
  filterIssuesBySeverity c (filterIssuesBySeverity c issues)
  = filterIssuesBySeverity c issues
  ∧ filterIssuesBySeverity c (filterIssuesBySeverity c' issues)
    = filterIssuesBySeverity c' (filterIssuesBySeverity c issues)
  ∧ ((threshold_rank (severityThreshold c) <= threshold_rank (severityThreshold c'))%nat →
       filterIssuesBySeverity c (filterIssuesBySeverity c' issues)
       = filterIssuesBySeverity c' issues)
  ∧ filterIssuesBySeverity c issues `sublist_of` issues.
Proof.
  rewrite !filterIssuesBySeverity_as_rank, !list_filter_filter.
  split; [|split; [|split]].
  - apply list_filter_iff. intros i. tauto.
  - apply list_filter_iff. intros i. tauto.
  - intros Hle. apply list_filter_iff. intros i. lia.
  - apply sublist_filter.
Qed.

Lemma filter_all {A} (P : A → Prop) `{∀ x, Decision (P x)} (l : list A) :
  (∀ x, x ∈ l → P x) → filter P l = l.
Proof.
  induction l as [|a l IH]; intros Hall; [reflexivity|].
  rewrite filter_cons. destruct (decide (P a)) as [_|Hn].
  - f_equal. apply IH. intros x Hx. apply Hall. now right.
  - contradict Hn. apply Hall. now left.
Qed.

Lemma filter_none {A} (P : A → Prop) `{∀ x, Decision (P x)} (l : list A) :
  (∀ x, x ∈ l → ¬ P x) → filter P l = [].
Proof.
  induction l as [|a l IH]; intros Hall; [reflexivity|].
  rewrite filter_cons. destruct (decide (P a)) as [Hp|_].
  - contradict Hp. apply Hall. now left.
  - apply IH. intros x Hx. apply Hall. now right.
Qed.

Lemma some_severity_filtered c s issues :
  (threshold_rank (severityThreshold c) <= severity_rank s)%nat →
  some_severity s (filterIssuesBySeverity c issues) = some_severity s issues.
Proof.
  intros Hle. apply eq_true_iff_eq. rewrite !some_severity_spec.
  rewrite filterIssuesBySeverity_as_rank.
  split; intros (i & Hin & Hs); exists i.
  - apply list_elem_of_filter in Hin as [_ Hin]. auto.
  - split; [|exact Hs]. apply list_elem_of_filter. split; [|exact Hin].
    now rewrite Hs.
Qed.

Lemma filterIssuesBySeverity_critical_nil c issues :
  severityThreshold c = Some critical → determineStatus issues ≠ failure →
  filterIssuesBySeverity c issues = [].
Proof.
  intros Hc Hnf. unfold determineStatus in Hnf.
  assert (Hnone : some_severity critical issues = false).
  { destruct (some_severity critical issues); [now contradict Hnf | reflexivity]. }
  rewrite some_severity_none in Hnone.
  rewrite (filterIssuesBySeverity_rank c critical issues Hc).
  apply filter_none. intros i Hin Hr.
  apply (Hnone i Hin). destruct (severity i); simpl in Hr; (reflexivity || lia).
Qed.

(** X8: under no threshold and under the thresholds [info], [warning] and
    [error], the status of the filtered list is the status of the whole
    list.  Under the threshold [critical] the filtered list of a review
    that is no [failure] is empty, also when the status is [partial]; and a
    [failure] stays one. *)
Theorem filterIssuesBySeverity_status (c : ReviewConfig) (issues : list ReviewIssue) :
  (severityThreshold c ≠ Some critical →
     determineStatus (filterIssuesBySeverity c issues) = determineStatus issues)
  ∧ (severityThreshold c = Some critical →
       (determineStatus issues = failure →
          determineStatus (filterIssuesBySeverity c issues) = failure)
       ∧ (determineStatus issues ≠ failure → filterIssuesBySeverity c issues = []))
  ∧ (severityThreshold c = None ∨ severityThreshold c = Some info →
       filterIssuesBySeverity c issues = issues).
Proof.
  split; [|split].
  - intros Hc. unfold determineStatus.
    rewrite !some_severity_filtered; [reflexivity| |];
      destruct (severityThreshold c) as [[]|]; simpl; try lia; congruence.
  - intros Hc. unfold determineStatus. split.
    + rewrite (some_severity_filtered c critical) by (rewrite Hc; simpl; lia).
      destruct (some_severity critical issues); [reflexivity|].
      destruct (some_severity error issues); discriminate.
    + now apply filterIssuesBySeverity_critical_nil.
  - intros Hc. rewrite filterIssuesBySeverity_as_rank.
    apply filter_all. intros i _. destruct Hc as [-> | ->]; simpl; lia.
Qed.

(** ** The session loop and [review] *)

Lemma last_of_snoc {A} (f : SDKMessage → option A) msgs m :
  last_of f (msgs ++ [m])
  = match f m with Some x => Some x | None => last_of f msgs end.
Proof.
  unfold last_of. rewrite omap_app. simpl. destruct (f m) as [x|].
  - apply last_snoc.
  - now rewrite app_nil_r.
Qed.

Lemma fold_consume msgs st0 :
  let st := fold_left consume msgs st0 in
  resultText st = default (resultText st0) (last_of (of_result msg_result_text) msgs)
  ∧ cost st = default (cost st0) (last_of (of_result msg_total_cost_usd) msgs)
  ∧ duration st = default (duration st0) (last_of (of_result msg_duration_ms) msgs)
  ∧ seen_sessionId st
    = match last_of (of_system msg_session_id) msgs with
      | Some sid => Some sid
      | None => seen_sessionId st0
      end.
Proof.
  induction msgs as [|m msgs IH] using rev_ind; [now repeat split|].
  rewrite fold_left_app, !last_of_snoc. cbn [fold_left].
  cbv zeta in IH. destruct IH as (H1 & H2 & H3 & H4).
  set (st := fold_left consume msgs st0) in *.
  unfold consume, of_result, of_system.
  destruct (msg_type m); destruct (msg_session_id m); cbn;
    try (now repeat split);
    repeat split; try assumption;
    try (destruct (msg_result_text m); [reflexivity | exact H1]);
    try (destruct (msg_total_cost_usd m); [reflexivity | exact H2]);
    try (destruct (msg_duration_ms m); [reflexivity | exact H3]).
Qed.

(** X9: of the messages of the stream the loop keeps the last: the result
    text, the cost and the duration are those of the last result message
    that carries the field (the empty text and zero if there is none), and
    the session id is that of the last system message that carries one (the
    id the agent had before if there is none). *)
Theorem run_session_last_wins (agent : CodeReviewAgent) (stream : Stream) :
  resultText (run_session agent stream)
  = default [] (last_of (of_result msg_result_text) (messages stream))
  ∧ cost (run_session agent stream)
    = default (Finite 0) (last_of (of_result msg_total_cost_usd) (messages stream))
  ∧ duration (run_session agent stream)
    = default (Finite 0) (last_of (of_result msg_duration_ms) (messages stream))
  ∧ seen_sessionId (run_session agent stream)
    = match last_of (of_system msg_session_id) (messages stream) with
      | Some sid => Some sid
      | None => sessionId agent
      end.
Proof. exact (fold_consume (messages stream) _). Qed.

(** What [review] returns when it returns. *)
Lemma review_returns_shape query t0 t1 agent target r :
  (review query t0 t1 agent target).1.1 = inr r →
  let stream := query (buildPrompt (config agent) target) (buildOptions (config agent)) in
  let st := run_session agent stream in
  let parsed := parseResults (resultText st) in
  stream_failure stream = None
  ∧ buildSummary (parsed_issues parsed) (parsed_filesReviewed parsed)
      (parsed_prIntent parsed) = inr (res_summary r)
  ∧ res_status r = determineStatus (parsed_issues parsed)
  ∧ res_issues r = filterIssuesBySeverity (config agent) (parsed_issues parsed)
  ∧ res_filesReviewed r = parsed_filesReviewed parsed
  ∧ js_length (parsed_filesReviewed parsed) = inr (totalFiles (res_stats r))
  ∧ totalIssues (res_stats r) = length (parsed_issues parsed)
  ∧ issuesBySeverity (res_stats r) = countBySeverity (parsed_issues parsed)
  ∧ issuesByCategory (res_stats r) = countByCategory (parsed_issues parsed)
  ∧ totalCostUsd (res_stats r) = cost st
  ∧ durationMs (res_stats r) = duration st
  ∧ meta_sessionId (res_metadata r)
    = (if str_truthy (seen_sessionId st) then text_of (seen_sessionId st)
       else js "unknown")
  ∧ meta_config (res_metadata r) = config agent.
Proof.
  intros H. cbv zeta. unfold review in H. cbn [fst snd] in H.
  set (stream := query (buildPrompt (config agent) target)
                       (buildOptions (config agent))) in *.
  set (st := run_session agent stream) in *.
  set (parsed := parseResults (resultText st)) in *.
  destruct (stream_failure stream); [discriminate|].
  apply bind_inr in H as (summary & Hs & H).
  apply bind_inr in H as (files & Hf & H).
  injection H as <-.
  cbn [res_status res_summary res_issues res_filesReviewed res_stats res_metadata
       totalFiles totalIssues issuesBySeverity issuesByCategory totalCostUsd
       durationMs meta_sessionId meta_config].
  repeat (split; [first [reflexivity | assumption]|]). reflexivity.
Qed.

(** X10: after [review], whether it returned or threw, the agent holds the
    session id of the last system message of the stream that carries one,
    or the id it held before if there is none, and its configuration is
    unchanged; a failure of the stream is thrown on as it is; and the
    metadata of a returned result name that session id, or [unknown] if
    there is none or it is the empty string. *)
Theorem review_session_id
    (query : jsstring → Options → Stream) (start_time end_time : jsstring)
    (agent : CodeReviewAgent) (target : jsstring) :
  let stream := query (buildPrompt (config agent) target) (buildOptions (config agent)) in
  let outcome := (review query start_time end_time agent target).1.1 in
  let agent' := (review query start_time end_time agent target).1.2 in
  let id := match last_of (of_system msg_session_id) (messages stream) with
            | Some sid => Some sid
            | None => getSessionId agent
            end in
  getSessionId agent' = id
  ∧ config agent' = config agent
  ∧ (∀ e, stream_failure stream = Some e → outcome = inl e)
  ∧ (∀ r, outcome = inr r →
       meta_sessionId (res_metadata r)
       = match id with
         | Some sid => if str_eqb sid [] then js "unknown" else sid
         | None => js "unknown"
         end).
Proof.
  cbv zeta.
  destruct (fold_consume
              (messages (query (buildPrompt (config agent) target)
                               (buildOptions (config agent))))
              {| seen_sessionId := sessionId agent; resultText := [];
                 cost := Finite 0; duration := Finite 0 |}) as (_ & _ & _ & Hid).
  cbn [seen_sessionId] in Hid. fold (run_session agent
    (query (buildPrompt (config agent) target) (buildOptions (config agent)))) in Hid.
  split; [exact Hid|]. split; [reflexivity|]. split.
  - intros e He. unfold review. cbn [fst snd]. now rewrite He.
  - intros r Hr. apply review_returns_shape in Hr.
    cbv zeta in Hr. destruct Hr as (_ & _ & _ & _ & _ & _ & _ & _ & _ & _ & _ & Hm & _).
    rewrite Hm. unfold getSessionId. rewrite Hid.
    destruct (last_of _ _) as [sid|]; simpl.
    + destruct (str_eqb sid []); reflexivity.
    + destruct (sessionId agent) as [sid|]; simpl; [|reflexivity].
      destruct (str_eqb sid []); reflexivity.
Qed.

Lemma buildSummary_empty :
  buildSummary [] (JArray []) None
  = inr (js "Reviewed " ++ Number_toString (of_nat 0) ++ js " file(s). "
         ++ js "Found " ++ Number_toString (of_nat 0) ++ js " issue(s): "
         ++ Number_toString (of_nat 0) ++ js " critical, "
         ++ Number_toString (of_nat 0) ++ js " errors, "
         ++ Number_toString (of_nat 0) ++ js " warnings.").
Proof. reflexivity. Qed.

Lemma filterIssuesBySeverity_nil c : filterIssuesBySeverity c [] = [].
Proof. unfold filterIssuesBySeverity. now destruct (severityThreshold c). Qed.

(** X11: when the stream ends without an exception and the answer of the
    agent gives the empty results (no result message, no braces, no valid
    JSON, or an exception while normalizing), [review] returns, and it
    reports a successful review: status [success], no issues, all counts
    zero, no reviewed files, and the summary of a review that found
    nothing. *)
Theorem review_unparsed_is_success
    (query : jsstring → Options → Stream) (start_time end_time : jsstring)
    (agent : CodeReviewAgent) (target : jsstring) :
  stream_failure (query (buildPrompt (config agent) target)
                        (buildOptions (config agent))) = None →
  parseResults (reviewed_text query agent target) = empty_results →
  ∃ r, (review query start_time end_time agent target).1.1 = inr r
       ∧ res_status r = success
       ∧ res_issues r = []
       ∧ totalIssues (res_stats r) = 0%nat
       ∧ (∀ s, issuesBySeverity (res_stats r) s = 0%nat)
       ∧ (∀ c, issuesByCategory (res_stats r) c = 0%nat)
       ∧ res_filesReviewed r = JArray []
       ∧ totalFiles (res_stats r) = Some (JNumber (of_nat 0))
       ∧ res_summary r
         = js "Reviewed " ++ Number_toString (of_nat 0) ++ js " file(s). "
           ++ js "Found " ++ Number_toString (of_nat 0) ++ js " issue(s): "
           ++ Number_toString (of_nat 0) ++ js " critical, "
           ++ Number_toString (of_nat 0) ++ js " errors, "
           ++ Number_toString (of_nat 0) ++ js " warnings.".
Proof.
  intros Hs Hp. unfold reviewed_text in Hp. unfold review. cbn [fst snd].
  rewrite Hs, Hp.
  cbn [parsed_issues parsed_filesReviewed parsed_prIntent empty_results].
  rewrite buildSummary_empty. cbn [bind js_length ret length].
  rewrite filterIssuesBySeverity_nil.
  eexists. split; [reflexivity|].
  cbn [res_status res_summary res_issues res_filesReviewed res_stats res_metadata
       totalFiles totalIssues issuesBySeverity issuesByCategory].
  repeat split.
Qed.

Lemma some_severity_count s issues :
  some_severity s issues = (0 <? count_severity s issues)%nat.
Proof.
  unfold some_severity, count_severity.
  induction issues as [|i issues IH]; [reflexivity|].
  simpl existsb. rewrite filter_cons, IH.
  destruct (decide (severity i = s)) as [H|H].
  - now rewrite (bool_decide_eq_true_2 _ H).
  - now rewrite (bool_decide_eq_false_2 _ H).
Qed.

Lemma str_eqb_refl a : str_eqb a a = true.
Proof. now apply str_eqb_eq. Qed.

Lemma str_eqb_ne a b : a ≠ b → str_eqb a b = false.
Proof. intros H. apply not_true_iff_false. now rewrite str_eqb_eq. Qed.

(** ** The action: failing the check *)

(** X12: on a result that [review] returned, the condition [shouldFail] of
    the action holds under [fail-on: critical] exactly when the status is
    [failure], under [fail-on: error] exactly when the status is not
    [success], and under [fail-on: warning] exactly when the agent reported
    any issue at all, an [info] issue or one below the severity threshold
    included; under any other value of [fail-on] it never holds; and an
    empty [fail-on] input counts as [critical].  The check itself is failed
    exactly when that condition holds, or the Markdown report throws, or
    posting the comment throws: an exception of these two fails the check
    under every value of [fail-on], and when both succeed the check fails
    exactly on the condition. *)
Theorem shouldFail_by_status
    (show : value → result jsstring) (toFixed : number → nat → jsstring)
    (createComment : jsstring → result unit)
    (query : jsstring → Options → Stream) (start_time end_time : jsstring)
    (agent : CodeReviewAgent) (target : jsstring) (r : ReviewResult) :
  (review query start_time end_time agent target).1.1 = inr r →
  (shouldFail (js "critical") r = true ↔ res_status r = failure)
  ∧ (shouldFail (js "error") r = true ↔ res_status r ≠ success)
  ∧ (shouldFail (js "warning") r = true ↔
       parsed_issues (parseResults (reviewed_text query agent target)) ≠ [])
  ∧ (∀ failOn, failOn ∉ [js "critical"; js "error"; js "warning"] →
       shouldFail failOn r = false)
  ∧ shouldFail (failOn_of []) r = shouldFail (js "critical") r
  ∧ (∀ failOn,
       check_fails show toFixed createComment failOn r = true ↔
         (∃ e, formatReviewResultAsMarkdown show toFixed r = inl e)
         ∨ (∃ markdown e,
              formatReviewResultAsMarkdown show toFixed r = inr markdown
              ∧ createComment (comment_body toFixed markdown r) = inl e)
         ∨ shouldFail failOn r = true)
  ∧ (∀ markdown,
       formatReviewResultAsMarkdown show toFixed r = inr markdown →
       createComment (comment_body toFixed markdown r) = inr () →
       ∀ failOn, check_fails show toFixed createComment failOn r = shouldFail failOn r).
Proof.
  intros Hr. apply review_returns_shape in Hr. cbv zeta in Hr.
  destruct Hr as (_ & _ & Hst & _ & _ & _ & Htot & Hsev & _).
  fold (reviewed_text query agent target) in Hst, Htot, Hsev.
  set (issues := parsed_issues (parseResults (reviewed_text query agent target))) in *.
  assert (Hcond :
    (shouldFail (js "critical") r = true ↔ res_status r = failure)
    ∧ (shouldFail (js "error") r = true ↔ res_status r ≠ success)
    ∧ (shouldFail (js "warning") r = true ↔ issues ≠ [])
    ∧ (∀ failOn, failOn ∉ [js "critical"; js "error"; js "warning"] →
         shouldFail failOn r = false)
    ∧ shouldFail (failOn_of []) r = shouldFail (js "critical") r).
  { unfold shouldFail. rewrite Hsev, Htot, Hst. unfold countBySeverity, determineStatus.
    rewrite <- !some_severity_count.
    split; [|split; [|split; [|split]]].
    - replace (str_eqb (js "critical") (js "critical")) with true by reflexivity.
      replace (str_eqb (js "critical") (js "error")) with false by reflexivity.
      replace (str_eqb (js "critical") (js "warning")) with false by reflexivity.
      destruct (some_severity critical issues), (some_severity error issues);
        simpl; split; (reflexivity || discriminate).
    - replace (str_eqb (js "error") (js "critical")) with false by reflexivity.
      replace (str_eqb (js "error") (js "error")) with true by reflexivity.
      replace (str_eqb (js "error") (js "warning")) with false by reflexivity.
      destruct (some_severity critical issues), (some_severity error issues);
        simpl; split; try reflexivity; try discriminate; congruence.
    - replace (str_eqb (js "warning") (js "critical")) with false by reflexivity.
      replace (str_eqb (js "warning") (js "error")) with false by reflexivity.
      replace (str_eqb (js "warning") (js "warning")) with true by reflexivity.
      simpl. destruct issues; simpl; split; try reflexivity; try discriminate; congruence.
    - intros failOn Hf. rewrite !not_elem_of_cons in Hf.
      destruct Hf as (H1 & H2 & H3 & _). now rewrite !str_eqb_ne.
    - reflexivity. }
  destruct Hcond as (H1 & H2 & H3 & H4 & H5).
  split; [exact H1|]. split; [exact H2|]. split; [exact H3|]. split; [exact H4|].
  split; [exact H5|]. split.
  - intros failOn. unfold check_fails.
    destruct (formatReviewResultAsMarkdown show toFixed r) as [e|markdown].
    + split; [intros _; left; eauto | reflexivity].
    + destruct (createComment (comment_body toFixed markdown r)) as [e|[]] eqn:Hc.
      * split; [intros _; right; left; exists markdown, e; auto | reflexivity].
      * split; [intros H; right; now right|].
        intros [[e [=]]|[(m & e & [= <-] & Hm)|H]]; [congruence | exact H].
  - intros markdown Hm Hc failOn. unfold check_fails. now rewrite Hm, Hc.
Qed.

(** ** Validation *)

Lemma set_and_le_zero_spec x : set_and_le_zero x = true ↔ below_zero x.
Proof.
  unfold set_and_le_zero, below_zero. destruct x as [[|negative|q]|]; simpl.
  - split; [discriminate | intros [[=]|(q & [=] & _)]].
  - split; [intros ->; now left | intros [[= ->]|(q & [=] & _)]; reflexivity].
  - rewrite andb_true_iff, negb_true_iff, <- not_true_iff_false.
    rewrite Qeq_bool_iff, Qle_bool_iff. split.
    + intros [Hne Hle]. right. exists q. split; [reflexivity|].
      apply Qle_lteq in Hle as [Hlt|Heq]; [exact Hlt | contradiction].
    + intros [[=]|(q' & [= <-] & Hlt)]. split.
      * intros Heq. rewrite Heq in Hlt. exact (Qlt_irrefl 0 Hlt).
      * now apply Qlt_le_weak.
  - split; [discriminate | intros [[=]|(q & [=] & _)]].
Qed.

Lemma not_below_zero x : ¬ below_zero x → set_and_le_zero x = false.
Proof. rewrite <- set_and_le_zero_spec. now destruct (set_and_le_zero x). Qed.

(** X13: validation accepts a configuration exactly when neither bound is
    a number below zero and the API key is set and not empty: zero, [NaN],
    [Infinity] and an absent bound all pass.  A [maxFiles] below zero is
    reported first, then a [maxBudgetUsd] below zero, then the missing key;
    and after a validation that passed, [getApiKey] returns the key. *)
Theorem validateConfig_exact (env : ProcessEnv) (c : ReviewConfig) :
  (validateConfig env c = inr () ↔
     ¬ below_zero (maxFiles c) ∧ ¬ below_zero (maxBudgetUsd c)
     ∧ str_truthy (ANTHROPIC_API_KEY env) = true)
  ∧ (below_zero (maxFiles c) →
       validateConfig env c = inl (Error (js "maxFiles must be greater than 0")))
  ∧ (¬ below_zero (maxFiles c) → below_zero (maxBudgetUsd c) →
       validateConfig env c = inl (Error (js "maxBudgetUsd must be greater than 0")))
  ∧ (¬ below_zero (maxFiles c) → ¬ below_zero (maxBudgetUsd c) →
     str_truthy (ANTHROPIC_API_KEY env) = false →
       validateConfig env c
       = inl (Error (js "ANTHROPIC_API_KEY environment variable is required"))
       ∧ getApiKey env = inl (Error (js "ANTHROPIC_API_KEY environment variable is required")))
  ∧ (validateConfig env c = inr () →
       ∃ apiKey, getApiKey env = inr apiKey
                 ∧ ANTHROPIC_API_KEY env = Some apiKey ∧ apiKey ≠ []).
Proof.
  assert (Hok : validateConfig env c = inr () ↔
     ¬ below_zero (maxFiles c) ∧ ¬ below_zero (maxBudgetUsd c)
     ∧ str_truthy (ANTHROPIC_API_KEY env) = true).
  { rewrite <- !set_and_le_zero_spec. unfold validateConfig.
    destruct (set_and_le_zero (maxFiles c)), (set_and_le_zero (maxBudgetUsd c)),
             (str_truthy (ANTHROPIC_API_KEY env)); simpl;
      intuition (discriminate || congruence). }
  split; [exact Hok|]. split; [|split; [|split]].
  - intros H. apply set_and_le_zero_spec in H. unfold validateConfig. now rewrite H.
  - intros H1 H2. apply not_below_zero in H1. apply set_and_le_zero_spec in H2.
    unfold validateConfig. now rewrite H1, H2.
  - intros H1 H2 Hk. apply not_below_zero in H1, H2.
    unfold validateConfig, getApiKey. rewrite H1, H2, Hk. simpl. split; [reflexivity|].
    destruct (ANTHROPIC_API_KEY env) as [k|]; [|reflexivity].
    simpl in Hk. apply negb_false_iff in Hk. now rewrite Hk.
  - intros H. apply Hok in H as (_ & _ & Hk). unfold getApiKey.
    destruct (ANTHROPIC_API_KEY env) as [k|]; [|discriminate]. simpl in Hk.
    apply negb_true_iff in Hk. rewrite Hk. exists k. repeat split.
    intros ->. discriminate.
Qed.

(** ** Configuration *)

Lemma mergeRules_enabled d u : Forall (fun r => rule_enabled r = true) (mergeRules d u).
Proof.
  apply Forall_forall. intros r Hr. unfold mergeRules in Hr.
  now apply list_elem_of_filter in Hr as [He _].
Qed.

Lemma mergeRules_DEFAULT_nil : mergeRules DEFAULT_RULES [] = getEnabledRules.
Proof. vm_compute. reflexivity. Qed.

(** X14: the rules of a built configuration are always there, whatever the
    caller passes: they are all enabled, no two of them share an id, and
    filtering them for the enabled ones, as the prompt assembler does,
    changes nothing.  Without a rule list from the caller (no key, the key
    with [undefined], or the empty list) they are the enabled default
    rules. *)
Theorem buildConfig_rules_resolved (env : ProcessEnv) (userConfig : PartialConfig) :
  ∃ rs, rules (buildConfig env userConfig) = Some rs
        ∧ Forall (fun r => rule_enabled r = true) rs
        ∧ NoDup (map rule_id rs)
        ∧ filter (fun r => rule_enabled r = true) rs = rs
        ∧ (user_rules userConfig = None ∨ user_rules userConfig = Some None
           ∨ user_rules userConfig = Some (Some []) → rs = getEnabledRules).
Proof.
  assert (H : ∃ u, rules (buildConfig env userConfig) = Some (mergeRules DEFAULT_RULES u)
                   ∧ (user_rules userConfig = None ∨ user_rules userConfig = Some None
                      ∨ user_rules userConfig = Some (Some []) → u = [])).
  { unfold buildConfig. cbn [rules].
    destruct (user_rules userConfig) as [[u|]|].
    - exists u. split; [reflexivity|]. intros [|[|]]; congruence.
    - exists []. now rewrite mergeRules_DEFAULT_nil.
    - exists []. now rewrite mergeRules_DEFAULT_nil. }
  destruct H as (u & -> & Hu). exists (mergeRules DEFAULT_RULES u).
  split; [reflexivity|]. split; [apply mergeRules_enabled|].
  split; [apply mergeRules_ids_NoDup|]. split.
  - apply filter_all. intros r Hr.
    pose proof (mergeRules_enabled DEFAULT_RULES u) as He.
    rewrite Forall_forall in He. now apply He.
  - intros H. rewrite (Hu H). apply mergeRules_DEFAULT_nil.
Qed.

(** X15: the exclude list of a built configuration, when there is one,
    begins with the eight baseline patterns: it is the baseline alone when
    the caller passes no [excludePatterns] key.  There is no exclude list
    exactly when the caller passes the key with the value [undefined]: the
    spread copies it over the default, and nothing puts the baseline
    back. *)
Theorem buildConfig_excludePatterns_baseline
    (env : ProcessEnv) (userConfig : PartialConfig) :
  (excludePatterns (buildConfig env userConfig) = None ↔
     user_excludePatterns userConfig = Some None)
  ∧ (∀ resolved, excludePatterns (buildConfig env userConfig) = Some resolved →
       ∃ patterns, resolved = default_excludePatterns ++ patterns)
  ∧ (user_excludePatterns userConfig = None →
       excludePatterns (buildConfig env userConfig) = Some default_excludePatterns).
Proof.
  unfold buildConfig. cbn [excludePatterns DEFAULT_CONFIG spread].
  destruct (user_excludePatterns userConfig) as [[patterns|]|]; simpl.
  - split; [split; discriminate|]. split; [|discriminate].
    intros resolved [= <-]. eauto.
  - split; [split; reflexivity|]. split; [discriminate|discriminate].
  - split; [split; discriminate|]. split; [|reflexivity].
    intros resolved [= <-]. exists []. reflexivity.
Qed.

Lemma Map_set_fresh {V} k (v : V) (m : Map jsstring V) :
  (k ∉ m.*1) → Map_set k v m = m ++ [(k, v)].
Proof.
  induction m as [|[k' v'] m IH]; intros Hk; [reflexivity|].
  simpl in *. apply not_elem_of_cons in Hk as [Hne Hk].
  rewrite str_eqb_ne by exact Hne. now rewrite IH.
Qed.

Lemma Map_set_replace {V} k (v v0 : V) (m1 m2 : Map jsstring V) :
  (k ∉ m1.*1) → Map_set k v (m1 ++ (k, v0) :: m2) = m1 ++ (k, v) :: m2.
Proof.
  induction m1 as [|[k' v'] m1 IH]; intros Hk; simpl.
  - now rewrite str_eqb_refl.
  - simpl in Hk. apply not_elem_of_cons in Hk as [Hne Hk].
    rewrite str_eqb_ne by exact Hne. now rewrite IH.
Qed.

Lemma rule_entry_keys rs : (map rule_entry rs).*1 = map rule_id rs.
Proof. induction rs as [|r rs IH]; [reflexivity|]. simpl. f_equal. exact IH. Qed.

Lemma rule_entry_values rs : Map_values (map rule_entry rs) = rs.
Proof.
  unfold Map_values. induction rs as [|r rs IH]; [reflexivity|].
  simpl. f_equal. exact IH.
Qed.

Lemma set_rules_fresh rs : ∀ m,
  NoDup (m.*1 ++ map rule_id rs) → set_rules rs m = m ++ map rule_entry rs.
Proof.
  induction rs as [|r rs IH]; intros m Hnd; [now rewrite app_nil_r|].
  change (set_rules (r :: rs) m) with (set_rules rs (Map_set (rule_id r) r m)).
  simpl in Hnd. apply NoDup_app in Hnd as (Hm & Hdisj & Hrs).
  apply NoDup_cons in Hrs as [Hr Hrs].
  rewrite Map_set_fresh by (intros Hin; apply (Hdisj _ Hin); now left).
  rewrite IH.
  - now rewrite <- app_assoc.
  - rewrite fmap_app. simpl. rewrite <- app_assoc. simpl.
    apply NoDup_app. split; [exact Hm|]. split.
    + intros x Hx Hx'. exact (Hdisj x Hx Hx').
    + now apply NoDup_cons.
Qed.

(** X16: the resolved rules keep the order of the default rules.  When no
    id occurs twice among the default rules and the user rules together,
    the resolved rules are the enabled ones of the default rules followed
    by the user rules; and a user rule with the id of a default rule takes
    that rule's place in the list. *)
Theorem mergeRules_order (defaultRules : list ReviewRule) :
  NoDup (map rule_id defaultRules) →
  (∀ userRules, NoDup (map rule_id (defaultRules ++ userRules)) →
     mergeRules defaultRules userRules
     = filter (fun rule => rule_enabled rule = true) (defaultRules ++ userRules))
  ∧ (∀ before r0 after r,
       defaultRules = before ++ r0 :: after → rule_id r = rule_id r0 →
       mergeRules defaultRules [r]
       = filter (fun rule => rule_enabled rule = true) (before ++ r :: after)).
Proof.
  intros Hd.
  assert (Hseed : set_rules defaultRules [] = map rule_entry defaultRules).
  { now rewrite set_rules_fresh. }
  split.
  - intros u Hnd. rewrite mergeRules_unfold, Hseed, set_rules_fresh.
    + now rewrite <- map_app, rule_entry_values.
    + now rewrite rule_entry_keys, <- map_app.
  - intros before r0 after r -> Hid. rewrite mergeRules_unfold, Hseed.
    change (set_rules [r] ?m) with (Map_set (rule_id r) r m).
    rewrite map_app. simpl. unfold rule_entry at 2. rewrite <- Hid.
    rewrite Map_set_replace.
    + change (rule_id r, r) with (rule_entry r).
      change (map rule_entry before ++ rule_entry r :: map rule_entry after)
        with (map rule_entry before ++ map rule_entry (r :: after)).
      now rewrite <- map_app, rule_entry_values.
    + rewrite rule_entry_keys, Hid. rewrite map_app in Hd.
      apply NoDup_app in Hd as (_ & Hdisj & _).
      intros Hin. apply (Hdisj _ Hin). now left.
Qed.

(** ** What the prompt leaves out *)

Lemma render_diff_cut d d' : same_up_to_cut d d' → render_diff d = render_diff d'.
Proof.
  intros (H1 & H2 & H3 & H4 & H5 & H6 & H7). unfold render_diff.
  now rewrite H1, H2, H3, H4, H5, H6, H7.
Qed.

Lemma flat_map_Forall2 {A B} (R : A → A → Prop) (f : A → list B) l l' :
  (∀ x y, R x y → f x = f y) → Forall2 R l l' → flat_map f l = flat_map f l'.
Proof.
  intros Hf. induction 1 as [|x y l l' Hxy _ IH]; [reflexivity|].
  simpl. now rewrite (Hf x y Hxy), IH.
Qed.

Lemma changes_section_cut pr ds ds' :
  fileDiffs pr = Some ds → length ds = length ds' →
  Forall2 same_up_to_cut (firstn 15 ds) (firstn 15 ds') →
  changes_section (with_fileDiffs ds' pr) = changes_section pr.
Proof.
  intros Hpr Hlen Hcut. unfold changes_section.
  cbn [fileDiffs changedFiles with_fileDiffs]. rewrite Hpr.
  destruct ds as [|d ds], ds' as [|d' ds']; try discriminate; [reflexivity|].
  rewrite <- Hlen.
  now rewrite (flat_map_Forall2 same_up_to_cut render_diff _ _ render_diff_cut Hcut).
Qed.

(** X17: the prompt shows of every patch at most its first 2000 code units
    and of the file diffs at most the first fifteen.  Replacing the diffs
    of the pull-request context by as many diffs that agree with them on
    the first fifteen, up to what follows the first 2000 code units of a
    patch longer than that, leaves the prompt as it is: what is cut off
    never reaches the agent. *)
Theorem buildPrompt_cut
    (c : ReviewConfig) (target : jsstring) (pr : PRContext) (ds ds' : list FileDiff) :
  prContext c = Some pr →
  fileDiffs pr = Some ds →
  length ds = length ds' →
  Forall2 same_up_to_cut (firstn 15 ds) (firstn 15 ds') →
  buildPrompt (with_prContext (Some (with_fileDiffs ds' pr)) c) target
  = buildPrompt c target.
Proof.
  intros Hc Hpr Hlen Hcut. unfold buildPrompt, review_task.
  cbn [prContext rules maxFiles with_prContext changedFiles with_fileDiffs].
  rewrite Hc. unfold pr_context_section.
  rewrite (changes_section_cut pr ds ds' Hpr Hlen Hcut). reflexivity.
Qed.

(** ** The logger *)

Lemma indexOf_absent {A} `{EqDecision A} (l : list A) x : (x ∉ l) → indexOf l x = (-1)%Z.
Proof.
  induction l as [|y l IH]; intros Hx; [reflexivity|].
  apply not_elem_of_cons in Hx as [Hne Hx]. simpl.
  destruct (decide (y = x)) as [->|_]; [congruence|]. now rewrite (IH Hx).
Qed.

Lemma indexOf_bounds {A} `{EqDecision A} (l : list A) x :
  (-1 <= indexOf l x < Z.of_nat (length l))%Z.
Proof.
  induction l as [|y l IH]; simpl; [lia|].
  destruct (decide (y = x)); [lia|].
  destruct (indexOf l x <? 0)%Z eqn:E; [lia|]. apply Z.ltb_ge in E. lia.
Qed.

Lemma indexOf_present {A} `{EqDecision A} (l : list A) x :
  x ∈ l → (0 <= indexOf l x)%Z.
Proof.
  induction l as [|y l IH]; intros Hx; [now apply elem_of_nil in Hx|]. simpl.
  destruct (decide (y = x)) as [|Hne]; [lia|].
  apply elem_of_cons in Hx as [->|Hx]; [congruence|].
  specialize (IH Hx). destruct (indexOf l x <? 0)%Z eqn:E; [apply Z.ltb_lt in E|]; lia.
Qed.

(** X18: a logger whose level is none of [debug], [info], [warn], [error]
    (the level comes unchecked from [LOG_LEVEL], so [DEBUG] is such a
    level) logs every message, debug messages included; a message at
    [error] is logged under every level; and without [LOG_LEVEL], or with
    an empty one, the level is [info]: debug messages are dropped and the
    other three kinds are logged. *)
Theorem shouldLog_levels (logLevel : jsstring) :
  (logLevel ∉ levels → ∀ level, shouldLog logLevel level = true)
  ∧ shouldLog logLevel (js "error") = true
  ∧ (logLevel ∈ levels → ∀ level, level ∉ levels → shouldLog logLevel level = false)
  ∧ (∀ env, LOG_LEVEL env = None ∨ LOG_LEVEL env = Some [] →
       default_logLevel env = js "info"
       ∧ shouldLog (default_logLevel env) (js "debug") = false
       ∧ shouldLog (default_logLevel env) (js "info") = true
       ∧ shouldLog (default_logLevel env) (js "warn") = true).
Proof.
  unfold shouldLog. split; [|split; [|split]].
  - intros Hl level. rewrite (indexOf_absent levels logLevel Hl).
    apply Z.leb_le. apply (indexOf_bounds levels level).
  - replace (indexOf levels (js "error")) with 3%Z by reflexivity.
    apply Z.leb_le. pose proof (indexOf_bounds levels logLevel) as H.
    change (Z.of_nat (length levels)) with 4%Z in H. lia.
  - intros Hl level Hn. rewrite (indexOf_absent levels level Hn).
    apply Z.leb_gt. pose proof (indexOf_present levels logLevel Hl). lia.
  - intros env H.
    assert (E : default_logLevel env = js "info").
    { unfold default_logLevel. destruct H as [-> | ->]; reflexivity. }
    rewrite E. repeat split.
Qed.

(** ** The regular expression of a glob *)

Lemma replace_stars_pieces s :
  replace_question_marks (replace_stars s) = flat_map glob_piece s.
Proof.
  unfold replace_question_marks, replace_stars.
  induction s as [|c s IH]; [reflexivity|].
  simpl. rewrite flat_map_app, IH. f_equal.
  unfold glob_piece. destruct (c =? 42); [reflexivity|].
  simpl. now rewrite app_nil_r.
Qed.

Lemma pieces_star s : ∀ pre post,
  flat_map glob_piece s = pre ++ 42 :: post → ∃ pre', pre = pre' ++ js "[^/]".
Proof.
  induction s as [|c s IH]; intros pre post H; [now destruct pre|].
  simpl in H. unfold glob_piece at 1 in H.
  destruct (c =? 42) eqn:E1.
  - destruct pre as [|p1 [|p2 [|p3 [|p4 [|p5 pre]]]]]; try discriminate.
    + exists []. injection H as <- <- <- <- _. reflexivity.
    + injection H as <- <- <- <- <- H.
      destruct (IH pre post H) as [pre' ->].
      exists (js "[^/]*" ++ pre'). reflexivity.
  - destruct pre as [|p pre].
    + apply N.eqb_neq in E1. destruct (c =? 63); injection H as H _; congruence.
    + assert (H' : flat_map glob_piece s = pre ++ 42 :: post)
        by (destruct (c =? 63); now injection H as _ H).
      destruct (IH pre post H') as [pre' ->]. exists (p :: pre'). reflexivity.
Qed.

Lemma snoc_eq_middle {A} (l pre post : list A) a b :
  a ≠ b → l ++ [a] = pre ++ b :: post →
  ∃ post', post = post' ++ [a] ∧ l = pre ++ b :: post'.
Proof.
  intros Hne H. destruct post as [|x post] using rev_ind.
  - apply app_inj_tail in H as [_ ->]. congruence.
  - clear IHpost. exists post.
    change (pre ++ b :: post ++ [x]) with (pre ++ (b :: post) ++ [x]) in H.
    rewrite app_assoc in H. apply app_inj_tail in H as [-> ->]. auto.
Qed.

Lemma escape_dots_plain s : plain_text s → escape_dots s = s.
Proof.
  unfold escape_dots. induction 1 as [|c s (Hdot & _ & _) _ IH]; [reflexivity|].
  simpl. apply N.eqb_neq in Hdot. now rewrite Hdot, IH.
Qed.

Lemma replace_double_stars_plain s rest :
  plain_text s → replace_double_stars (s ++ rest) = s ++ replace_double_stars rest.
Proof.
  intros Hs. induction Hs as [|c s (_ & Hstar & _) _ IH]; [reflexivity|].
  simpl. apply N.eqb_neq in Hstar. rewrite Hstar. simpl.
  destruct (s ++ rest) as [|d l] eqn:E.
  - apply app_eq_nil in E as [-> ->]. reflexivity.
  - now rewrite IH.
Qed.

Lemma glob_pieces_plain s : plain_text s → flat_map glob_piece s = s.
Proof.
  induction 1 as [|c s (_ & Hstar & Hq) _ IH]; [reflexivity|].
  change (flat_map glob_piece (c :: s)) with (glob_piece c ++ flat_map glob_piece s).
  rewrite IH. unfold glob_piece. apply N.eqb_neq in Hstar, Hq.
  now rewrite Hstar, Hq.
Qed.

(** X19: in the regular expression built for a glob every star is the star
    of [[^/]*]: the [.*] written for [**] does not survive the replacement
    of the single stars that follows it.  So a pattern [dir/**], with a
    [dir] free of dots, stars and question marks, gives [^dir/.[^/]*$],
    which has no way to get across a further slash. *)
Theorem globToRegex_stars (pattern : jsstring) :
  (∀ pre post, globToRegex pattern = pre ++ 42 :: post →
     ∃ pre', pre = pre' ++ js "[^/]")
  ∧ (plain_text pattern →
       globToRegex (pattern ++ js "/**") = js "^" ++ pattern ++ js "/.[^/]*$"
       ∧ globToRegex pattern = js "^" ++ pattern ++ js "$").
Proof.
  unfold globToRegex. split.
  - intros pre post H. rewrite replace_stars_pieces in H.
    destruct pre as [|p pre]; [discriminate|].
    simpl in H. injection H as _ H.
    apply snoc_eq_middle in H as (post' & _ & H); [|discriminate].
    destruct (pieces_star _ _ _ H) as [pre' ->]. exists (p :: pre'). reflexivity.
  - intros Hp. rewrite !replace_stars_pieces. split.
    + assert (Hall : plain_text (pattern ++ js "/")).
      { apply Forall_app. split; [exact Hp|]. repeat constructor; discriminate. }
      replace (pattern ++ js "/**") with ((pattern ++ js "/") ++ js "**")
        by (now rewrite <- app_assoc).
      assert (E : escape_dots ((pattern ++ js "/") ++ js "**")
                  = (pattern ++ js "/") ++ js "**").
      { unfold escape_dots. rewrite flat_map_app.
        fold (escape_dots (pattern ++ js "/")). now rewrite escape_dots_plain. }
      rewrite E, replace_double_stars_plain by exact Hall.
      rewrite flat_map_app, glob_pieces_plain by exact Hall.
      rewrite <- !app_assoc. reflexivity.
    + rewrite escape_dots_plain by exact Hp.
      rewrite <- (app_nil_r pattern) at 1.
      rewrite replace_double_stars_plain by exact Hp.
      rewrite app_nil_r, glob_pieces_plain by exact Hp. reflexivity.
Qed.

(** ** The Markdown report *)

(** X21: the Markdown report of a review under the threshold [critical]
    whose status is [partial] contradicts itself.  When the number of
    reviewed files can be printed the report is produced, and its lines
    hold the status [PARTIAL], a total of at least one issue and the
    heading of the issues by severity, and then [No issues found!]: the
    total counts the issues before the threshold, the list is taken after
    it. *)
Theorem markdown_partial_without_issues
    (show : value → result jsstring) (toFixed : number → nat → jsstring)
    (query : jsstring → Options → Stream) (start_time end_time : jsstring)
    (agent : CodeReviewAgent) (target : jsstring) (r : ReviewResult)
    (files : jsstring) :
  (review query start_time end_time agent target).1.1 = inr r →
  severityThreshold (config agent) = Some critical →
  res_status r = partial →
  show (totalFiles (res_stats r)) = inr files →
  ∃ lines n,
    formatReviewResultAsMarkdown show toFixed r = inr (join nl lines)
    ∧ js "- **Status**: PARTIAL" ∈ lines
    ∧ (0 < n)%nat
    ∧ js "- **Total Issues**: " ++ Number_toString (of_nat n) ∈ lines
    ∧ js "## Issues by Severity" ∈ lines
    ∧ js "No issues found!" ∈ lines
    ∧ last lines = Some [].
Proof.
  intros Hr Hc Hst Hfiles. apply review_returns_shape in Hr. cbv zeta in Hr.
  destruct Hr as (_ & _ & Hstatus & Hissues & _ & _ & Htotal & _).
  set (issues := parsed_issues _) in *.
  assert (Hnil : res_issues r = []).
  { rewrite Hissues. apply filterIssuesBySeverity_critical_nil; [exact Hc|].
    rewrite <- Hstatus, Hst. discriminate. }
  assert (Hpos : (0 < totalIssues (res_stats r))%nat).
  { rewrite Htotal. destruct issues; [|simpl; lia].
    rewrite Hst in Hstatus. discriminate Hstatus. }
  unfold formatReviewResultAsMarkdown, markdown_lines. rewrite Hfiles, Hnil, Hst.
  cbn [bind ret]. apply Nat.ltb_lt in Hpos as Hb. rewrite Hb.
  eexists. exists (totalIssues (res_stats r)).
  split; [reflexivity|]. split; [|split; [exact Hpos|split; [|split; [|split]]]].
  - do 4 (apply elem_of_cons; right). apply elem_of_cons. left. reflexivity.
  - do 7 (apply elem_of_cons; right). apply elem_of_cons. now left.
  - apply elem_of_app. right. apply elem_of_app. left. apply elem_of_cons. now left.
  - apply elem_of_app. right. apply elem_of_app. right. apply elem_of_cons. now left.
  - reflexivity.
Qed.

End FurtherProperties.

(** ** The default rules by id *)

Lemma DEFAULT_RULES_ids_NoDup : NoDup (map rule_id DEFAULT_RULES).
Proof. apply (bool_decide_unpack _). vm_compute. exact I. Qed.

Lemma find_by_id (rs : list ReviewRule) id r :
  NoDup (map rule_id rs) →
  find (fun rule => str_eqb (rule_id rule) id) rs = Some r ↔ r ∈ rs ∧ rule_id r = id.
Proof.
  induction rs as [|x rs IH]; intros Hnd; simpl.
  - split; [discriminate | intros [H _]; now apply elem_of_nil in H].
  - apply NoDup_cons in Hnd as [Hx Hnd].
    unfold str_eqb. case_bool_decide as Hid.
    + split.
      * intros [= <-]. split; [now left | exact Hid].
      * intros [Hin Hr]. apply elem_of_cons in Hin as [->|Hin]; [reflexivity|].
        contradict Hx. rewrite Hid, <- Hr. apply list_elem_of_fmap. eauto.
    + fold (str_eqb (rule_id x) id). rewrite (IH Hnd). split.
      * intros [Hin Hr]. split; [now right | exact Hr].
      * intros [Hin Hr]. apply elem_of_cons in Hin as [->|Hin]; [contradiction | auto].
Qed.

(** X20: no two default rules share an id, so [getRuleById] finds the
    default rule with the id, if there is one, and no other rule has that
    id; it finds nothing exactly for an id of no default rule; and it
    finds every default rule under its id, the enabled ones and the
    disabled ones alike. *)
Theorem getRuleById_unique (id : jsstring) :
  (∀ r, getRuleById id = Some r ↔ r ∈ DEFAULT_RULES ∧ rule_id r = id)
  ∧ (getRuleById id = None ↔ id ∉ map rule_id DEFAULT_RULES)
  ∧ (∀ r, r ∈ DEFAULT_RULES → getRuleById (rule_id r) = Some r)
  ∧ (∀ r, r ∈ getEnabledRules → getRuleById (rule_id r) = Some r).
Proof.
  assert (H : ∀ i r, getRuleById i = Some r ↔ r ∈ DEFAULT_RULES ∧ rule_id r = i).
  { intros i r. apply find_by_id, DEFAULT_RULES_ids_NoDup. }
  split; [exact (H id)|]. split; [|split].
  - split.
    + intros Hn Hin. apply list_elem_of_fmap in Hin as (r & -> & Hin).
      assert (Hr : getRuleById (rule_id r) = Some r) by now apply H.
      congruence.
    + intros Hn. destruct (getRuleById id) as [r|] eqn:E; [|reflexivity].
      apply H in E as [Hin <-]. contradict Hn. apply list_elem_of_fmap. eauto.
  - intros r Hin. now apply H.
  - intros r Hin. apply H. split; [|reflexivity].
    unfold getEnabledRules in Hin. now apply list_elem_of_filter in Hin as [_ Hin].
Qed.

(** * The further properties on sample inputs *)

(** X3 on the category [Perf bug (Docs)]: it is a bug. *)
Lemma mapCategory_ascii_example :
  ¬ mentions (js "Perf bug (Docs)") (js "security")
  ∧ ¬ mentions (js "Perf bug (Docs)") (js "performance")
  ∧ mentions (js "Perf bug (Docs)") (js "bug").
Proof.
  assert (Ha : is_ascii (js "Perf bug (Docs)")) by (repeat constructor).
  destruct (@mapCategory_ascii_priority sample_platform _ Ha) as (_ & _ & Hbug & _).
  apply Hbug. vm_compute. reflexivity.
Defined.

(** X5 on an answer whose second issue has the number 5 for a severity:
    the first issue is lost with it. *)
Lemma parseResults_all_or_nothing_example :
  @parseResults sample_platform mixed_issues_text = empty_results.
Proof.
  refine (proj1 (@parseResults_all_or_nothing sample_platform mixed_issues_text
                   mixed_issues_text mixed_object mixed_issues _ _ _) _).
  - vm_compute. reflexivity.
  - vm_compute. reflexivity.
  - vm_compute. reflexivity.
  - exists (JObject (<[js "severity" := JNumber (Finite 5)]> ∅)), TypeError. split.
    + apply elem_of_cons. right. apply elem_of_cons. now left.
    + vm_compute. reflexivity.
Defined.

(** X10 on a stream that fails after its system message: the exception is
    thrown on, and the agent has the session id. *)
Lemma review_session_id_example :
  getSessionId (@review sample_platform failing_query (js "t0") (js "t1")
                  sample_agent (js ".")).1.2 = Some (js "s-3")
  ∧ (@review sample_platform failing_query (js "t0") (js "t1")
       sample_agent (js ".")).1.1 = inl (Error (js "aborted")).
Proof.
  destruct (@review_session_id sample_platform failing_query (js "t0") (js "t1")
              sample_agent (js ".")) as (Hid & _ & Hfail & _).
  split; [exact Hid | exact (Hfail _ eq_refl)].
Defined.

(** X11 on a stream without a result message. *)
Lemma review_unparsed_example :
  ∃ r, (@review sample_platform quiet_query (js "t0") (js "t1")
          sample_agent (js ".")).1.1 = inr r
       ∧ res_status r = success ∧ res_issues r = [].
Proof.
  destruct (@review_unparsed_is_success sample_platform quiet_query (js "t0") (js "t1")
              sample_agent (js ".") eq_refl eq_refl) as (r & H1 & H2 & H3 & _).
  exists r. auto.
Defined.

(** X12 on scenario A: with the report printed and the comment posted,
    the one critical issue fails the check under [fail-on: critical]. *)
Lemma shouldFail_example :
  ∃ r, (@review sample_platform scenario_query (js "t0") (js "t1")
          sample_agent (js ".")).1.1 = inr r
       ∧ res_status r = failure
       ∧ @check_fails sample_platform sample_show sample_toFixed comment_posted
           (js "critical") r = true.
Proof.
  destruct ((@review sample_platform scenario_query (js "t0") (js "t1")
               sample_agent (js ".")).1.1) as [e|r] eqn:Hr.
  - vm_compute in Hr. discriminate.
  - assert (Hst : res_status r = failure).
    { pose proof Hr as Hr'. vm_compute in Hr'. injection Hr' as <-. reflexivity. }
    destruct (@shouldFail_by_status sample_platform sample_show sample_toFixed
                comment_posted scenario_query (js "t0") (js "t1") sample_agent
                (js ".") r Hr) as (Hcritical & _ & _ & _ & _ & Hcheck & _).
    exists r. split; [reflexivity|]. split; [exact Hst|].
    apply Hcheck. right. right. now apply Hcritical.
Defined.

(** X16 on scenario D: the disabled user rule takes the place of the
    default rule [security-xss], the third of the default rules. *)
Lemma mergeRules_order_example :
  mergeRules DEFAULT_RULES [xss_rule false]
  = filter (fun rule => rule_enabled rule = true)
      (take 2 DEFAULT_RULES ++ xss_rule false :: drop 3 DEFAULT_RULES).
Proof.
  exact (proj2 (mergeRules_order DEFAULT_RULES DEFAULT_RULES_ids_NoDup)
           (take 2 DEFAULT_RULES) (xss_rule true) (drop 3 DEFAULT_RULES)
           (xss_rule false) eq_refl eq_refl).
Defined.

(** X17 on two patches of more than 2000 code units that differ after
    them. *)
Lemma buildPrompt_cut_example :
  @buildPrompt sample_platform (cut_config [long_patch "more"]) (js ".")
  = @buildPrompt sample_platform (cut_config [long_patch "less"]) (js ".").
Proof.
  refine (@buildPrompt_cut sample_platform (cut_config [long_patch "less"]) (js ".")
            (diffs_context [long_patch "less"]) [long_patch "less"] [long_patch "more"]
            eq_refl eq_refl eq_refl _).
  constructor; [|constructor].
  repeat split; vm_compute; reflexivity.
Defined.

(** X21 on an answer with one [MEDIUM] issue, reviewed under the threshold
    [critical]. *)
Lemma markdown_partial_example :
  ∃ r lines,
    (@review sample_platform medium_query (js "t0") (js "t1")
       critical_agent (js ".")).1.1 = inr r
    ∧ @formatReviewResultAsMarkdown sample_platform sample_show sample_toFixed r
      = inr (join nl lines)
    ∧ js "- **Status**: PARTIAL" ∈ lines
    ∧ js "## Issues by Severity" ∈ lines
    ∧ js "No issues found!" ∈ lines.
Proof.
  destruct ((@review sample_platform medium_query (js "t0") (js "t1")
               critical_agent (js ".")).1.1) as [e|r] eqn:Hr.
  - vm_compute in Hr. discriminate.
  - assert (Hst : res_status r = partial ∧ sample_show (totalFiles (res_stats r)) = inr (js "1")).
    { pose proof Hr as Hr'. vm_compute in Hr'. injection Hr' as <-.
      split; vm_compute; reflexivity. }
    destruct Hst as [Hst Hfiles].
    destruct (@markdown_partial_without_issues sample_platform sample_show sample_toFixed
                medium_query (js "t0") (js "t1") critical_agent (js ".") r (js "1")
                Hr eq_refl Hst Hfiles)
      as (lines & n & H1 & H2 & _ & _ & H3 & H4 & _).
    exists r, lines. auto.
Defined.

(** X19 on the first of the baseline exclusions. *)
Lemma globToRegex_node_modules :
  globToRegex (js "node_modules/**") = js "^node_modules/.[^/]*$".
Proof.
  refine (proj1 (proj2 (globToRegex_stars (js "node_modules")) _)).
  repeat constructor; discriminate.
Defined.
